(** * checkVisa.py: a shallow embedding of the visa status monitor

    The monitor polls a web page, extracts the status label of one country
    from an HTML table, compares it with the status it remembers, notifies
    a Telegram chat on a change and keeps a small JSON state file.

    Python [str] values are Rocq strings holding the UTF-8 encoding of the
    text; Python [int] is [Z].  The outside world (clock, HTTP, disk, sleep)
    enters each function as an explicit outcome; every outcome the real
    world can produce is one of them. *)

From Stdlib Require Import String Ascii ZArith List Lia Bool DecimalString.
From stdpp Require Import gmap strings.
Import ListNotations.
Set Warnings "-register-all".
Open Scope string_scope.
Open Scope list_scope.

(** ** Python string primitives *)

Module Py.

Definition chr (n : nat) : string := String (ascii_of_nat n) EmptyString.

Definition newline : string := chr 10.
Definition dquote : string := chr 34.

Definition code (c : ascii) : nat := nat_of_ascii c.

Definition between (lo hi n : nat) : bool := (lo <=? n)%nat && (n <=? hi)%nat.

(** [c.isspace()] for a one-byte character: TAB..CR, FS..US and the blank. *)
Definition space1 (c : ascii) : bool :=
  between 9 13 (code c) || between 28 32 (code c).

(** Two-byte white space: U+0085 and U+00A0. *)
Definition space2 (a b : ascii) : bool :=
  (code a =? 194)%nat && ((code b =? 133)%nat || (code b =? 160)%nat).

(** Three-byte white space: U+1680, U+2000..U+200A, U+2028, U+2029, U+202F,
    U+205F and U+3000. *)
Definition space3 (a b c : ascii) : bool :=
  ((code a =? 225)%nat && (code b =? 154)%nat && (code c =? 128)%nat)
  || ((code a =? 226)%nat && (code b =? 128)%nat
      && (between 128 138 (code c) || between 168 169 (code c) || (code c =? 175)%nat))
  || ((code a =? 226)%nat && (code b =? 129)%nat && (code c =? 159)%nat)
  || ((code a =? 227)%nat && (code b =? 128)%nat && (code c =? 128)%nat).

(** [s.lstrip()]; with [back] the bytes arrive reversed, as [rstrip] feeds
    them. *)
Fixpoint lstrip_dir (back : bool) (s : string) : string :=
  match s with
  | EmptyString => EmptyString
  | String a r =>
      if space1 a then lstrip_dir back r
      else match r with
           | EmptyString => s
           | String b r2 =>
               if (if back then space2 b a else space2 a b) then lstrip_dir back r2
               else match r2 with
                    | EmptyString => s
                    | String c r3 =>
                        if (if back then space3 c b a else space3 a b c)
                        then lstrip_dir back r3
                        else s
                    end
           end
  end.

Definition lstrip (s : string) : string := lstrip_dir false s.
Definition rstrip (s : string) : string := String.rev (lstrip_dir true (String.rev s)).

(** [s.strip()] *)
Definition strip (s : string) : string := rstrip (lstrip s).

(** [s.lower()].  Only the letters A..Z are mapped; the characters outside
    ASCII that Python would also map never become one of [n], [/], [a] or
    [-], the only characters the program compares a lowered string with. *)
Definition lower_char (c : ascii) : ascii :=
  if between 65 90 (code c) then ascii_of_nat (code c + 32) else c.

Fixpoint lower (s : string) : string :=
  match s with
  | EmptyString => EmptyString
  | String c r => String (lower_char c) (lower r)
  end.

(** [needle in hay] on [str] *)
Fixpoint contains (needle hay : string) : bool :=
  match hay with
  | EmptyString => String.prefix needle EmptyString
  | String _ r => String.prefix needle hay || contains needle r
  end.

(** [bool(s)] on [str] *)
Definition nonempty (s : string) : bool :=
  match s with EmptyString => false | String _ _ => true end.

(** [x in xs] for a list of [str] *)
Definition member (x : string) (xs : list string) : bool :=
  existsb (String.eqb x) xs.

(** [str(n)] on [int] *)
Definition str_of_int (n : Z) : string := NilZero.string_of_int (Z.to_int n).

Definition is_digit (c : ascii) : bool := between 48 57 (code c).
Definition digit (c : ascii) : Z := Z.of_nat (code c - 48).

(** The digits of an [int] literal: single underscores may separate digits. *)
Fixpoint int_digits (acc : Z) (after_digit : bool) (s : string) : option Z :=
  match s with
  | EmptyString => if after_digit then Some acc else None
  | String c r =>
      if is_digit c then int_digits (10 * acc + digit c) true r
      else if (code c =? 95)%nat && after_digit then int_digits acc false r
      else None
  end.

(** [int(s)] in base ten, for the digits 0..9; [None] stands for
    [ValueError]. *)
Definition int (s : string) : option Z :=
  match strip s with
  | String c r =>
      if (code c =? 45)%nat then Z.opp <$> int_digits 0 false r
      else if (code c =? 43)%nat then int_digits 0 false r
      else int_digits 0 false (String c r)
  | EmptyString => None
  end.

End Py.







(** ** The [json] module, as far as the state file uses it *)

Module Json.

(** A decoded JSON document, which is also the Python value [json.load]
    returns: [JNull] is [None], [JString] a [str], [JObject] a [dict] given
    by its members in document order.  A number keeps its literal. *)
Inductive json :=
| JNull
| JBool (b : bool)
| JNumber (literal : string)
| JString (s : string)
| JArray (items : list json)
| JObject (members : list (string * json)).

(** [d.get(key)] on the [dict] built from [members]: a repeated key keeps its
    last value, a missing key gives [None]. *)
Fixpoint get (key : string) (members : list (string * json)) : json :=
  match members with
  | [] => JNull
  | (k, v) :: rest =>
      if String.eqb k key && negb (existsb (fun kv => String.eqb (fst kv) key) rest)
      then v else get key rest
  end.

(** *** Encoding *)

Definition hex_digit (n : nat) : string :=
  Py.chr (if (n <? 10)%nat then 48 + n else 87 + n).

(** One character of a string literal (ESCAPE_DCT, [ensure_ascii=False]). *)
Definition escape (c : ascii) : string :=
  let n := Py.code c in
  if (n =? 34)%nat then "\" +:+ Py.dquote
  else if (n =? 92)%nat then "\\"
  else if (n =? 10)%nat then "\n"
  else if (n =? 13)%nat then "\r"
  else if (n =? 9)%nat then "\t"
  else if (n =? 12)%nat then "\f"
  else if (n =? 8)%nat then "\b"
  else if (n <? 32)%nat then "\u00" +:+ hex_digit (n / 16) +:+ hex_digit (n mod 16)
  else String c EmptyString.

Fixpoint escape_all (s : string) : string :=
  match s with
  | EmptyString => EmptyString
  | String c r => escape c +:+ escape_all r
  end.

(** [encode_basestring(s)] *)
Definition encode_string (s : string) : string :=
  Py.dquote +:+ escape_all s +:+ Py.dquote.

Definition encode_item (kv : string * string) : string :=
  encode_string (fst kv) +:+ ": " +:+ encode_string (snd kv).

Fixpoint join (sep : string) (parts : list string) : string :=
  match parts with
  | [] => EmptyString
  | [p] => p
  | p :: rest => p +:+ sep +:+ join sep rest
  end.

(** [json.dumps(data, ensure_ascii=False, indent=2)] for a [dict] whose
    values are [str], given by its items in insertion order. *)
Definition dumps (data : list (string * string)) : string :=
  match data with
  | [] => "{}"
  | _ => "{" +:+ Py.newline +:+ "  "
         +:+ join ("," +:+ Py.newline +:+ "  ") (map encode_item data)
         +:+ Py.newline +:+ "}"
  end.

(** *** Decoding *)

Definition is_ws (c : ascii) : bool :=
  let n := Py.code c in
  (n =? 32)%nat || (n =? 9)%nat || (n =? 10)%nat || (n =? 13)%nat.

Fixpoint skip_ws (s : string) : string :=
  match s with
  | EmptyString => EmptyString
  | String c r => if is_ws c then skip_ws r else s
  end.

Definition hex_value (c : ascii) : option N :=
  let n := Py.code c in
  if Py.between 48 57 n then Some (N.of_nat (n - 48))
  else if Py.between 97 102 n then Some (N.of_nat (n - 87))
  else if Py.between 65 70 n then Some (N.of_nat (n - 55))
  else None.

Definition hex4 (a b c d : ascii) : option N :=
  match hex_value a, hex_value b, hex_value c, hex_value d with
  | Some x, Some y, Some z, Some w => Some (((x * 16 + y) * 16 + z) * 16 + w)%N
  | _, _, _, _ => None
  end.

Definition byte (n : N) : string := Py.chr (N.to_nat n).

(** [chr(n)], encoded. *)
Definition utf8 (n : N) : string :=
  if (n <? 128)%N then byte n
  else if (n <? 2048)%N then byte (192 + n / 64) +:+ byte (128 + n mod 64)
  else if (n <? 65536)%N then
    byte (224 + n / 4096) +:+ byte (128 + (n / 64) mod 64) +:+ byte (128 + n mod 64)
  else byte (240 + n / 262144) +:+ byte (128 + (n / 4096) mod 64)
       +:+ byte (128 + (n / 64) mod 64) +:+ byte (128 + n mod 64).

Definition is_high (n : N) : bool := (55296 <=? n)%N && (n <=? 56319)%N.
Definition is_low (n : N) : bool := (56320 <=? n)%N && (n <=? 57343)%N.

(** The code point a surrogate pair stands for. *)
Definition pair_up (h l : N) : N := (65536 + (h - 55296) * 1024 + (l - 56320))%N.

Definition pending (hi : option N) : string :=
  match hi with Some h => utf8 h | None => EmptyString end.

(** The character a one-letter escape stands for (BACKSLASH). *)
Definition unescape (c : ascii) : option string :=
  let n := Py.code c in
  if (n =? 34)%nat then Some Py.dquote
  else if (n =? 92)%nat then Some "\"
  else if (n =? 47)%nat then Some "/"
  else if (n =? 98)%nat then Some (Py.chr 8)
  else if (n =? 102)%nat then Some (Py.chr 12)
  else if (n =? 110)%nat then Some (Py.chr 10)
  else if (n =? 114)%nat then Some (Py.chr 13)
  else if (n =? 116)%nat then Some (Py.chr 9)
  else None.

Definition emit {A} (p : string) (r : option (string * A)) : option (string * A) :=
  match r with Some (s, rest) => Some (p +:+ s, rest) | None => None end.

(** [scanstring], entered after the opening quote, in strict mode.  [hi] is
    a high surrogate read from a [\u] escape and not yet paired.  The result
    is the decoded string and the input after the closing quote. *)
Fixpoint scanstring (hi : option N) (s : string) : option (string * string) :=
  match s with
  | EmptyString => None
  | String c r =>
      if (Py.code c =? 34)%nat then Some (pending hi, r)
      else if (Py.code c =? 92)%nat then
        match r with
        | EmptyString => None
        | String e r1 =>
            if (Py.code e =? 117)%nat then
              match r1 with
              | String h1 (String h2 (String h3 (String h4 r2))) =>
                  match hex4 h1 h2 h3 h4 with
                  | None => None
                  | Some n =>
                      match hi with
                      | Some h =>
                          if is_low n
                          then emit (utf8 (pair_up h n)) (scanstring None r2)
                          else if is_high n then emit (utf8 h) (scanstring (Some n) r2)
                          else emit (utf8 h +:+ utf8 n) (scanstring None r2)
                      | None =>
                          if is_high n then scanstring (Some n) r2
                          else emit (utf8 n) (scanstring None r2)
                      end
                  end
              | _ => None
              end
            else
              match unescape e with
              | Some ch => emit (pending hi +:+ ch) (scanstring None r1)
              | None => None
              end
        end
      else if (Py.code c <? 32)%nat then None
      else emit (pending hi +:+ String c EmptyString) (scanstring None r)
  end.

Fixpoint take_digits (s : string) : string * string :=
  match s with
  | String c r =>
      if Py.is_digit c then let (d, rest) := take_digits r in (String c d, rest)
      else (EmptyString, s)
  | EmptyString => (EmptyString, EmptyString)
  end.

(** The integer part of NUMBER_RE: [0] or a digit string not starting with
    [0]. *)
Definition scan_int (s : string) : option (string * string) :=
  match s with
  | String c r =>
      if (Py.code c =? 48)%nat then Some ("0", r)
      else if Py.is_digit c then Some (take_digits s)
      else None
  | EmptyString => None
  end.

Definition scan_frac (s : string) : string * string :=
  match s with
  | String c r =>
      if (Py.code c =? 46)%nat then
        match take_digits r with
        | (EmptyString, _) => (EmptyString, s)
        | (d, rest) => (String c d, rest)
        end
      else (EmptyString, s)
  | EmptyString => (EmptyString, s)
  end.

Definition scan_exp (s : string) : string * string :=
  match s with
  | String c r =>
      if (Py.code c =? 101)%nat || (Py.code c =? 69)%nat then
        let '(sign, r1) :=
          match r with
          | String g r' =>
              if (Py.code g =? 43)%nat || (Py.code g =? 45)%nat
              then (String g EmptyString, r') else (EmptyString, r)
          | EmptyString => (EmptyString, r)
          end in
        match take_digits r1 with
        | (EmptyString, _) => (EmptyString, s)
        | (d, rest) => (String c (sign +:+ d), rest)
        end
      else (EmptyString, s)
  | EmptyString => (EmptyString, s)
  end.

(** NUMBER_RE at the head of [s]: the literal and the input after it. *)
Definition scan_number (s : string) : option (string * string) :=
  let '(sign, s1) :=
    match s with
    | String c r => if (Py.code c =? 45)%nat then ("-", r) else (EmptyString, s)
    | EmptyString => (EmptyString, s)
    end in
  match scan_int s1 with
  | None => None
  | Some (i, s2) =>
      let (f, s3) := scan_frac s2 in
      let (e, s4) := scan_exp s3 in
      Some (sign +:+ i +:+ f +:+ e, s4)
  end.

Fixpoint strip_prefix (p s : string) : option string :=
  match p, s with
  | EmptyString, _ => Some s
  | String a p', String b s' => if Ascii.eqb a b then strip_prefix p' s' else None
  | String _ _, EmptyString => None
  end.

(** The branches of [scan_once] for the literals and the numbers. *)
Definition scan_atom (s : string) : option (json * string) :=
  match strip_prefix "null" s, strip_prefix "true" s, strip_prefix "false" s with
  | Some rest, _, _ => Some (JNull, rest)
  | _, Some rest, _ => Some (JBool true, rest)
  | _, _, Some rest => Some (JBool false, rest)
  | None, None, None =>
      match scan_number s with
      | Some (lit, rest) => Some (JNumber lit, rest)
      | None =>
          match strip_prefix "NaN" s, strip_prefix "Infinity" s,
                strip_prefix "-Infinity" s with
          | Some rest, _, _ => Some (JNumber "NaN", rest)
          | _, Some rest, _ => Some (JNumber "Infinity", rest)
          | _, _, Some rest => Some (JNumber "-Infinity", rest)
          | None, None, None => None
          end
      end
  end.

(** [scan_once]: one value at the head of [s].  [fuel] bounds the number of
    values and members read, each of which takes at least one character. *)
Fixpoint scan_once (fuel : nat) (s : string) : option (json * string) :=
  match fuel with
  | O => None
  | S fuel' =>
      match s with
      | EmptyString => None
      | String c r =>
          let n := Py.code c in
          if (n =? 34)%nat then
            match scanstring None r with
            | Some (str, rest) => Some (JString str, rest)
            | None => None
            end
          else if (n =? 123)%nat then
            match skip_ws r with
            | String c1 r1 =>
                if (Py.code c1 =? 125)%nat then Some (JObject [], r1)
                else members fuel' [] (String c1 r1)
            | EmptyString => None
            end
          else if (n =? 91)%nat then
            match skip_ws r with
            | String c1 r1 =>
                if (Py.code c1 =? 93)%nat then Some (JArray [], r1)
                else items fuel' [] (String c1 r1)
            | EmptyString => None
            end
          else scan_atom s
      end
  end

with items (fuel : nat) (acc : list json) (s : string) : option (json * string) :=
  match fuel with
  | O => None
  | S fuel' =>
      match scan_once fuel' s with
      | None => None
      | Some (v, r) =>
          match skip_ws r with
          | String c r1 =>
              if (Py.code c =? 93)%nat then Some (JArray (rev (v :: acc)), r1)
              else if (Py.code c =? 44)%nat then items fuel' (v :: acc) (skip_ws r1)
              else None
          | EmptyString => None
          end
      end
  end

with members (fuel : nat) (acc : list (string * json)) (s : string)
  : option (json * string) :=
  match fuel with
  | O => None
  | S fuel' =>
      match s with
      | EmptyString => None
      | String q r =>
          if negb (Py.code q =? 34)%nat then None
          else
            match scanstring None r with
            | None => None
            | Some (key, r1) =>
                match skip_ws r1 with
                | EmptyString => None
                | String c r2 =>
                    if negb (Py.code c =? 58)%nat then None
                    else
                      match scan_once fuel' (skip_ws r2) with
                      | None => None
                      | Some (v, r3) =>
                          match skip_ws r3 with
                          | String d r4 =>
                              if (Py.code d =? 125)%nat
                              then Some (JObject (rev ((key, v) :: acc)), r4)
                              else if (Py.code d =? 44)%nat
                              then members fuel' ((key, v) :: acc) (skip_ws r4)
                              else None
                          | EmptyString => None
                          end
                      end
                end
            end
      end
  end.

(** [json.loads(s)]: one value with white space around it and nothing else;
    [None] stands for [JSONDecodeError]. *)
Definition loads (s : string) : option json :=
  match scan_once (S (String.length s)) (skip_ws s) with
  | Some (v, rest) =>
      match skip_ws rest with
      | EmptyString => Some v
      | String _ _ => None
      end
  | None => None
  end.

End Json.

Import Json.

(** ** BeautifulSoup: the parsed page *)

Module Soup.

(** A parse tree.  A [Tag] carries its name, the values of its [class]
    attribute and its contents; [NavigableString] is text; [Comment] stands
    for the strings [get_text] leaves out (comments, declarations, ...). *)
Inductive node :=
| Tag (name : string) (classes : list string) (contents : list node)
| NavigableString (text : string)
| Comment (text : string).

Definition is_tag (n : node) : bool :=
  match n with Tag _ _ _ => true | _ => false end.

(** [n.descendants] in document order; each comes with whether no element
    follows it among its siblings (what [:last-child] asks of an element). *)
Fixpoint below (n : node) : list (node * bool) :=
  match n with
  | Tag _ _ cs =>
      (fix each (l : list node) : list (node * bool) :=
         match l with
         | [] => []
         | c :: r => (c, negb (existsb is_tag r)) :: below c ++ each r
         end) cs
  | _ => []
  end.

Definition descendants (n : node) : list node := map fst (below n).

(** [n.find_all(name)] *)
Definition find_all (name : string) (n : node) : list node :=
  List.filter (fun d => match d with Tag t _ _ => String.eqb t name | _ => false end)
         (descendants n).

Definition stripped (d : node) : list string :=
  match d with
  | NavigableString s => let t := Py.strip s in if Py.nonempty t then [t] else []
  | _ => []
  end.

(** [n.get_text(strip=True)]: the text strings below [n], each stripped,
    the empty ones dropped, joined without a separator. *)
Definition get_text (n : node) : string :=
  String.concat EmptyString (flat_map stripped (descendants n)).

(** A compound CSS selector: an optional type selector, class selectors and
    an optional [:last-child]. *)
Record selector := {
  sel_name : option string;
  sel_classes : list string;
  sel_last_child : bool
}.

Definition matches (sel : selector) (d : node * bool) : bool :=
  match fst d with
  | Tag t classes _ =>
      match sel_name sel with Some n => String.eqb t n | None => true end
      && forallb (fun c => Py.member c classes) (sel_classes sel)
      && implb (sel_last_child sel) (snd d)
  | _ => false
  end.

(** [n.select_one(sel)]: the first descendant element that matches. *)
Definition select_one (sel : selector) (n : node) : option node :=
  fst <$> find (matches sel) (below n).

End Soup.

Import Soup.

(** ** The program *)

(** *** Configuration *)

Record config := {
  BOT_TOKEN : string;
  CHAT_ID : string;
  CHECK_INTERVAL : Z;
  COUNTRY : string;
  SCRIPT_DIR : string
}.

(** [os.environ.get(key, default)] *)
Definition environ_get (environ : gmap string string) (key fallback : string) : string :=
  default fallback (environ !! key).

(** The module-level assignments.  [None]: [int] raised [ValueError] and the
    process ends before [main] is entered. *)
Definition configuration (environ : gmap string string) (script_dir : string)
  : option config :=
  match Py.int (environ_get environ "CHECK_INTERVAL" "300") with
  | Some interval =>
      Some {| BOT_TOKEN := environ_get environ "TELEGRAM_BOT_TOKEN" "TU_BOT_TOKEN_AQUI";
              CHAT_ID := environ_get environ "TELEGRAM_CHAT_ID" "TU_CHAT_ID_AQUI";
              CHECK_INTERVAL := interval;
              COUNTRY := environ_get environ "COUNTRY" "Spain";
              SCRIPT_DIR := script_dir |}
  | None => None
  end.

Definition STATE_FILE (cfg : config) : string := SCRIPT_DIR cfg +:+ "/visa_status_state.json".
Definition LOG_FILE (cfg : config) : string := SCRIPT_DIR cfg +:+ "/visa_checker.log".

(** *** The machine: loop variables, disk, log and the calls made *)

Inductive exn :=
| RequestException (text : string)
| Exception (text : string)
| KeyboardInterrupt.

(** [isinstance(e, Exception)] *)
Definition is_Exception (e : exn) : bool :=
  match e with KeyboardInterrupt => false | _ => true end.

Definition exn_str (e : exn) : string :=
  match e with
  | RequestException text | Exception text => text
  | KeyboardInterrupt => EmptyString
  end.

Inductive level := DEBUG | INFO | WARNING | ERROR.

Definition is_debug (l : level) : bool :=
  match l with DEBUG => true | _ => false end.

(** The state file: missing, present but not readable as text, or a text. *)
Inductive file :=
| Absent
| Unreadable
| Content (text : string).

(** What becomes of [open(STATE_FILE, 'w')] and the writes that follow: all
    of the text reaches the file, the file cannot be opened, or the writes
    stop after [kept] characters. *)
Inductive write_outcome :=
| Written
| OpenFailed
| Cut (kept : nat).

Inductive call :=
| Send (message : string)
| Save (status timestamp : string).

Record machine := {
  previous_status : json;
  consecutive_errors : Z;
  state_file : file;
  log : list (level * string);
  calls : list call
}.

Definition set_previous_status (v : json) (m : machine) : machine :=
  {| previous_status := v; consecutive_errors := consecutive_errors m;
     state_file := state_file m; log := log m; calls := calls m |}.

Definition set_consecutive_errors (n : Z) (m : machine) : machine :=
  {| previous_status := previous_status m; consecutive_errors := n;
     state_file := state_file m; log := log m; calls := calls m |}.

Definition set_state_file (f : file) (m : machine) : machine :=
  {| previous_status := previous_status m; consecutive_errors := consecutive_errors m;
     state_file := f; log := log m; calls := calls m |}.

Definition add_log (l : level * string) (m : machine) : machine :=
  {| previous_status := previous_status m; consecutive_errors := consecutive_errors m;
     state_file := state_file m; log := log m ++ [l]; calls := calls m |}.

Definition add_call (c : call) (m : machine) : machine :=
  {| previous_status := previous_status m; consecutive_errors := consecutive_errors m;
     state_file := state_file m; log := log m; calls := calls m ++ [c] |}.

Inductive result (A : Type) :=
| Ret (a : A)
| Raise (e : exn).
Arguments Ret {A} a.
Arguments Raise {A} e.

(** A statement: it runs on a machine and returns or raises. *)
Definition M (A : Type) : Type := machine -> result A * machine.

#[global] Instance M_ret : MRet M := fun A a m => (Ret a, m).
#[global] Instance M_bind : MBind M := fun A B k c m =>
  match c m with
  | (Ret a, m') => k a m'
  | (Raise e, m') => (Raise e, m')
  end.

Definition raise {A} (e : exn) : M A := fun m => (Raise e, m).
Definition read {A} (f : machine -> A) : M A := fun m => (Ret (f m), m).
Definition update (f : machine -> machine) : M unit := fun m => (Ret tt, f m).

(** [try: body except ...: handler]; [handler e] is [None] when no clause
    takes [e]. *)
Definition try_except {A} (body : M A) (handler : exn -> option (M A)) : M A :=
  fun m =>
    match body m with
    | (Ret a, m') => (Ret a, m')
    | (Raise e, m') =>
        match handler e with
        | Some h => h m'
        | None => (Raise e, m')
        end
    end.

(** [logger.<level>(text)] under [basicConfig(level=logging.INFO)] *)
Definition logger (l : level) (text : string) : M unit :=
  if is_debug l then mret tt else update (add_log (l, text)).

(** *** State store *)

(** [STATE_FILE.exists()], [open(STATE_FILE, 'r')] and [json.load(f)];
    [data.get] exists on a [dict] only. *)
Definition load_previous_state : M (json * json) :=
  try_except
    (f ← read state_file;
     match f with
     | Absent => mret (JNull, JNull)
     | Unreadable => raise (Exception "OSError")
     | Content text =>
         match Json.loads text with
         | None => raise (Exception "JSONDecodeError")
         | Some (JObject data) => mret (Json.get "status" data, Json.get "last_check" data)
         | Some _ => raise (Exception "AttributeError")
         end
     end)
    (fun e =>
       if is_Exception e
       then Some (logger ERROR ("Error cargando estado anterior: " +:+ exn_str e);;
                  mret (JNull, JNull))
       else None).

(** [open(STATE_FILE, 'w')] followed by the writes of [json.dump]. *)
Definition write_state_file (w : write_outcome) (text : string) : M unit :=
  match w with
  | Written => update (set_state_file (Content text))
  | OpenFailed => raise (Exception "OSError")
  | Cut kept =>
      update (set_state_file (Content (String.substring 0 kept text)));;
      raise (Exception "OSError")
  end.

(** The [dict] that [save_state] builds, by its items in insertion order. *)
Definition state_record (status timestamp country : string) : list (string * string) :=
  [("status", status); ("last_check", timestamp); ("country", country)].

Definition save_state (cfg : config) (w : write_outcome) (status timestamp : string)
  : M unit :=
  update (add_call (Save status timestamp));;
  try_except
    (let data := state_record status timestamp (COUNTRY cfg) in
     write_state_file w (Json.dumps data);;
     logger DEBUG ("Estado guardado: " +:+ status))
    (fun e =>
       if is_Exception e
       then Some (logger ERROR ("Error guardando estado: " +:+ exn_str e))
       else None).

(** *** Notifier *)

(** [post] is what [requests.post] and [raise_for_status] do when they are
    reached: [None] when both return. *)
Definition send_telegram_message (cfg : config) (post : option exn) (message : string)
  : M bool :=
  update (add_call (Send message));;
  try_except
    (if String.eqb (BOT_TOKEN cfg) "TU_BOT_TOKEN_AQUI"
        || String.eqb (CHAT_ID cfg) "TU_CHAT_ID_AQUI"
     then
       logger WARNING "Telegram no configurado correctamente. Mensaje no enviado.";;
       logger INFO ("Mensaje que se habría enviado: " +:+ message);;
       mret false
     else
       match post with
       | Some e => raise e
       | None =>
           logger INFO "Mensaje enviado por Telegram exitosamente";;
           mret true
       end)
    (fun e =>
       match e with
       | RequestException _ =>
           Some (logger ERROR ("Error enviando mensaje por Telegram: " +:+ exn_str e);;
                 mret false)
       | _ => None
       end).

(** *** Status fetcher *)

Definition status_selectors : list selector :=
  [ {| sel_name := Some "span"; sel_classes := ["label"; "label-primary"]; sel_last_child := false |};
    {| sel_name := Some "span"; sel_classes := ["label"; "label-success"]; sel_last_child := false |};
    {| sel_name := Some "span"; sel_classes := ["label"; "label-warning"]; sel_last_child := false |};
    {| sel_name := Some "span"; sel_classes := ["label"; "label-danger"]; sel_last_child := false |};
    {| sel_name := Some "span"; sel_classes := ["label"]; sel_last_child := false |};
    {| sel_name := None; sel_classes := ["status"]; sel_last_child := false |};
    {| sel_name := Some "td"; sel_classes := []; sel_last_child := true |} ].

(** [current_status and current_status.lower() not in ['', 'n/a', '-']] *)
Definition usable (current_status : string) : bool :=
  Py.nonempty current_status
  && negb (Py.member (Py.lower current_status) [EmptyString; "n/a"; "-"]).

(** [for selector in status_selectors: ...] on one row *)
Fixpoint selected_status (selectors : list selector) (row : node) : option string :=
  match selectors with
  | [] => None
  | sel :: rest =>
      match select_one sel row with
      | Some status_element =>
          let current_status := get_text status_element in
          if usable current_status then Some current_status
          else selected_status rest row
      | None => selected_status rest row
      end
  end.

(** [cells[-1].get_text(strip=True)], when there are cells and it is not
    empty. *)
Definition last_cell_status (row : node) : option string :=
  match last (find_all "td" row) with
  | Some cell =>
      let last_cell := get_text cell in
      if Py.nonempty last_cell then Some last_cell else None
  | None => None
  end.

(** What the body of [if COUNTRY in row_text:] returns; [None] when it
    falls out of the [if] without returning. *)
Definition row_status (row : node) : option string :=
  match selected_status status_selectors row with
  | Some s => Some s
  | None => last_cell_status row
  end.

(** [for row in rows: ...] *)
Fixpoint scan_rows (country : string) (rows : list node) : option string :=
  match rows with
  | [] => None
  | row :: rest =>
      if Py.contains country (get_text row) then
        match row_status row with
        | Some s => Some s
        | None => scan_rows country rest
        end
      else scan_rows country rest
  end.

(** [page] is what [requests.get], [raise_for_status] and [BeautifulSoup]
    give: an exception or the parsed document.  The records of
    [logger.debug] are dropped by the configured level and are left out of
    the scan of the rows. *)
Definition get_visa_status (cfg : config) (page : exn + node) : M (option string) :=
  try_except
    (match page with
     | inl e => raise e
     | inr soup =>
         match scan_rows (COUNTRY cfg) (find_all "tr" soup) with
         | Some current_status => mret (Some current_status)
         | None =>
             logger WARNING ("No se encontró información para " +:+ COUNTRY cfg);;
             mret None
         end
     end)
    (fun e =>
       match e with
       | RequestException _ =>
           Some (logger ERROR ("Error de conexión: " +:+ exn_str e);; mret None)
       | Exception _ =>
           Some (logger ERROR ("Error procesando página web: " +:+ exn_str e);; mret None)
       | KeyboardInterrupt => None
       end).

(** *** Start-up checks *)

Fixpoint warn_each (issues : list string) : M unit :=
  match issues with
  | [] => mret tt
  | issue :: rest => logger WARNING issue;; warn_each rest
  end.

Definition validate_config (cfg : config) : M unit :=
  let issues :=
    (if String.eqb (BOT_TOKEN cfg) "TU_BOT_TOKEN_AQUI" then ["- BOT_TOKEN no configurado"] else [])
    ++ (if String.eqb (CHAT_ID cfg) "TU_CHAT_ID_AQUI" then ["- CHAT_ID no configurado"] else []) in
  match issues with
  | [] => mret tt
  | _ =>
      logger WARNING "Problemas de configuración detectados:";;
      warn_each issues;;
      logger WARNING "El script funcionará pero no enviará notificaciones por Telegram"
  end;;
  logger INFO "Configuración:";;
  logger INFO ("- País monitoreado: " +:+ COUNTRY cfg);;
  logger INFO ("- Intervalo de verificación: " +:+ Py.str_of_int (CHECK_INTERVAL cfg) +:+ " segundos");;
  logger INFO ("- Archivo de estado: " +:+ STATE_FILE cfg);;
  logger INFO ("- Archivo de log: " +:+ LOG_FILE cfg).

(** *** Monitor loop *)

(** What one pass of the loop meets outside the program. *)
Record tick := {
  now : string;          (* datetime.now().strftime("%Y-%m-%d %H:%M:%S") *)
  page : exn + node;     (* the fetch of URL and its parse *)
  post : option exn;     (* the Telegram request, if one is made *)
  disk : write_outcome;  (* the write of the state file, if one is made *)
  nap : option exn       (* time.sleep after the pass, given an acceptable length *)
}.

Inductive control := Continue | Break.

(** [time.sleep(secs)]: a negative length is refused with [ValueError];
    otherwise [nap] tells whether the sleep ends by itself or is cut short by
    an exception (an interrupt, a length the platform cannot represent). *)
Definition sleep (secs : Z) (nap : option exn) : M unit :=
  if (secs <? 0)%Z then raise (Exception "sleep length must be non-negative")
  else match nap with
       | Some e => raise e
       | None => mret tt
       end.

Definition max_consecutive_errors : Z := 5.

(** [previous_status is None] *)
Definition is_None (v : json) : bool :=
  match v with JNull => true | _ => false end.

(** [current_status != previous_status], the left operand being a [str] *)
Definition differs (current_status : string) (previous : json) : bool :=
  match previous with
  | JString p => negb (String.eqb current_status p)
  | _ => true
  end.

Section Monitor.

(** [str(v)] and [bool(v)] of a decoded JSON value that is neither [None]
    nor a [str]: the built-ins are taken as given. *)
Variable py_str : json -> string.
Variable py_bool : json -> bool.

Definition str (v : json) : string :=
  match v with
  | JString s => s
  | JNull => "None"
  | _ => py_str v
  end.

Definition truthy (v : json) : bool :=
  match v with
  | JString s => Py.nonempty s
  | JNull => false
  | _ => py_bool v
  end.

Definition error_msg (errors : Z) (previous : json) : string :=
  "🚨 <b>Error crítico</b>" +:+ Py.newline +:+ Py.newline
  +:+ "No se ha podido verificar el estado de las visas durante "
  +:+ Py.str_of_int errors +:+ " intentos consecutivos." +:+ Py.newline +:+ Py.newline
  +:+ "Último estado conocido: "
  +:+ (if truthy previous then str previous else "Desconocido").

Definition start_message (cfg : config) (current_status : string) : string :=
  "🤖 <b>Monitor iniciado</b>" +:+ Py.newline +:+ Py.newline
  +:+ "País: " +:+ COUNTRY cfg +:+ Py.newline
  +:+ "Estado actual: <b>" +:+ current_status +:+ "</b>" +:+ Py.newline +:+ Py.newline
  +:+ "Monitoreando cambios cada " +:+ Py.str_of_int (CHECK_INTERVAL cfg / 60)
  +:+ " minutos...".

Definition change_message (cfg : config) (previous : json) (current_status timestamp : string)
  : string :=
  "🔄 <b>¡Cambio detectado!</b>" +:+ Py.newline +:+ Py.newline
  +:+ "País: " +:+ COUNTRY cfg +:+ Py.newline
  +:+ "Estado anterior: " +:+ str previous +:+ Py.newline
  +:+ "Estado nuevo: <b>" +:+ current_status +:+ "</b>" +:+ Py.newline +:+ Py.newline
  +:+ "Fecha: " +:+ timestamp.

(** The body of [try:] in the loop. *)
Definition attempt (cfg : config) (t : tick) : M unit :=
  let timestamp := now t in
  logger INFO ("Verificando estado... (" +:+ timestamp +:+ ")");;
  current_status ← get_visa_status cfg (page t);
  match current_status with
  | None =>
      update (fun m => set_consecutive_errors (consecutive_errors m + 1) m);;
      errors ← read consecutive_errors;
      logger ERROR ("No se pudo obtener el estado (" +:+ Py.str_of_int errors +:+ "/"
                    +:+ Py.str_of_int max_consecutive_errors +:+ ")");;
      if (max_consecutive_errors <=? errors)%Z then
        previous ← read previous_status;
        send_telegram_message cfg (post t) (error_msg errors previous);;
        update (set_consecutive_errors 0)
      else mret tt
  | Some current_status =>
      update (set_consecutive_errors 0);;
      logger INFO ("Estado actual: " +:+ current_status);;
      previous ← read previous_status;
      if differs current_status previous then
        message ← (if is_None previous then
                     logger INFO "Primera ejecución - enviando estado inicial";;
                     mret (start_message cfg current_status)
                   else
                     logger INFO ("¡CAMBIO DETECTADO! " +:+ str previous +:+ " → "
                                  +:+ current_status);;
                     mret (change_message cfg previous current_status timestamp));
        send_telegram_message cfg (post t) message;;
        update (set_previous_status (JString current_status));;
        save_state cfg (disk t) current_status timestamp
      else
        logger INFO "Sin cambios detectados";;
        save_state cfg (disk t) current_status timestamp
  end.

(** One pass: the [try] statement with its two [except] clauses. *)
Definition iteration (cfg : config) (t : tick) : M control :=
  try_except
    (attempt cfg t;; mret Continue)
    (fun e =>
       match e with
       | KeyboardInterrupt =>
           Some (logger INFO "Deteniendo el monitor por solicitud del usuario...";;
                 mret Break)
       | _ =>
           Some (logger ERROR ("Error inesperado: " +:+ exn_str e);;
                 update (fun m => set_consecutive_errors (consecutive_errors m + 1) m);;
                 mret Continue)
       end).

(** [while True:] over the passes the process lives to make.  An
    exception of [time.sleep] is outside the [try] and ends [main]. *)
Fixpoint loop (cfg : config) (ticks : list tick) : M unit :=
  match ticks with
  | [] => mret tt
  | t :: rest =>
      c ← iteration cfg t;
      match c with
      | Break => mret tt
      | Continue =>
          logger INFO ("Esperando " +:+ Py.str_of_int (CHECK_INTERVAL cfg)
                       +:+ " segundos hasta la próxima verificación...");;
          sleep (CHECK_INTERVAL cfg) (nap t);;
          loop cfg rest
      end
  end.

(** [main()] up to the loop. *)
Definition startup (cfg : config) : M unit :=
  logger INFO "=== Iniciando Monitor de Visas Working Holiday ===";;
  validate_config cfg;;
  loaded ← load_previous_state;
  (if truthy (fst loaded)
   then logger INFO ("Estado anterior cargado: " +:+ str (fst loaded)
                     +:+ " (última verificación: " +:+ str (snd loaded) +:+ ")")
   else logger INFO "No se encontró estado anterior, iniciando monitoreo fresh");;
  update (set_previous_status (fst loaded));;
  update (set_consecutive_errors 0).

Definition main (cfg : config) (ticks : list tick) : M unit :=
  startup cfg;; loop cfg ticks.

(** [message] as the branch on [previous_status is None] assigns it. *)
Definition news (cfg : config) (previous : json) (current_status timestamp : string)
  : string :=
  if is_None previous then start_message cfg current_status
  else change_message cfg previous current_status timestamp.

End Monitor.

(** The process before [main] runs: nothing logged, nothing called, the
    state file as found. *)
Definition boot (f : file) : machine :=
  {| previous_status := JNull; consecutive_errors := 0; state_file := f;
     log := []; calls := [] |}.

(** ** Notions used in the statements *)

(** The first row, in document order, whose text contains the country. *)
Definition country_row (country : string) (soup : node) : option node :=
  find (fun row => Py.contains country (get_text row)) (find_all "tr" soup).

Definition has_status (row : node) : bool :=
  match row_status row with Some _ => true | None => false end.

(** Sample pages. *)
Definition td (text : string) : node := Tag "td" [] [NavigableString text].
Definition th (text : string) : node := Tag "th" [] [NavigableString text].
Definition tr (cells : list node) : node := Tag "tr" [] cells.
Definition page_of (rows : list node) : node :=
  Tag "[document]" [] [Tag "html" [] [Tag "body" [] [Tag "table" [] [Tag "tbody" [] rows]]]].

Definition heading_row : node := tr [th "Country (Spain, Italy, ...)"; th "Status"].
Definition page_with_heading : node :=
  page_of [heading_row; tr [td "Italy"; td "Closed"]; tr [td "Spain"; td "Open"]].
Definition page_with_dash : node :=
  page_of [tr [td "Country"; td "Status"]; tr [td "Spain"; td "-"]].

Definition spain : config :=
  {| BOT_TOKEN := "123456:token"; CHAT_ID := "4242"; CHECK_INTERVAL := 300;
     COUNTRY := "Spain"; SCRIPT_DIR := "/srv/visa" |}.

Definition spain_environ : gmap string string :=
  <["TELEGRAM_BOT_TOKEN" := "123456:token"]>
    (<["TELEGRAM_CHAT_ID" := "4242"]> (<["CHECK_INTERVAL" := " 300"]> ∅)).

(** The fetch of this pass returns [r]. *)
Definition fetch_returns (cfg : config) (t : tick) (r : option string) : Prop :=
  forall m, fst (get_visa_status cfg (page t) m) = Ret r.

(** The notifier, if called in this pass, returns [b]. *)
Definition send_returns (cfg : config) (t : tick) (b : bool) : Prop :=
  forall message m, fst (send_telegram_message cfg (post t) message m) = Ret b.

(** The notifier, if called in this pass, lets the exception [e] out. *)
Definition send_raises (cfg : config) (t : tick) (e : exn) : Prop :=
  forall message m, fst (send_telegram_message cfg (post t) message m) = Raise e.

(** The state file after a write of [text] with outcome [w]. *)
Definition stored (w : write_outcome) (text : string) (before : file) : file :=
  match w with
  | Written => Content text
  | OpenFailed => before
  | Cut kept => Content (String.substring 0 kept text)
  end.

(** A rest that begins with white space or with one of the characters that
    may follow a value inside an array or an object. *)
Definition delimited (s : string) : bool :=
  match s with
  | String c _ =>
      is_ws c || (Py.code c =? 44)%nat || (Py.code c =? 93)%nat || (Py.code c =? 125)%nat
  | EmptyString => false
  end.

(** What the extension of the input may not disturb: a number has to be
    followed by something that ends it. *)
Definition ended (v : json) (rest : string) : Prop :=
  match v with
  | JNumber _ => delimited rest = true
  | _ => True
  end.

(** What [load_previous_state] returns for a state file. *)
Definition loaded (f : file) : json * json :=
  match f with
  | Content text =>
      match loads text with
      | Some (JObject data) => (Json.get "status" data, Json.get "last_check" data)
      | _ => (JNull, JNull)
      end
  | _ => (JNull, JNull)
  end.

(** The invariant of the persisted state: a status comes with the time of
    its last check. *)
Definition consistent (f : file) : Prop :=
  fst (loaded f) <> JNull -> snd (loaded f) <> JNull.

Definition add_logs (lines : list (level * string)) (m : machine) : machine :=
  fold_left (fun m l => add_log l m) lines m.

(** The sleep after this pass ends by itself. *)
Definition sleeps (cfg : config) (t : tick) : Prop :=
  (0 <= CHECK_INTERVAL cfg)%Z /\ nap t = None.

(** The notifier, if called in this pass, returns. *)
Definition send_completes (cfg : config) (t : tick) : Prop :=
  exists b, send_returns cfg t b.

(** A machine without its log. *)
Definition core (m : machine) : json * Z * file * list call :=
  (previous_status m, consecutive_errors m, state_file m, calls m).

(** Stand-ins for [str] and [bool] of decoded values other than [None] and
    [str], for sample runs in which no such value occurs. *)
Definition no_str (v : json) : string := "?".
Definition no_bool (v : json) : bool := true.

(** Sample passes. *)
Definition at_noon (p : exn + node) (q : option exn) : tick :=
  {| now := "2024-05-01 12:00:00"; page := p; post := q; disk := Written; nap := None |}.

Definition timed_out : tick := at_noon (inl (RequestException "timed out")) None.
Definition timed_out_alert_crashes : tick :=
  at_noon (inl (RequestException "timed out")) (Some (Exception "UnicodeEncodeError")).

(** A state file whose status holds a lone surrogate, written as an escape:
    a text that [requests] cannot encode into the query of a request. *)
Definition surrogate_file : file :=
  Content ("{" +:+ Py.dquote +:+ "status" +:+ Py.dquote +:+ ": "
           +:+ Py.dquote +:+ "Open\ud800" +:+ Py.dquote +:+ "}").
Definition open_page : node := page_of [tr [td "Spain"; td "Open"]].
Definition closed_page : node := page_of [tr [td "Spain"; td "Closed"]].

(** A call that reports no first or changed status: a save of [S], or a
    critical alert whose last known status is [S]. *)
Definition quiet (py_str : json -> string) (py_bool : json -> bool) (S : string) (c : call)
  : Prop :=
  match c with
  | Save status _ => status = S
  | Send message => exists n, message = error_msg py_str py_bool n (JString S)
  end.

(** The line logged before [time.sleep]. *)
Definition waiting (cfg : config) : level * string :=
  (INFO, "Esperando " +:+ Py.str_of_int (CHECK_INTERVAL cfg)
         +:+ " segundos hasta la próxima verificación...").

Definition spain_unset : config :=
  {| BOT_TOKEN := "TU_BOT_TOKEN_AQUI"; CHAT_ID := "TU_CHAT_ID_AQUI"; CHECK_INTERVAL := 300;
     COUNTRY := "Spain"; SCRIPT_DIR := "/srv/visa" |}.

Definition open_now : tick := at_noon (inr open_page) None.

(** ** Notions used in the further properties *)

(** The test [send_telegram_message] makes before it builds a request: a
    credential is still its placeholder. *)
Definition unconfigured (cfg : config) : bool :=
  String.eqb (BOT_TOKEN cfg) "TU_BOT_TOKEN_AQUI" || String.eqb (CHAT_ID cfg) "TU_CHAT_ID_AQUI".

Definition is_warning (l : level * string) : bool :=
  match fst l with WARNING => true | _ => false end.

(** The number of records at level WARNING. *)
Definition warnings (lines : list (level * string)) : nat :=
  length (List.filter is_warning lines).

(** Further sample data.  A row whose status is a success label, followed
    by a cell of remarks. *)
Definition label_success : selector :=
  {| sel_name := Some "span"; sel_classes := ["label"; "label-success"];
     sel_last_child := false |}.

Definition open_label : node :=
  Tag "span" ["label"; "label-success"] [NavigableString " Open "].

Definition labelled_row : node :=
  tr [td "Spain"; Tag "td" [] [open_label]; td "see the notes"].

Definition labelled_page : node := page_of [labelled_row].

Definition zealand : config :=
  {| BOT_TOKEN := "123456:token"; CHAT_ID := "4242"; CHECK_INTERVAL := 300;
     COUNTRY := "Zealand"; SCRIPT_DIR := "/srv/visa" |}.

Definition zealand_page : node := page_of [tr [td "New Zealand"; td "Open"]].

(** CHECK_INTERVAL=-5 in the environment. *)
Definition hurried : config :=
  {| BOT_TOKEN := "123456:token"; CHAT_ID := "4242"; CHECK_INTERVAL := -5;
     COUNTRY := "Spain"; SCRIPT_DIR := "/srv/visa" |}.

Definition interrupted : tick := at_noon (inl KeyboardInterrupt) None.

(** Credentials that are set, one of them to the empty string. *)
Definition blank_token_environ : gmap string string :=
  <["TELEGRAM_BOT_TOKEN" := EmptyString]> (<["TELEGRAM_CHAT_ID" := "4242"]> ∅).

(** The same pass with another outcome of the Telegram request. *)
Definition with_post (q : option exn) (t : tick) : tick :=
  {| now := now t; page := page t; post := q; disk := disk t; nap := nap t |}.

(** The calls a run of successful fetches is expected to make, given the
    status remembered before it and, pass by pass, the status fetched and
    the timestamp: a notification where the status is not the one before
    it, and a save in every pass. *)
Fixpoint reports (py_str : json -> string) (cfg : config) (previous : json)
    (run : list (string * string)) : list call :=
  match run with
  | [] => []
  | (status, timestamp) :: rest =>
      (if differs status previous
       then [Send (news py_str cfg previous status timestamp)] else [])
      ++ Save status timestamp :: reports py_str cfg (JString status) rest
  end.

(** The texts the selector loop passes over: the empty one, [-], and [n/a]
    in any mix of cases. *)
Definition unusable_texts : list string := [EmptyString; "-"; "n/a"; "N/a"; "n/A"; "N/A"].

(** A row whose label says N/A and whose last cell says Open. *)
Definition na_label : node := Tag "span" ["label"] [NavigableString "N/A"].
Definition na_row : node := tr [td "Spain"; Tag "td" [] [na_label]; td "Open"].
Definition page_with_na : node := page_of [na_row].

(** ** The writes of [json.dump] through the text layer of the file *)

(** The chunks that [json.dump(data, f, ensure_ascii=False, indent=2)] hands
    to [f.write], one call for each, for a [dict] whose values are [str]
    ([_iterencode_dict]). *)
Definition item_chunks (kv : string * string) : list string :=
  [encode_string (fst kv); ": "; encode_string (snd kv)].

Definition dump_chunks (data : list (string * string)) : list string :=
  match data with
  | [] => ["{}"]
  | first :: rest =>
      ["{"; Py.newline +:+ "  "] ++ item_chunks first
      ++ flat_map (fun kv => ("," +:+ Py.newline +:+ "  ") :: item_chunks kv) rest
      ++ [Py.newline; "}"]
  end.

(** The second byte of a surrogate, U+D800..U+DFFF, follows the byte ED. *)
Definition continues_surrogate (r : string) : bool :=
  match r with
  | String b _ => Py.between 160 191 (Py.code b)
  | EmptyString => false
  end.

(** [s.encode('utf-8')] does not raise: [s] holds no surrogate. *)
Fixpoint encodable (s : string) : bool :=
  match s with
  | EmptyString => true
  | String a r => negb ((Py.code a =? 237)%nat && continues_surrogate r) && encodable r
  end.

(** [f.write(chunk)] for each chunk, on a file opened with
    [encoding='utf-8'], and the close that ends the [with] block: a chunk
    that holds a surrogate is refused as a whole, with [UnicodeEncodeError],
    and what was written before it is kept.  The result is the text that
    reaches a file whose disk does not fail, and whether that is all of
    it. *)
Fixpoint write_chunks (chunks : list string) : string * bool :=
  match chunks with
  | [] => (EmptyString, true)
  | chunk :: rest =>
      if encodable chunk
      then let (text, complete) := write_chunks rest in (chunk +:+ text, complete)
      else (EmptyString, false)
  end.

(** What becomes of the writes of [json.dump] on a disk that does not
    fail. *)
Definition utf8_outcome (chunks : list string) : write_outcome :=
  let (text, complete) := write_chunks chunks in
  if complete then Written else Cut (String.length text).

(** A status with a lone surrogate, U+D800, as [json.load] reads it from
    the escape [\ud800]. *)
Definition surrogate_status : string :=
  "Open" +:+ Py.chr 237 +:+ Py.chr 160 +:+ Py.chr 128.

(** The page says Open; the Telegram request raises an exception that is no
    [RequestException], or is interrupted. *)
Definition notification_crashes : tick :=
  at_noon (inr open_page) (Some (Exception "UnicodeEncodeError")).

Definition notification_interrupted : tick :=
  at_noon (inr open_page) (Some KeyboardInterrupt).

(** * Properties *)

(** ** The primitives on examples *)

Example strip_ex : Py.strip ("  Open " +:+ Py.newline) = "Open".
Proof. reflexivity. Qed.

Example strip_nbsp : Py.strip (Py.chr 194 +:+ Py.chr 160 +:+ "Open" +:+ Py.chr 194 +:+ Py.chr 160) = "Open".
Proof. reflexivity. Qed.

Example lower_ex : Py.lower "N/A" = "n/a".
Proof. reflexivity. Qed.

Example contains_ex : Py.contains "Zealand" "New Zealand" = true /\ Py.contains "spain" "Spain" = false.
Proof. split; reflexivity. Qed.

Example int_ex :
  Py.int " 300 " = Some 300%Z /\ Py.int "-1_000" = Some (-1000)%Z
  /\ Py.int "5m" = None /\ Py.int "1__0" = None /\ Py.int "" = None.
Proof. repeat split; reflexivity. Qed.

Example str_of_int_ex : Py.str_of_int (300 / 60) = "5" /\ Py.str_of_int (-5 / 60) = "-1".
Proof. split; reflexivity. Qed.

Example dumps_ex :
  Json.dumps [("status", "Open"); ("n", "a" +:+ Py.dquote +:+ "b")]
  = "{" +:+ Py.newline +:+ "  " +:+ Py.dquote +:+ "status" +:+ Py.dquote +:+ ": "
    +:+ Py.dquote +:+ "Open" +:+ Py.dquote +:+ "," +:+ Py.newline +:+ "  "
    +:+ Py.dquote +:+ "n" +:+ Py.dquote +:+ ": " +:+ Py.dquote +:+ "a\" +:+ Py.dquote
    +:+ "b" +:+ Py.dquote +:+ Py.newline +:+ "}".
Proof. reflexivity. Qed.

Example loads_ex1 :
  Json.loads (" {" +:+ Py.dquote +:+ "a" +:+ Py.dquote +:+ ": [1, -2.5e3, null, true], "
              +:+ Py.dquote +:+ "bé\n" +:+ Py.dquote +:+ " : {} } ")
  = Some (JObject [("a", JArray [JNumber "1"; JNumber "-2.5e3"; JNull; JBool true]);
                   ("b" +:+ Py.chr 195 +:+ Py.chr 169 +:+ Py.newline, JObject [])]).
Proof. reflexivity. Qed.

Example loads_ex2 :
  Json.loads "{" = None /\ Json.loads "[1,]" = None /\ Json.loads "01" = None
  /\ Json.loads "" = None /\ Json.loads "nul" = None /\ Json.loads "[1] x" = None.
Proof. repeat split; reflexivity. Qed.

Example get_ex :
  Json.get "a" [("a", JNull); ("b", JBool true); ("a", JString "x")] = JString "x"
  /\ Json.get "c" [("a", JNull)] = JNull.
Proof. split; reflexivity. Qed.

Example loads_ex3 :
  Json.loads (Py.dquote +:+ "🤖 é \ud800x" +:+ Py.dquote)
  = Some (JString ("🤖 é " +:+ Py.chr 237 +:+ Py.chr 160 +:+ Py.chr 128 +:+ "x")).
Proof. reflexivity. Qed.

(** ** The state file: encoding and decoding *)

#[local] Arguments String.append !_ _ /.

Lemma append_assoc (a b c : string) : (a +:+ b) +:+ c = a +:+ (b +:+ c).
Proof. induction a as [|x a IH]; simpl; [reflexivity | now rewrite IH]. Qed.

Lemma scan_escape c tail :
  scanstring None (escape c +:+ tail) = emit (String c EmptyString) (scanstring None tail).
Proof. destruct c as [[] [] [] [] [] [] [] []]; reflexivity. Qed.

Lemma scanstring_escape_all s rest :
  scanstring None (escape_all s +:+ Py.dquote +:+ rest) = Some (s, rest).
Proof.
  induction s as [|c s IH].
  - reflexivity.
  - cbn [escape_all]. rewrite append_assoc, scan_escape, IH. reflexivity.
Qed.

Lemma scan_once_encoded fuel s rest :
  scan_once (S fuel) (encode_string s +:+ rest) = Some (JString s, rest).
Proof.
  unfold encode_string. rewrite !append_assoc.
  change (scan_once (S fuel) (Py.dquote +:+ ?x))
    with (match scanstring None x with
          | Some (str, r) => Some (JString str, r)
          | None => None
          end).
  now rewrite scanstring_escape_all.
Qed.

Lemma members_encoded fuel acc k v rest :
  members (S (S fuel)) acc (encode_item (k, v) +:+ rest)
  = match skip_ws rest with
    | String d r4 =>
        if (Py.code d =? 125)%nat then Some (JObject (rev ((k, JString v) :: acc)), r4)
        else if (Py.code d =? 44)%nat
             then members (S fuel) ((k, JString v) :: acc) (skip_ws r4)
             else None
    | EmptyString => None
    end.
Proof.
  unfold encode_item. cbn [fst snd]. rewrite !append_assoc.
  unfold encode_string at 1. rewrite !append_assoc.
  change (members (S (S fuel)) acc (Py.dquote +:+ ?x))
    with (match scanstring None x with
          | None => None
          | Some (key, r1) =>
              match skip_ws r1 with
              | EmptyString => None
              | String c r2 =>
                  if negb (Py.code c =? 58)%nat then None
                  else
                    match scan_once (S fuel) (skip_ws r2) with
                    | None => None
                    | Some (v, r3) =>
                        match skip_ws r3 with
                        | String d r4 =>
                            if (Py.code d =? 125)%nat
                            then Some (JObject (rev ((key, v) :: acc)), r4)
                            else if (Py.code d =? 44)%nat
                            then members (S fuel) ((key, v) :: acc) (skip_ws r4)
                            else None
                        | EmptyString => None
                        end
                    end
              end
          end).
  rewrite scanstring_escape_all.
  change (skip_ws (": " +:+ ?x)) with (String ":" (String " " x)).
  cbv beta iota.
  change (negb (Py.code ":" =? 58)%nat) with false. cbv iota.
  change (skip_ws (String " " (encode_string v +:+ rest))) with (encode_string v +:+ rest).
  now rewrite scan_once_encoded.
Qed.

Lemma dumps_state_record s t c :
  dumps (state_record s t c)
  = "{" +:+ Py.newline +:+ "  " +:+ encode_item ("status", s) +:+ "," +:+ Py.newline +:+ "  "
    +:+ encode_item ("last_check", t) +:+ "," +:+ Py.newline +:+ "  "
    +:+ encode_item ("country", c) +:+ Py.newline +:+ "}".
Proof.
  unfold dumps, state_record. cbn [map join]. now rewrite !append_assoc.
Qed.

Lemma length_append (a b : string) :
  String.length (a +:+ b) = String.length a + String.length b.
Proof. induction a as [|x a IH]; simpl; [reflexivity | now rewrite IH]. Qed.

Lemma scan_once_record n s t c :
  scan_once (5 + n) (dumps (state_record s t c))
  = Some (JObject [("status", JString s); ("last_check", JString t); ("country", JString c)],
          EmptyString).
Proof.
  rewrite dumps_state_record.
  change (scan_once (5 + n) ("{" +:+ Py.newline +:+ "  " +:+ ?x))
    with (match skip_ws (Py.newline +:+ "  " +:+ x) with
          | String c1 r1 =>
              if (Py.code c1 =? 125)%nat then Some (JObject [], r1)
              else members (4 + n) [] (String c1 r1)
          | EmptyString => None
          end).
  change (skip_ws (Py.newline +:+ "  " +:+ encode_item ("status", s) +:+ ?x))
    with (encode_item ("status", s) +:+ x).
  change (encode_item ("status", s) +:+ ?x)
    with (String (ascii_of_nat 34) (escape_all "status" +:+ Py.dquote +:+ ": " +:+ encode_string s +:+ x)) at 1.
  cbv iota. change (Py.code (ascii_of_nat 34) =? 125)%nat with false. cbv iota.
  change (String (ascii_of_nat 34) (escape_all "status" +:+ Py.dquote +:+ ": " +:+ encode_string s +:+ ?x))
    with (encode_item ("status", s) +:+ x).
  change (4 + n) with (S (S (2 + n))).
  rewrite members_encoded.
  change (skip_ws ("," +:+ ?x)) with (String "," x). cbv iota.
  change (Py.code "," =? 125)%nat with false. change (Py.code "," =? 44)%nat with true. cbv iota.
  change (skip_ws (Py.newline +:+ "  " +:+ encode_item ("last_check", t) +:+ ?x))
    with (encode_item ("last_check", t) +:+ x).
  change (S (2 + n)) with (S (S (1 + n))).
  rewrite members_encoded.
  change (skip_ws ("," +:+ ?x)) with (String "," x). cbv iota.
  change (Py.code "," =? 125)%nat with false. change (Py.code "," =? 44)%nat with true. cbv iota.
  change (skip_ws (Py.newline +:+ "  " +:+ encode_item ("country", c) +:+ ?x))
    with (encode_item ("country", c) +:+ x).
  change (S (1 + n)) with (S (S n)).
  rewrite members_encoded.
  reflexivity.
Qed.

Lemma loads_dumps_state_record s t c :
  loads (dumps (state_record s t c))
  = Some (JObject [("status", JString s); ("last_check", JString t); ("country", JString c)]).
Proof.
  unfold loads.
  assert (Hws : skip_ws (dumps (state_record s t c)) = dumps (state_record s t c))
    by (rewrite dumps_state_record; reflexivity).
  assert (Hlen : 4 <= String.length (dumps (state_record s t c)))
    by (rewrite dumps_state_record, !length_append; simpl; lia).
  rewrite Hws.
  destruct (String.length (dumps (state_record s t c))) as [|[|[|[|n]]]]; try lia.
  change (S (S (S (S (S n))))) with (5 + n).
  now rewrite scan_once_record.
Qed.

Ltac run := unfold save_state, load_previous_state, send_telegram_message, get_visa_status,
  write_state_file, try_except, logger, update, read, raise, mbind, M_bind, mret, M_ret in *;
  cbn [is_debug is_Exception fst snd state_file previous_status consecutive_errors log calls
       set_state_file set_previous_status set_consecutive_errors add_log add_call] in *.

Lemma save_written cfg status timestamp m :
  save_state cfg Written status timestamp m
  = (Ret tt, set_state_file (Content (dumps (state_record status timestamp (COUNTRY cfg))))
               (add_call (Save status timestamp) m)).
Proof. reflexivity. Qed.

Lemma load_content text m :
  state_file m = Content text ->
  load_previous_state m =
  match loads text with
  | Some (JObject data) => (Ret (Json.get "status" data, Json.get "last_check" data), m)
  | Some _ => (Ret (JNull, JNull), add_log (ERROR, "Error cargando estado anterior: AttributeError") m)
  | None => (Ret (JNull, JNull), add_log (ERROR, "Error cargando estado anterior: JSONDecodeError") m)
  end.
Proof.
  intros H. run. rewrite H. destruct (loads text) as [[]|]; reflexivity.
Qed.

Lemma save_returns cfg w status timestamp m :
  fst (save_state cfg w status timestamp m) = Ret tt.
Proof. destruct w; reflexivity. Qed.

Lemma load_returns m : exists r, fst (load_previous_state m) = Ret r.
Proof.
  run. destruct (state_file m) as [| |text]; cbn; eauto.
  destruct (loads text) as [[]|]; cbn; eauto.
Qed.

(** C7.  [load_previous_state()] never raises, whatever the state file is.
    A missing file gives [(None, None)] with nothing logged; an unreadable
    file, a text that is not JSON and a JSON text that is not an object give
    [(None, None)] and one ERROR record in the log.  Nothing else of the
    machine changes. *)
Theorem load_never_raises (m : machine) :
  (exists r, fst (load_previous_state m) = Ret r)
  /\ (state_file m = Absent -> load_previous_state m = (Ret (JNull, JNull), m))
  /\ (state_file m = Unreadable \/
      (exists text, state_file m = Content text
                    /\ forall data, loads text <> Some (JObject data)) ->
      exists line, load_previous_state m = (Ret (JNull, JNull), add_log (ERROR, line) m)).
Proof.
  split; [apply load_returns|]. split.
  - intros H. run. now rewrite H.
  - intros [H | (text & H & Hbad)].
    + run. rewrite H. eauto.
    + rewrite (load_content text m H).
      destruct (loads text) as [[| | | | |data]|]; eauto.
      now destruct (Hbad data).
Qed.

(** A state file cut short in the middle of a write. *)
Lemma load_never_raises_witness :
  let m := set_state_file (Content ("{" +:+ Py.dquote +:+ "status" +:+ Py.dquote +:+ ": "))
                          (boot Absent) in
  exists line, load_previous_state m = (Ret (JNull, JNull), add_log (ERROR, line) m).
Proof.
  cbv zeta.
  apply (load_never_raises
           (set_state_file (Content ("{" +:+ Py.dquote +:+ "status" +:+ Py.dquote +:+ ": "))
                           (boot Absent))).
  right. eexists. split; [reflexivity|]. intros data. vm_compute. discriminate.
Defined.

(** ** Status fetcher *)

Lemma get_visa_status_page cfg soup m :
  fst (get_visa_status cfg (inr soup) m)
  = Ret (scan_rows (COUNTRY cfg) (find_all "tr" soup)).
Proof. run. now destruct (scan_rows (COUNTRY cfg) (find_all "tr" soup)). Qed.

Lemma scan_rows_find country rows :
  scan_rows country rows
  = match find (fun row => Py.contains country (get_text row) && has_status row) rows with
    | Some row => row_status row
    | None => None
    end.
Proof.
  induction rows as [|row rows IH]; [reflexivity|].
  cbn [scan_rows find]. unfold has_status at 1.
  destruct (Py.contains country (get_text row)); cbn [andb]; [|exact IH].
  destruct (row_status row) eqn:Hrow; [now rewrite Hrow | exact IH].
Qed.

Lemma scan_rows_first country rows row s :
  find (fun r => Py.contains country (get_text r)) rows = Some row ->
  row_status row = Some s ->
  scan_rows country rows = Some s.
Proof.
  induction rows as [|r rows IH]; [discriminate|].
  cbn [scan_rows find]. destruct (Py.contains country (get_text r)).
  - intros [= ->] ->. reflexivity.
  - exact IH.
Qed.

Lemma scan_rows_no_row country rows :
  find (fun r => Py.contains country (get_text r)) rows = None ->
  scan_rows country rows = None.
Proof.
  induction rows as [|r rows IH]; [reflexivity|].
  cbn [scan_rows find]. destruct (Py.contains country (get_text r)); [discriminate | exact IH].
Qed.

(** C2, as stated, fails: the first row that names the country is a heading
    row with no cell and no label; the fetch does not return [None] there,
    it goes on to the later row and returns its status. *)
Lemma later_row_is_examined :
  country_row "Spain" page_with_heading = Some heading_row
  /\ selected_status status_selectors heading_row = None
  /\ last_cell_status heading_row = None
  /\ fst (get_visa_status spain (inr page_with_heading) (boot Absent)) = Ret (Some "Open").
Proof. repeat split; vm_compute; reflexivity. Qed.

(** C2, amended.  The fetch goes through the table rows in document order
    and looks only at rows whose flattened text contains the country name
    (a plain, case-sensitive substring test).  In such a row the status is
    what the prioritized selectors give and, when they give no usable text,
    the text of the last cell if it is not empty.  The result is the status
    of the first such row that has one: when the first row naming the
    country has a status, that is the result; a row naming the country that
    has none is passed over and the later rows are examined; the result is
    [None] when no row naming the country has a status, in particular when
    no row names it. *)
Theorem fetch_takes_first_row_with_status (cfg : config) (soup : node) (m : machine) :
  fst (get_visa_status cfg (inr soup) m)
  = Ret (match find (fun row => Py.contains (COUNTRY cfg) (get_text row) && has_status row)
                    (find_all "tr" soup) with
         | Some row => row_status row
         | None => None
         end)
  /\ (forall row, row_status row
                  = match selected_status status_selectors row with
                    | Some s => Some s
                    | None => last_cell_status row
                    end)
  /\ (forall row s, country_row (COUNTRY cfg) soup = Some row -> row_status row = Some s ->
                    fst (get_visa_status cfg (inr soup) m) = Ret (Some s))
  /\ (country_row (COUNTRY cfg) soup = None ->
      fst (get_visa_status cfg (inr soup) m) = Ret None).
Proof.
  rewrite get_visa_status_page. repeat split.
  - now rewrite scan_rows_find.
  - intros row s Hrow Hs. now rewrite (scan_rows_first _ _ _ _ Hrow Hs).
  - intros Hrow. now rewrite (scan_rows_no_row _ _ Hrow).
Qed.

Lemma fetch_takes_first_row_with_status_witness :
  fst (get_visa_status spain (inr page_with_dash) (boot Absent)) = Ret (Some "-").
Proof.
  apply (fetch_takes_first_row_with_status spain page_with_dash (boot Absent))
    with (row := tr [td "Spain"; td "-"]); vm_compute; reflexivity.
Defined.

Lemma selected_status_source sels row s :
  selected_status sels row = Some s ->
  exists sel el, In sel sels /\ select_one sel row = Some el
                 /\ get_text el = s /\ usable s = true.
Proof.
  induction sels as [|sel sels IH]; [discriminate|].
  cbn [selected_status].
  destruct (select_one sel row) as [el|] eqn:Hsel.
  - destruct (usable (get_text el)) eqn:Hu.
    + intros [= <-]. exists sel, el. cbn. auto.
    + intros H. destruct (IH H) as (sel' & el' & Hin & Hrest).
      exists sel', el'. cbn. auto.
  - intros H. destruct (IH H) as (sel' & el' & Hin & Hrest).
    exists sel', el'. cbn. auto.
Qed.

Lemma usable_nonempty s : usable s = true -> s <> EmptyString.
Proof. intros H ->. discriminate. Qed.

Lemma last_cell_status_nonempty row s : last_cell_status row = Some s -> s <> EmptyString.
Proof.
  unfold last_cell_status. destruct (last (find_all "td" row)) as [cell|]; [|discriminate].
  destruct (get_text cell) eqn:Ht; cbn; [discriminate|]. now intros [= <-].
Qed.

Lemma row_status_nonempty row s : row_status row = Some s -> s <> EmptyString.
Proof.
  unfold row_status. destruct (selected_status status_selectors row) as [s'|] eqn:Hsel.
  - intros [= <-]. destruct (selected_status_source _ _ _ Hsel) as (_ & _ & _ & _ & _ & Hu).
    now apply usable_nonempty.
  - apply last_cell_status_nonempty.
Qed.

Lemma scan_rows_nonempty country rows s : scan_rows country rows = Some s -> s <> EmptyString.
Proof.
  rewrite scan_rows_find.
  destruct (find _ rows) as [row|]; [apply row_status_nonempty | discriminate].
Qed.

(** C5, as stated, fails: the row of the country has the cells [Spain] and
    [-]; the selector [td:last-child] finds [-] and skips it, and then the
    last-cell fallback, which only asks for a non-empty text, returns it. *)
Lemma dash_is_returned :
  fst (get_visa_status spain (inr page_with_dash) (boot Absent)) = Ret (Some "-")
  /\ usable "-" = false
  /\ selected_status status_selectors (tr [td "Spain"; td "-"]) = None
  /\ last_cell_status (tr [td "Spain"; td "-"]) = Some "-".
Proof. repeat split; vm_compute; reflexivity. Qed.

Lemma lower_char_n c : Py.lower_char c = "n"%char -> c = "n"%char \/ c = "N"%char.
Proof.
  destruct c as [[] [] [] [] [] [] [] []]; vm_compute; intros H;
    first [discriminate H | now left | now right].
Qed.

Lemma lower_char_a c : Py.lower_char c = "a"%char -> c = "a"%char \/ c = "A"%char.
Proof.
  destruct c as [[] [] [] [] [] [] [] []]; vm_compute; intros H;
    first [discriminate H | now left | now right].
Qed.

Lemma lower_char_slash c : Py.lower_char c = "/"%char -> c = "/"%char.
Proof.
  destruct c as [[] [] [] [] [] [] [] []]; vm_compute; intros H;
    first [discriminate H | reflexivity].
Qed.

Lemma lower_char_dash c : Py.lower_char c = "-"%char -> c = "-"%char.
Proof.
  destruct c as [[] [] [] [] [] [] [] []]; vm_compute; intros H;
    first [discriminate H | reflexivity].
Qed.

Lemma lower_empty s : Py.lower s = EmptyString -> s = EmptyString.
Proof. now destruct s. Qed.

Lemma lower_dash s : Py.lower s = "-" -> s = "-".
Proof.
  destruct s as [|c s]; [discriminate|]. cbn [Py.lower]. intros [= Hc Hs].
  apply lower_char_dash in Hc. apply lower_empty in Hs. now subst.
Qed.

Lemma lower_na s : Py.lower s = "n/a" -> In s ["n/a"; "N/a"; "n/A"; "N/A"].
Proof.
  destruct s as [|c1 [|c2 [|c3 s]]]; try discriminate. cbn [Py.lower].
  intros [= H1 H2 H3 Hs]. apply lower_empty in Hs. apply lower_char_slash in H2.
  apply lower_char_n in H1. apply lower_char_a in H3. subst s c2.
  destruct H1 as [-> | ->], H3 as [-> | ->]; cbn; tauto.
Qed.

(** The texts that are not usable, one by one. *)
Lemma usable_false_iff s : usable s = false <-> In s unusable_texts.
Proof.
  split.
  - unfold usable, Py.member. destruct s as [|c s]; [now left|].
    cbn [Py.nonempty andb existsb]. intros H. apply negb_false_iff in H.
    rewrite !orb_true_iff in H. destruct H as [H | [H | [H | H]]]; try discriminate.
    + apply String.eqb_eq, lower_na in H. cbn in *. tauto.
    + apply String.eqb_eq, lower_dash in H. rewrite H. cbn. tauto.
  - intros H. repeat (destruct H as [<- | H]; [reflexivity|]). destruct H.
Qed.

(** C5, amended.  The texts the prioritized selectors pass over are the
    empty text, [-] and [n/a] in any mix of upper and lower case, and no
    others: an element with such a text is skipped and the next selector is
    tried, and none of these texts is returned by the selector loop.  The
    last-cell fallback that follows the selectors returns any non-empty text
    of the last cell, [n/a] and [-] included; the fetch never returns the
    empty string.  When every usable text the selectors can find is that of
    the last cell, and the last cell is not empty, the status of the row is
    that cell's text. *)
Theorem unusable_text_is_skipped :
  (forall s, usable s = false <-> In s unusable_texts)
  /\ (forall sel rest row el,
         select_one sel row = Some el -> In (get_text el) unusable_texts ->
         selected_status (sel :: rest) row = selected_status rest row)
  /\ (forall sels row s, selected_status sels row = Some s -> ~ In s unusable_texts)
  /\ (forall sel rest row el,
         select_one sel row = Some el -> ~ In (get_text el) unusable_texts ->
         selected_status (sel :: rest) row = Some (get_text el))
  /\ (forall row, selected_status status_selectors row = None ->
                  row_status row = last_cell_status row)
  /\ (forall cfg soup m s,
         fst (get_visa_status cfg (inr soup) m) = Ret (Some s) -> s <> EmptyString)
  /\ (forall cfg soup m row cell,
         country_row (COUNTRY cfg) soup = Some row ->
         last (find_all "td" row) = Some cell ->
         get_text cell <> EmptyString ->
         (forall sel el, In sel status_selectors -> select_one sel row = Some el ->
                         ~ In (get_text el) unusable_texts -> get_text el = get_text cell) ->
         row_status row = Some (get_text cell)
         /\ fst (get_visa_status cfg (inr soup) m) = Ret (Some (get_text cell))).
Proof.
  assert (Htrue : forall s, usable s = true <-> ~ In s unusable_texts).
  { intros s. rewrite <- usable_false_iff. now destruct (usable s). }
  split; [|split; [|split; [|split; [|split; [|split]]]]].
  - exact usable_false_iff.
  - intros sel rest row el Hsel Hu. apply usable_false_iff in Hu.
    cbn [selected_status]. now rewrite Hsel, Hu.
  - intros sels row s H. apply Htrue.
    now destruct (selected_status_source _ _ _ H) as (_ & _ & _ & _ & _ & Hu).
  - intros sel rest row el Hsel Hu. apply Htrue in Hu.
    cbn [selected_status]. now rewrite Hsel, Hu.
  - intros row H. unfold row_status. now rewrite H.
  - intros cfg soup m s. rewrite get_visa_status_page. intros [= H].
    now apply scan_rows_nonempty in H.
  - intros cfg soup m row cell Hrow Hlast Hne Honly.
    assert (Hstatus : row_status row = Some (get_text cell)).
    { unfold row_status. destruct (selected_status status_selectors row) as [s|] eqn:Hsel.
      - destruct (selected_status_source _ _ _ Hsel) as (sel & el & Hin & Hone & <- & Hu).
        f_equal. apply (Honly sel el Hin Hone). now apply Htrue.
      - unfold last_cell_status. rewrite Hlast.
        destruct (get_text cell); [now destruct Hne | reflexivity]. }
    split; [exact Hstatus|].
    rewrite get_visa_status_page. now rewrite (scan_rows_first _ _ _ _ Hrow Hstatus).
Qed.

(** ** Configuration *)

Lemma send_unconfigured cfg post message m :
  String.eqb (BOT_TOKEN cfg) "TU_BOT_TOKEN_AQUI" || String.eqb (CHAT_ID cfg) "TU_CHAT_ID_AQUI" = true ->
  fst (send_telegram_message cfg post message m) = Ret false.
Proof. intros H. run. now rewrite H. Qed.

(** C8, as stated, fails: with the credentials in variables named BOT_TOKEN
    and CHAT_ID the program still runs with the placeholders, and its
    notifier refuses to send. *)
Lemma bot_token_variable_is_not_read :
  exists cfg,
    configuration (<["BOT_TOKEN" := "123456:token"]> (<["CHAT_ID" := "4242"]> ∅)) "/srv/visa"
    = Some cfg
    /\ BOT_TOKEN cfg = "TU_BOT_TOKEN_AQUI"
    /\ CHAT_ID cfg = "TU_CHAT_ID_AQUI"
    /\ fst (send_telegram_message cfg None "hola" (boot Absent)) = Ret false.
Proof. eexists. split; [vm_compute; reflexivity|]. repeat split. Qed.

(** C8, amended.  The configuration is computed once, before [main], from
    the environment: the credentials come from the variables
    TELEGRAM_BOT_TOKEN and TELEGRAM_CHAT_ID, with the placeholders
    TU_BOT_TOKEN_AQUI and TU_CHAT_ID_AQUI as defaults; CHECK_INTERVAL is read
    with [int], default 300; COUNTRY defaults to Spain.  Variables named
    BOT_TOKEN and CHAT_ID play no part.  A placeholder in either credential
    means unconfigured: the notifier returns false whatever the network
    would do. *)
Theorem configuration_reads_environment (environ : gmap string string) (dir : string) :
  (forall cfg, configuration environ dir = Some cfg ->
     BOT_TOKEN cfg = default "TU_BOT_TOKEN_AQUI" (environ !! "TELEGRAM_BOT_TOKEN")
     /\ CHAT_ID cfg = default "TU_CHAT_ID_AQUI" (environ !! "TELEGRAM_CHAT_ID")
     /\ Py.int (default "300" (environ !! "CHECK_INTERVAL")) = Some (CHECK_INTERVAL cfg)
     /\ COUNTRY cfg = default "Spain" (environ !! "COUNTRY"))
  /\ (configuration environ dir = None <->
      Py.int (default "300" (environ !! "CHECK_INTERVAL")) = None)
  /\ configuration ∅ dir
     = Some {| BOT_TOKEN := "TU_BOT_TOKEN_AQUI"; CHAT_ID := "TU_CHAT_ID_AQUI";
               CHECK_INTERVAL := 300; COUNTRY := "Spain"; SCRIPT_DIR := dir |}
  /\ (forall v, configuration (<["BOT_TOKEN" := v]> environ) dir = configuration environ dir)
  /\ (forall v, configuration (<["CHAT_ID" := v]> environ) dir = configuration environ dir)
  /\ (forall cfg post message m,
        BOT_TOKEN cfg = "TU_BOT_TOKEN_AQUI" \/ CHAT_ID cfg = "TU_CHAT_ID_AQUI" ->
        fst (send_telegram_message cfg post message m) = Ret false).
Proof.
  unfold configuration, environ_get.
  split; [|split; [|split; [|split; [|split]]]].
  - intros cfg. destruct (Py.int _); [|discriminate]. intros [= <-]. now cbn.
  - destruct (Py.int _); split; (discriminate || reflexivity).
  - reflexivity.
  - intros v. now rewrite !lookup_insert_ne by discriminate.
  - intros v. now rewrite !lookup_insert_ne by discriminate.
  - intros cfg post message m H. apply send_unconfigured.
    destruct H as [-> | ->]; [reflexivity|].
    now rewrite orb_true_r.
Qed.

Lemma configuration_reads_environment_witness :
  BOT_TOKEN spain = default "TU_BOT_TOKEN_AQUI" (spain_environ !! "TELEGRAM_BOT_TOKEN")
  /\ CHAT_ID spain = default "TU_CHAT_ID_AQUI" (spain_environ !! "TELEGRAM_CHAT_ID")
  /\ Py.int (default "300" (spain_environ !! "CHECK_INTERVAL")) = Some (CHECK_INTERVAL spain)
  /\ COUNTRY spain = default "Spain" (spain_environ !! "COUNTRY").
Proof.
  apply (configuration_reads_environment spain_environ "/srv/visa").
  vm_compute. reflexivity.
Defined.

(** ** The decoder on an extended or a shortened text *)

Lemma skip_ws_app p q : skip_ws p <> EmptyString -> skip_ws (p +:+ q) = skip_ws p +:+ q.
Proof.
  induction p as [|c p IH]; cbn [skip_ws String.append]; [congruence|].
  destruct (is_ws c); [exact IH | reflexivity].
Qed.

Lemma emit_app a (r : option (string * string)) x rest q (r' : option (string * string)) :
  emit a r = Some (x, rest) ->
  (forall y, r = Some (y, rest) -> r' = Some (y, rest +:+ q)) ->
  emit a r' = Some (x, rest +:+ q).
Proof.
  destruct r as [[y rest']|]; cbn; [|discriminate].
  intros [= <- <-] H. now rewrite (H y eq_refl).
Qed.

Lemma scanstring_app_bounded n :
  forall hi p q x rest,
    String.length p <= n ->
    scanstring hi p = Some (x, rest) ->
    scanstring hi (p +:+ q) = Some (x, rest +:+ q).
Proof.
  induction n as [|n IH]; intros hi p q x rest Hlen.
  - destruct p; [discriminate | cbn in Hlen; lia].
  - destruct p as [|c r]; [discriminate|].
    cbn [String.length] in Hlen.
    cbn [scanstring String.append].
    destruct (Py.code c =? 34)%nat; [now intros [= <- <-]|].
    destruct (Py.code c =? 92)%nat.
    + destruct r as [|e r1]; [discriminate|]. cbn [String.append String.length] in *.
      destruct (Py.code e =? 117)%nat.
      * destruct r1 as [|h1 [|h2 [|h3 [|h4 r2]]]]; try discriminate.
        cbn [String.append String.length] in *.
        destruct (hex4 h1 h2 h3 h4) as [k|]; [|discriminate].
        assert (Hrec : forall hi' y, scanstring hi' r2 = Some (y, rest) ->
                                     scanstring hi' (r2 +:+ q) = Some (y, rest +:+ q))
          by (intros hi' y; apply IH; lia).
        destruct hi as [h|].
        -- destruct (is_low k); [|destruct (is_high k)];
             intros H; apply (emit_app _ _ _ _ _ _ H); intros y; apply Hrec.
        -- destruct (is_high k); [apply Hrec|].
           intros H; apply (emit_app _ _ _ _ _ _ H); intros y; apply Hrec.
      * destruct (unescape e); [|discriminate].
        intros H; apply (emit_app _ _ _ _ _ _ H); intros y; apply IH; lia.
    + destruct (Py.code c <? 32)%nat; [discriminate|].
      intros H; apply (emit_app _ _ _ _ _ _ H); intros y; apply IH; lia.
Qed.

Lemma scanstring_app hi p q x rest :
  scanstring hi p = Some (x, rest) -> scanstring hi (p +:+ q) = Some (x, rest +:+ q).
Proof. now apply (scanstring_app_bounded (String.length p)). Qed.

Lemma take_digits_app p q d r :
  take_digits p = (d, r) -> r <> EmptyString -> take_digits (p +:+ q) = (d, r +:+ q).
Proof.
  revert d r. induction p as [|c p IH]; intros d r; cbn [take_digits String.append].
  - intros [= <- <-]. congruence.
  - destruct (Py.is_digit c).
    + destruct (take_digits p) as [d' r'] eqn:Hp. intros [= <- <-] Hr.
      now rewrite (IH d' r' eq_refl Hr).
    + now intros [= <- <-].
Qed.

Lemma take_digits_rest p d r :
  take_digits p = (d, r) ->
  match r with String c _ => Py.is_digit c = false | EmptyString => True end.
Proof.
  revert d r. induction p as [|c p IH]; intros d r; cbn [take_digits].
  - now intros [= <- <-].
  - destruct (Py.is_digit c) eqn:Hc.
    + destruct (take_digits p) as [d' r'] eqn:Hp. intros [= <- <-]. now apply (IH d').
    + now intros [= <- <-].
Qed.

Lemma scan_exp_app s q e rest :
  scan_exp s = (e, rest) -> delimited rest = true ->
  scan_exp (s +:+ q) = (e, rest +:+ q).
Proof.
  unfold scan_exp. destruct s as [|c r]; [intros [= <- <-]; discriminate|].
  cbn [String.append].
  destruct ((Py.code c =? 101)%nat || (Py.code c =? 69)%nat) eqn:Hc.
  - assert (Hnot : delimited (String c r) = false).
    { cbn. apply orb_true_iff in Hc. destruct Hc as [Hc | Hc]; apply Nat.eqb_eq in Hc;
        unfold is_ws; rewrite Hc; reflexivity. }
    destruct r as [|g r']; cbn [String.append].
    + cbn. intros [= <- <-]. congruence.
    + destruct ((Py.code g =? 43)%nat || (Py.code g =? 45)%nat).
      * destruct (take_digits r') as [d rest'] eqn:Hd.
        destruct d as [|d0 d]; [intros [= <- <-]; congruence|].
        intros [= <- <-] Hdel.
        rewrite (take_digits_app r' q _ _ Hd); [reflexivity|].
        intros ->. discriminate.
      * destruct (take_digits (String g r')) as [d rest'] eqn:Hd.
        change (String g (r' +:+ q)) with (String g r' +:+ q).
        destruct d as [|d0 d]; [intros [= <- <-]; congruence|].
        intros [= <- <-] Hdel.
        rewrite (take_digits_app _ q _ _ Hd); [reflexivity|].
        intros ->. discriminate.
  - now intros [= <- <-].
Qed.

Lemma scan_exp_input s e rest :
  scan_exp s = (e, rest) -> delimited rest = true ->
  match s with
  | String c _ => (Py.code c =? 46)%nat = false /\ Py.is_digit c = false
  | EmptyString => False
  end.
Proof.
  unfold scan_exp. destruct s as [|c r]; [intros [= <- <-]; discriminate|].
  destruct ((Py.code c =? 101)%nat || (Py.code c =? 69)%nat) eqn:Hc.
  - intros _ _. apply orb_true_iff in Hc.
    destruct Hc as [Hc | Hc]; apply Nat.eqb_eq in Hc; unfold Py.is_digit; rewrite Hc; now split.
  - intros [= <- <-]. cbn. unfold is_ws, Py.is_digit, Py.between.
    intros H. repeat (apply orb_true_iff in H; destruct H as [H | H]);
      apply Nat.eqb_eq in H; rewrite H; now split.
Qed.

Lemma scan_frac_app s q f rest :
  scan_frac s = (f, rest) ->
  match rest with
  | String c _ => (Py.code c =? 46)%nat = false /\ Py.is_digit c = false
  | EmptyString => False
  end ->
  scan_frac (s +:+ q) = (f, rest +:+ q) /\ s <> EmptyString.
Proof.
  unfold scan_frac. destruct s as [|c r]; [now intros [= <- <-]|].
  cbn [String.append].
  destruct (Py.code c =? 46)%nat eqn:Hc.
  - destruct (take_digits r) as [d rest'] eqn:Hd.
    destruct d as [|d0 d].
    + intros [= <- <-] [Hdot _]. congruence.
    + intros [= <- <-] Hrest. split; [|discriminate].
      rewrite (take_digits_app r q _ _ Hd); [reflexivity|].
      intros ->. exact Hrest.
  - intros [= <- <-] _. split; [reflexivity | discriminate].
Qed.

Lemma scan_int_app s q i rest :
  scan_int s = Some (i, rest) -> rest <> EmptyString ->
  scan_int (s +:+ q) = Some (i, rest +:+ q).
Proof.
  unfold scan_int. destruct s as [|c r]; [discriminate|].
  cbn [String.append].
  destruct (Py.code c =? 48)%nat; [now intros [= <- <-]|].
  destruct (Py.is_digit c); [|discriminate].
  intros H Hr. change (String c (r +:+ q)) with (String c r +:+ q).
  assert (H' : take_digits (String c r) = (i, rest)) by congruence.
  now rewrite (take_digits_app _ q _ _ H' Hr).
Qed.

Lemma scan_number_app s q lit rest :
  scan_number s = Some (lit, rest) -> delimited rest = true ->
  scan_number (s +:+ q) = Some (lit, rest +:+ q).
Proof.
  unfold scan_number.
  assert (Hcore : forall s1, 
    match scan_int s1 with
    | Some (i, s2) => let (f, s3) := scan_frac s2 in let (e, s4) := scan_exp s3 in
                      forall sign, Some (sign +:+ i +:+ f +:+ e, s4) = Some (lit, rest) ->
                      delimited rest = true ->
                      match scan_int (s1 +:+ q) with
                      | Some (i', s2') => let (f', s3') := scan_frac s2' in let (e', s4') := scan_exp s3' in
                          Some (sign +:+ i' +:+ f' +:+ e', s4') = Some (lit, rest +:+ q)
                      | None => False
                      end
    | None => True
    end).
  { intros s1. destruct (scan_int s1) as [[i s2]|] eqn:Hi; [|exact I].
    destruct (scan_frac s2) as [f s3] eqn:Hf. destruct (scan_exp s3) as [e s4] eqn:He.
    intros sign [= <- <-] Hdel.
    pose proof (scan_exp_input _ _ _ He Hdel) as H3.
    destruct (scan_frac_app _ q _ _ Hf H3) as [Hf' H2].
    rewrite (scan_int_app _ q _ _ Hi H2), Hf', (scan_exp_app _ q _ _ He Hdel). reflexivity. }
  destruct s as [|c r].
  - specialize (Hcore EmptyString). cbn in Hcore. cbn. discriminate.
  - cbn [String.append]. destruct (Py.code c =? 45)%nat.
    + specialize (Hcore r). destruct (scan_int r) as [[i s2]|]; [|discriminate].
      destruct (scan_frac s2) as [f s3]. destruct (scan_exp s3) as [e s4].
      intros H Hdel. specialize (Hcore "-" H Hdel).
      destruct (scan_int (r +:+ q)) as [[i' s2']|]; [|destruct Hcore].
      destruct (scan_frac s2') as [f' s3']. destruct (scan_exp s3') as [e' s4']. exact Hcore.
    + specialize (Hcore (String c r)). destruct (scan_int (String c r)) as [[i s2]|]; [|discriminate].
      destruct (scan_frac s2) as [f s3]. destruct (scan_exp s3) as [e s4].
      intros H Hdel. specialize (Hcore EmptyString H Hdel).
      change (String c (r +:+ q)) with (String c r +:+ q).
      destruct (scan_int (String c r +:+ q)) as [[i' s2']|]; [|destruct Hcore].
      destruct (scan_frac s2') as [f' s3']. destruct (scan_exp s3') as [e' s4']. exact Hcore.
Qed.

Lemma strip_prefix_app p s q rest :
  strip_prefix p s = Some rest -> strip_prefix p (s +:+ q) = Some (rest +:+ q).
Proof.
  revert s. induction p as [|a p IH]; intros s; cbn [strip_prefix].
  - now intros [= <-].
  - destruct s as [|b s]; [discriminate|]. cbn [String.append].
    destruct (Ascii.eqb a b); [apply IH | discriminate].
Qed.

Lemma strip_prefix_cons a p b s :
  strip_prefix (String a p) (String b s) = if Ascii.eqb a b then strip_prefix p s else None.
Proof. reflexivity. Qed.

Lemma scan_atom_app s q v rest :
  scan_atom s = Some (v, rest) -> ended v rest ->
  scan_atom (s +:+ q) = Some (v, rest +:+ q).
Proof.
  destruct s as [|c r]; [discriminate|].
  unfold scan_atom. cbn [String.append].
  rewrite !strip_prefix_cons.
  destruct (Ascii.eqb_spec "n" c) as [<-|Hn].
  { remember (strip_prefix "ull" r) as o eqn:H. symmetry in H.
    destruct o as [rest'|]; [|cbn; discriminate].
    rewrite (strip_prefix_app _ _ q _ H). cbn. now intros [= <- <-] _. }
  destruct (Ascii.eqb_spec "t" c) as [<-|Ht].
  { remember (strip_prefix "rue" r) as o eqn:H. symmetry in H.
    destruct o as [rest'|]; [|cbn; discriminate].
    rewrite (strip_prefix_app _ _ q _ H). cbn. now intros [= <- <-] _. }
  destruct (Ascii.eqb_spec "f" c) as [<-|Hf].
  { remember (strip_prefix "alse" r) as o eqn:H. symmetry in H.
    destruct o as [rest'|]; [|cbn; discriminate].
    rewrite (strip_prefix_app _ _ q _ H). cbn. now intros [= <- <-] _. }
  change (String c (r +:+ q)) with (String c r +:+ q).
  destruct (scan_number (String c r)) as [[lit rest']|] eqn:Hnum.
  { intros [= <- <-] Hend. now rewrite (scan_number_app _ q _ _ Hnum Hend). }
  destruct (Ascii.eqb_spec "N" c) as [<-|HN].
  { remember (strip_prefix "aN" r) as o eqn:H. symmetry in H.
    destruct o as [rest'|]; [|cbn; discriminate].
    rewrite (strip_prefix_app _ _ q _ H). cbn. now intros [= <- <-] _. }
  destruct (Ascii.eqb_spec "I" c) as [<-|HI].
  { remember (strip_prefix "nfinity" r) as o eqn:H. symmetry in H.
    destruct o as [rest'|]; [|cbn; discriminate].
    rewrite (strip_prefix_app _ _ q _ H). cbn. now intros [= <- <-] _. }
  destruct (Ascii.eqb_spec "-" c) as [<-|Hm]; [|discriminate].
  remember (strip_prefix "Infinity" r) as o eqn:H. symmetry in H.
  destruct o as [rest'|]; [|discriminate].
  intros [= <- <-] _. rewrite (strip_prefix_app _ _ q _ H).
  destruct r as [|i r']; [discriminate|]. rewrite strip_prefix_cons in H.
  destruct (Ascii.eqb_spec "I" i) as [<-|]; [|discriminate].
  reflexivity.
Qed.

Lemma scan_once_empty f : scan_once f EmptyString = None.
Proof. now destruct f. Qed.

Lemma items_empty f acc : items f acc EmptyString = None.
Proof. destruct f as [|f]; [reflexivity|]. cbn [items]. now rewrite scan_once_empty. Qed.

Lemma members_empty f acc : members f acc EmptyString = None.
Proof. now destruct f. Qed.

Lemma delimited_skip_ws r c r1 :
  skip_ws r = String c r1 ->
  (Py.code c =? 44)%nat || (Py.code c =? 93)%nat || (Py.code c =? 125)%nat = true ->
  delimited r = true.
Proof.
  destruct r as [|a r]; [discriminate|]. cbn [skip_ws delimited].
  destruct (is_ws a); [reflexivity|]. intros [= -> ->] H. cbn [orb]. exact H.
Qed.

Lemma ended_delimited v r : delimited r = true -> ended v r.
Proof. now destruct v. Qed.

Lemma skip_ws_cons_app r q c r1 :
  skip_ws r = String c r1 -> skip_ws (r +:+ q) = String c (r1 +:+ q).
Proof. intros H. rewrite skip_ws_app; rewrite H; [reflexivity | discriminate]. Qed.

Lemma scan_once_eq f c r :
  scan_once (S f) (String c r)
  = if (Py.code c =? 34)%nat then
      match scanstring None r with
      | Some (str, rest) => Some (JString str, rest)
      | None => None
      end
    else if (Py.code c =? 123)%nat then
      match skip_ws r with
      | String c1 r1 =>
          if (Py.code c1 =? 125)%nat then Some (JObject [], r1)
          else members f [] (String c1 r1)
      | EmptyString => None
      end
    else if (Py.code c =? 91)%nat then
      match skip_ws r with
      | String c1 r1 =>
          if (Py.code c1 =? 93)%nat then Some (JArray [], r1)
          else items f [] (String c1 r1)
      | EmptyString => None
      end
    else scan_atom (String c r).
Proof. reflexivity. Qed.

Lemma items_eq f acc s :
  items (S f) acc s
  = match scan_once f s with
    | None => None
    | Some (v, r) =>
        match skip_ws r with
        | String c r1 =>
            if (Py.code c =? 93)%nat then Some (JArray (rev (v :: acc)), r1)
            else if (Py.code c =? 44)%nat then items f (v :: acc) (skip_ws r1)
            else None
        | EmptyString => None
        end
    end.
Proof. reflexivity. Qed.

Lemma members_eq f acc q r :
  members (S f) acc (String q r)
  = if negb (Py.code q =? 34)%nat then None
    else
      match scanstring None r with
      | None => None
      | Some (key, r1) =>
          match skip_ws r1 with
          | EmptyString => None
          | String c r2 =>
              if negb (Py.code c =? 58)%nat then None
              else
                match scan_once f (skip_ws r2) with
                | None => None
                | Some (v, r3) =>
                    match skip_ws r3 with
                    | String d r4 =>
                        if (Py.code d =? 125)%nat
                        then Some (JObject (rev ((key, v) :: acc)), r4)
                        else if (Py.code d =? 44)%nat
                        then members f ((key, v) :: acc) (skip_ws r4)
                        else None
                    | EmptyString => None
                    end
                end
          end
      end.
Proof. reflexivity. Qed.

(** The decoder does not look past the value it reads, and more fuel does
    not change what it reads. *)
Lemma scan_app f :
  (forall f' s q v rest,
     f <= f' -> scan_once f s = Some (v, rest) -> ended v rest ->
     scan_once f' (s +:+ q) = Some (v, rest +:+ q))
  /\ (forall f' acc s q v rest,
        f <= f' -> items f acc s = Some (v, rest) ->
        items f' acc (s +:+ q) = Some (v, rest +:+ q))
  /\ (forall f' acc s q v rest,
        f <= f' -> members f acc s = Some (v, rest) ->
        members f' acc (s +:+ q) = Some (v, rest +:+ q)).
Proof.
  induction f as [|f (IHv & IHi & IHm)].
  - repeat split; intros; discriminate.
  - split; [|split].
    + intros [|f'] s q v rest Hle; [lia|]. assert (Hle' : f <= f') by lia.
      destruct s as [|c r]; [discriminate|].
      change (String c r +:+ q) with (String c (r +:+ q)). rewrite !scan_once_eq.
      destruct (Py.code c =? 34)%nat.
      { destruct (scanstring None r) as [[str rest0]|] eqn:Hs; [|discriminate].
        intros [= <- <-] _. now rewrite (scanstring_app _ _ q _ _ Hs). }
      destruct (Py.code c =? 123)%nat.
      { destruct (skip_ws r) as [|c1 r1] eqn:Hws; [discriminate|].
        rewrite (skip_ws_cons_app _ q _ _ Hws).
        destruct (Py.code c1 =? 125)%nat; [now intros [= <- <-]|].
        intros H _. exact (IHm f' [] (String c1 r1) q v rest Hle' H). }
      destruct (Py.code c =? 91)%nat.
      { destruct (skip_ws r) as [|c1 r1] eqn:Hws; [discriminate|].
        rewrite (skip_ws_cons_app _ q _ _ Hws).
        destruct (Py.code c1 =? 93)%nat; [now intros [= <- <-]|].
        intros H _. exact (IHi f' [] (String c1 r1) q v rest Hle' H). }
      apply (scan_atom_app (String c r)).
    + intros [|f'] acc s q v rest Hle; [lia|]. assert (Hle' : f <= f') by lia.
      rewrite !items_eq.
      destruct (scan_once f s) as [[v0 r]|] eqn:Hv; [|discriminate].
      destruct (skip_ws r) as [|c r1] eqn:Hws; [discriminate|].
      destruct (Py.code c =? 93)%nat eqn:H93.
      * intros [= <- <-].
        rewrite (IHv f' s q v0 r Hle' Hv);
          [|apply ended_delimited, (delimited_skip_ws _ _ _ Hws); now rewrite H93, orb_true_r].
        now rewrite (skip_ws_cons_app _ q _ _ Hws), H93.
      * destruct (Py.code c =? 44)%nat eqn:H44; [|discriminate].
        intros H.
        rewrite (IHv f' s q v0 r Hle' Hv);
          [|apply ended_delimited, (delimited_skip_ws _ _ _ Hws); now rewrite H44].
        rewrite (skip_ws_cons_app _ q _ _ Hws), H93, H44.
        destruct (skip_ws r1) as [|c2 r2] eqn:Hws1; [now rewrite items_empty in H|].
        rewrite (skip_ws_cons_app _ q _ _ Hws1).
        exact (IHi f' _ _ q v rest Hle' H).
    + intros [|f'] acc s q v rest Hle; [lia|]. assert (Hle' : f <= f') by lia.
      destruct s as [|qc r]; [discriminate|].
      change (String qc r +:+ q) with (String qc (r +:+ q)). rewrite !members_eq.
      destruct (negb (Py.code qc =? 34)%nat); [discriminate|].
      destruct (scanstring None r) as [[key r1]|] eqn:Hs; [|discriminate].
      rewrite (scanstring_app _ _ q _ _ Hs).
      destruct (skip_ws r1) as [|c r2] eqn:Hws1; [discriminate|].
      rewrite (skip_ws_cons_app _ q _ _ Hws1).
      destruct (negb (Py.code c =? 58)%nat); [discriminate|].
      destruct (skip_ws r2) as [|c2 r2'] eqn:Hws2; [now rewrite scan_once_empty|].
      rewrite (skip_ws_cons_app _ q _ _ Hws2).
      change (String c2 (r2' +:+ q)) with (String c2 r2' +:+ q).
      destruct (scan_once f (String c2 r2')) as [[v0 r3]|] eqn:Hv; [|discriminate].
      destruct (skip_ws r3) as [|d r4] eqn:Hws3; [discriminate|].
      destruct (Py.code d =? 125)%nat eqn:H125.
      * intros [= <- <-].
        rewrite (IHv f' _ q v0 r3 Hle' Hv);
          [|apply ended_delimited, (delimited_skip_ws _ _ _ Hws3); now rewrite H125, !orb_true_r].
        now rewrite (skip_ws_cons_app _ q _ _ Hws3), H125.
      * destruct (Py.code d =? 44)%nat eqn:H44; [|discriminate].
        intros H.
        rewrite (IHv f' _ q v0 r3 Hle' Hv);
          [|apply ended_delimited, (delimited_skip_ws _ _ _ Hws3); now rewrite H44].
        rewrite (skip_ws_cons_app _ q _ _ Hws3), H125, H44.
        destruct (skip_ws r4) as [|c4 r5] eqn:Hws4; [now rewrite members_empty in H|].
        rewrite (skip_ws_cons_app _ q _ _ Hws4).
        exact (IHm f' _ _ q v rest Hle' H).
Qed.

Lemma members_object f acc s v rest :
  members f acc s = Some (v, rest) -> exists data, v = JObject data.
Proof.
  revert acc s. induction f as [|f IH]; intros acc s; [discriminate|].
  destruct s as [|qc r]; [discriminate|]. rewrite members_eq.
  destruct (negb (Py.code qc =? 34)%nat); [discriminate|].
  destruct (scanstring None r) as [[key r1]|]; [|discriminate].
  destruct (skip_ws r1) as [|c r2]; [discriminate|].
  destruct (negb (Py.code c =? 58)%nat); [discriminate|].
  destruct (scan_once f (skip_ws r2)) as [[v0 r3]|]; [|discriminate].
  destruct (skip_ws r3) as [|d r4]; [discriminate|].
  destruct (Py.code d =? 125)%nat; [intros [= <- <-]; eauto|].
  destruct (Py.code d =? 44)%nat; [apply IH | discriminate].
Qed.

Lemma substring_split n s :
  exists q, s = String.substring 0 n s +:+ q /\ (n < String.length s -> q <> EmptyString).
Proof.
  revert s. induction n as [|n IH]; intros s.
  - exists s. split; [now destruct s|]. destruct s; cbn; [lia | discriminate].
  - destruct s as [|c s]; [exists EmptyString; split; [reflexivity | cbn; lia]|].
    destruct (IH s) as (q & Hq & Hne). exists q. cbn [String.substring String.append String.length].
    split; [now rewrite <- Hq | intros H; apply Hne; lia].
Qed.

Lemma substring_all n s : String.length s <= n -> String.substring 0 n s = s.
Proof.
  revert s. induction n as [|n IH]; intros s H.
  - destruct s; [reflexivity | cbn in H; lia].
  - destruct s as [|c s]; [reflexivity|]. cbn [String.substring String.length] in *.
    rewrite IH; [reflexivity | lia].
Qed.

Lemma append_empty a b : a +:+ b = EmptyString -> b = EmptyString.
Proof. destruct a; [now cbn | discriminate]. Qed.

(** A state file that holds only a beginning of the record is not decoded. *)
Lemma truncated_record_is_not_decoded s t c n :
  n < String.length (dumps (state_record s t c)) ->
  loads (String.substring 0 n (dumps (state_record s t c))) = None.
Proof.
  intros Hn. set (T := dumps (state_record s t c)) in *.
  destruct (substring_split n T) as (q & HT & Hq). specialize (Hq Hn).
  set (p := String.substring 0 n T) in *.
  destruct (loads p) as [v|] eqn:Hp; [exfalso | reflexivity].
  unfold loads in Hp.
  assert (Hstart : exists T', T = String "{" T')
    by (unfold T; rewrite dumps_state_record; eexists; reflexivity).
  destruct Hstart as [T' HT'].
  destruct p as [|c0 p'] eqn:Ep; [discriminate|].
  assert (Hc0 : c0 = "{"%char) by (rewrite HT' in HT; cbn in HT; congruence).
  subst c0. change (skip_ws (String "{" p')) with (String "{" p') in Hp.
  destruct (scan_once (S (String.length (String "{" p'))) (String "{" p')) as [[v' r]|] eqn:Hscan;
    [|discriminate].
  assert (Hended : ended v' r).
  { rewrite scan_once_eq in Hscan. change (Py.code "{" =? 34)%nat with false in Hscan.
    change (Py.code "{" =? 123)%nat with true in Hscan. cbv iota in Hscan.
    destruct (skip_ws p') as [|c1 r1]; [discriminate|].
    destruct (Py.code c1 =? 125)%nat; [now injection Hscan as <- <-|].
    destruct (members_object _ _ _ _ _ Hscan) as [data ->]. exact I. }
  assert (Hfuel : S (String.length (String "{" p')) <= S (String.length T)).
  { rewrite HT. rewrite length_append. lia. }
  destruct (scan_app (S (String.length (String "{" p')))) as (Hext & _ & _).
  specialize (Hext _ _ q _ _ Hfuel Hscan Hended). rewrite <- HT in Hext.
  assert (Hlen : 4 <= String.length T)
    by (unfold T; rewrite dumps_state_record, !length_append; simpl; lia).
  destruct (String.length T) as [|[|[|[|k]]]]; try lia.
  change (S (S (S (S (S k))))) with (5 + k) in Hext. unfold T in Hext.
  rewrite scan_once_record in Hext. injection Hext as _ Hrest.
  symmetry in Hrest. apply append_empty in Hrest. contradiction.
Qed.

Lemma load_value m : fst (load_previous_state m) = Ret (loaded (state_file m)).
Proof.
  unfold loaded. run. destruct (state_file m) as [| |text]; try reflexivity.
  now destruct (loads text) as [[]|].
Qed.

Lemma stored_loaded w s t c f :
  loaded (stored w (dumps (state_record s t c)) f) = (JString s, JString t)
  \/ loaded (stored w (dumps (state_record s t c)) f) = (JNull, JNull)
  \/ stored w (dumps (state_record s t c)) f = f.
Proof.
  destruct w as [| |kept]; cbn [stored].
  - left. unfold loaded. now rewrite loads_dumps_state_record.
  - now right; right.
  - destruct (Nat.lt_ge_cases kept (String.length (dumps (state_record s t c)))) as [Hlt | Hge].
    + right; left. unfold loaded. now rewrite truncated_record_is_not_decoded.
    + left. rewrite substring_all by exact Hge. unfold loaded.
      now rewrite loads_dumps_state_record.
Qed.

Lemma stored_consistent w s t c f :
  consistent f -> consistent (stored w (dumps (state_record s t c)) f).
Proof.
  intros Hf. destruct (stored_loaded w s t c f) as [H | [H | H]].
  - unfold consistent. rewrite H. discriminate.
  - unfold consistent. rewrite H. now cbn.
  - now rewrite H.
Qed.
(** ** Monitor loop *)

Lemma add_logs_fields lines m :
  previous_status (add_logs lines m) = previous_status m
  /\ consecutive_errors (add_logs lines m) = consecutive_errors m
  /\ state_file (add_logs lines m) = state_file m
  /\ calls (add_logs lines m) = calls m.
Proof.
  revert m. induction lines as [|l lines IH]; intros m; [now cbn|].
  cbn [add_logs fold_left]. destruct (IH (add_log l m)) as (H1 & H2 & H3 & H4).
  unfold add_logs in *. now rewrite H1, H2, H3, H4.
Qed.

Lemma fetch_some cfg t S m :
  fetch_returns cfg t (Some S) -> get_visa_status cfg (page t) m = (Ret (Some S), m).
Proof.
  intros H. specialize (H m). revert H. run.
  destruct (page t) as [[]|soup]; cbn; try discriminate.
  destruct (scan_rows (COUNTRY cfg) (find_all "tr" soup)); cbn; [|discriminate].
  now intros [= ->].
Qed.

Lemma fetch_none cfg t m :
  fetch_returns cfg t None ->
  exists line, get_visa_status cfg (page t) m = (Ret None, add_log line m).
Proof.
  intros H. specialize (H m). revert H. run.
  destruct (page t) as [[]|soup]; cbn; try discriminate; eauto.
  destruct (scan_rows (COUNTRY cfg) (find_all "tr" soup)); cbn; [discriminate|]. eauto.
Qed.

Lemma send_ret cfg t b message m :
  send_returns cfg t b ->
  exists lines,
    send_telegram_message cfg (post t) message m
    = (Ret b, add_logs lines (add_call (Send message) m)).
Proof.
  intros H. specialize (H message m). revert H. run.
  destruct (_ || _).
  - cbn. intros [= <-]. now exists [(WARNING, "Telegram no configurado correctamente. Mensaje no enviado."); (INFO, "Mensaje que se habría enviado: " +:+ message)].
  - destruct (post t) as [[]|]; cbn; try discriminate; intros [= <-].
    + now eexists [_].
    + now eexists [_].
Qed.

Lemma send_exn cfg t e message m :
  send_raises cfg t e ->
  send_telegram_message cfg (post t) message m = (Raise e, add_call (Send message) m).
Proof.
  intros H. specialize (H message m). revert H. run.
  destruct (_ || _); [discriminate|].
  destruct (post t) as [[]|]; cbn; try discriminate; now intros [= <-].
Qed.

Lemma save_effect cfg w status timestamp m :
  exists lines,
    save_state cfg w status timestamp m
    = (Ret tt, add_logs lines
                 (set_state_file (stored w (dumps (state_record status timestamp (COUNTRY cfg)))
                                         (state_file m))
                                 (add_call (Save status timestamp) m))).
Proof.
  destruct m, w; [now exists [] | now eexists [_] | now eexists [_]].
Qed.

Lemma fetch_cases cfg t :
  (exists S, fetch_returns cfg t (Some S)) \/ fetch_returns cfg t None
  \/ page t = inl KeyboardInterrupt.
Proof.
  unfold fetch_returns. run.
  destruct (page t) as [[]|soup]; cbn; eauto.
  destruct (scan_rows (COUNTRY cfg) (find_all "tr" soup)); cbn; eauto.
Qed.

Lemma send_cases cfg t :
  (exists b, send_returns cfg t b) \/ (exists e, send_raises cfg t e).
Proof.
  unfold send_returns, send_raises. run.
  destruct (_ || _); cbn; eauto.
  destruct (post t) as [[]|]; cbn; eauto.
Qed.

Lemma previous_status_add_logs lines m :
  previous_status (add_logs lines m) = previous_status m.
Proof. apply add_logs_fields. Qed.

Lemma consecutive_errors_add_logs lines m :
  consecutive_errors (add_logs lines m) = consecutive_errors m.
Proof. apply add_logs_fields. Qed.

Lemma state_file_add_logs lines m : state_file (add_logs lines m) = state_file m.
Proof. apply add_logs_fields. Qed.

Lemma calls_add_logs lines m : calls (add_logs lines m) = calls m.
Proof. apply add_logs_fields. Qed.

Section Loop.

Variable py_str : json -> string.
Variable py_bool : json -> bool.

Ltac step :=
  unfold iteration, attempt, news, try_except, logger, update, read, raise,
    mbind, M_bind, mret, M_ret;
  cbn [is_debug is_Exception fst snd].

Ltac open_pass := unfold iteration, try_except.

Ltac open_loop :=
  cbn [loop]; unfold sleep, logger, update, raise, mbind, M_bind, mret, M_ret; cbn [is_debug].

Ltac open_main :=
  unfold startup, logger, update, mbind, M_bind, mret, M_ret; cbn [is_debug].

Ltac unfold_main := unfold main, mbind, M_bind.

#[local] Abbreviation attempt := (attempt py_str py_bool).
#[local] Abbreviation iteration := (iteration py_str py_bool).
#[local] Abbreviation loop := (loop py_str py_bool).
#[local] Abbreviation error_msg := (error_msg py_str py_bool).
#[local] Abbreviation change_message := (change_message py_str).
#[local] Abbreviation news := (news py_str).
#[local] Abbreviation startup := (startup py_str py_bool).
#[local] Abbreviation main := (main py_str py_bool).
#[local] Abbreviation quiet := (quiet py_str py_bool).

Ltac fields :=
  unfold core;
  repeat (progress
    (rewrite ?previous_status_add_logs, ?consecutive_errors_add_logs,
       ?state_file_add_logs, ?calls_add_logs;
     cbn [previous_status consecutive_errors state_file calls
          set_previous_status set_consecutive_errors set_state_file add_log add_call
          fst snd]));
  rewrite <- ?app_assoc; cbn [app].

(** The status fetched is the one remembered. *)
Lemma pass_unchanged cfg t m S :
  fetch_returns cfg t (Some S) -> previous_status m = JString S ->
  fst (iteration cfg t m) = Ret Continue
  /\ core (snd (iteration cfg t m))
     = (JString S, 0%Z,
        stored (disk t) (dumps (state_record S (now t) (COUNTRY cfg))) (state_file m),
        calls m ++ [Save S (now t)]).
Proof.
  intros Hf HP. step. rewrite (fetch_some _ _ _ _ Hf).
  cbn [previous_status set_consecutive_errors add_log]. rewrite HP.
  cbn [differs]. rewrite String.eqb_refl. cbn [negb].
  destruct (save_effect cfg (disk t) S (now t)
    (add_log (INFO, "Sin cambios detectados")
       (add_log (INFO, "Estado actual: " +:+ S)
          (set_consecutive_errors 0
             (add_log (INFO, "Verificando estado... (" +:+ now t +:+ ")") m)))))
    as [lines ->].
  split; [reflexivity|]. fields. now rewrite HP.
Qed.


Lemma pass_changed cfg t m S b :
  fetch_returns cfg t (Some S) -> differs S (previous_status m) = true ->
  send_returns cfg t b ->
  fst (iteration cfg t m) = Ret Continue
  /\ core (snd (iteration cfg t m))
     = (JString S, 0%Z,
        stored (disk t) (dumps (state_record S (now t) (COUNTRY cfg))) (state_file m),
        calls m ++ [Send (news cfg (previous_status m) S (now t)); Save S (now t)]).
Proof.
  intros Hf HP Hs. step. rewrite (fetch_some _ _ _ _ Hf).
  cbn [previous_status set_consecutive_errors add_log]. rewrite HP.
  destruct (is_None (previous_status m)).
  - match goal with |- context [send_telegram_message cfg (post t) ?msg ?mm] =>
      destruct (send_ret cfg t b msg mm Hs) as [lines ->] end.
    match goal with |- context [save_state cfg (disk t) S (now t) ?mm] =>
      destruct (save_effect cfg (disk t) S (now t) mm) as [lines' ->] end.
    split; [reflexivity|]. now fields.
  - match goal with |- context [send_telegram_message cfg (post t) ?msg ?mm] =>
      destruct (send_ret cfg t b msg mm Hs) as [lines ->] end.
    match goal with |- context [save_state cfg (disk t) S (now t) ?mm] =>
      destruct (save_effect cfg (disk t) S (now t) mm) as [lines' ->] end.
    split; [reflexivity|]. now fields.
Qed.

Lemma pass_changed_raises cfg t m S e :
  fetch_returns cfg t (Some S) -> differs S (previous_status m) = true ->
  send_raises cfg t e ->
  fst (iteration cfg t m) = Ret (if is_Exception e then Continue else Break)
  /\ core (snd (iteration cfg t m))
     = (previous_status m, (if is_Exception e then 1 else 0)%Z, state_file m,
        calls m ++ [Send (news cfg (previous_status m) S (now t))]).
Proof.
  intros Hf HP Hs. step. rewrite (fetch_some _ _ _ _ Hf).
  cbn [previous_status set_consecutive_errors add_log]. rewrite HP.
  destruct (is_None (previous_status m)).
  - rewrite (send_exn _ _ _ _ _ Hs). destruct e; (split; [reflexivity | now fields]).
  - rewrite (send_exn _ _ _ _ _ Hs). destruct e; (split; [reflexivity | now fields]).
Qed.

Lemma pass_failed_quiet cfg t m :
  fetch_returns cfg t None -> (consecutive_errors m + 1 < max_consecutive_errors)%Z ->
  fst (iteration cfg t m) = Ret Continue
  /\ core (snd (iteration cfg t m))
     = (previous_status m, (consecutive_errors m + 1)%Z, state_file m, calls m).
Proof.
  intros Hf Hlt. step.
  match goal with |- context [get_visa_status cfg (page t) ?mm] =>
    destruct (fetch_none cfg t mm Hf) as [line ->] end.
  cbn [consecutive_errors set_consecutive_errors add_log].
  destruct (Z.leb_spec max_consecutive_errors (consecutive_errors m + 1)); [lia|].
  split; [reflexivity | now fields].
Qed.

Lemma pass_failed_alert cfg t m b :
  fetch_returns cfg t None -> (max_consecutive_errors <= consecutive_errors m + 1)%Z ->
  send_returns cfg t b ->
  fst (iteration cfg t m) = Ret Continue
  /\ core (snd (iteration cfg t m))
     = (previous_status m, 0%Z, state_file m,
        calls m ++ [Send (error_msg (consecutive_errors m + 1) (previous_status m))]).
Proof.
  intros Hf Hle Hs. step.
  match goal with |- context [get_visa_status cfg (page t) ?mm] =>
    destruct (fetch_none cfg t mm Hf) as [line ->] end.
  cbn [consecutive_errors previous_status set_consecutive_errors add_log].
  destruct (Z.leb_spec max_consecutive_errors (consecutive_errors m + 1)); [|lia].
  match goal with |- context [send_telegram_message cfg (post t) ?msg ?mm] =>
    destruct (send_ret cfg t b msg mm Hs) as [lines ->] end.
  split; [reflexivity | now fields].
Qed.

Lemma pass_failed_alert_raises cfg t m e :
  fetch_returns cfg t None -> (max_consecutive_errors <= consecutive_errors m + 1)%Z ->
  send_raises cfg t e ->
  fst (iteration cfg t m) = Ret (if is_Exception e then Continue else Break)
  /\ core (snd (iteration cfg t m))
     = (previous_status m,
        (if is_Exception e then consecutive_errors m + 1 + 1 else consecutive_errors m + 1)%Z,
        state_file m,
        calls m ++ [Send (error_msg (consecutive_errors m + 1) (previous_status m))]).
Proof.
  intros Hf Hle Hs. step.
  match goal with |- context [get_visa_status cfg (page t) ?mm] =>
    destruct (fetch_none cfg t mm Hf) as [line ->] end.
  cbn [consecutive_errors previous_status set_consecutive_errors add_log].
  destruct (Z.leb_spec max_consecutive_errors (consecutive_errors m + 1)); [|lia].
  rewrite (send_exn _ _ _ _ _ Hs). destruct e; (split; [reflexivity | now fields]).
Qed.

Lemma pass_interrupted cfg t m :
  page t = inl KeyboardInterrupt ->
  fst (iteration cfg t m) = Ret Break
  /\ core (snd (iteration cfg t m)) = core m.
Proof.
  intros Hp. step. unfold get_visa_status, try_except, raise. rewrite Hp.
  split; [reflexivity | now fields].
Qed.

Lemma core_fields m p e f c :
  core m = (p, e, f, c) ->
  previous_status m = p /\ consecutive_errors m = e /\ state_file m = f /\ calls m = c.
Proof. unfold core. now intros [= -> -> -> ->]. Qed.

Lemma differs_false S P : differs S P = false -> P = JString S.
Proof.
  destruct P as [| | |p| |]; cbn; try discriminate.
  intros H. apply negb_false_iff, String.eqb_eq in H. now subst.
Qed.

Lemma differs_true S P : P <> JString S -> differs S P = true.
Proof.
  intros H. destruct (differs S P) eqn:Hd; [reflexivity|].
  now apply differs_false in Hd.
Qed.

Lemma prefix_append x b : String.prefix x (x +:+ b) = true.
Proof.
  induction x as [|c x IH]; [now destruct b|].
  cbn. destruct (ascii_dec c c); [exact IH | congruence].
Qed.

Lemma contains_here x b : Py.contains x (x +:+ b) = true.
Proof.
  pose proof (prefix_append x b) as H.
  destruct (x +:+ b); cbn [Py.contains]; [exact H | now rewrite H].
Qed.

Lemma contains_skip x a s : Py.contains x s = true -> Py.contains x (a +:+ s) = true.
Proof.
  intros H. induction a as [|c a IH]; [exact H|].
  cbn [String.append Py.contains]. rewrite IH. apply orb_true_r.
Qed.

Ltac find_part := repeat first [apply contains_here | apply contains_skip].

Lemma start_message_has_status cfg S : Py.contains S (start_message cfg S) = true.
Proof. unfold start_message. find_part. Qed.

Lemma change_message_has_both cfg P S timestamp :
  Py.contains (str py_str P) (change_message cfg P S timestamp) = true
  /\ Py.contains S (change_message cfg P S timestamp) = true.
Proof. split; find_part. Qed.

(** C1, amended.  In a pass whose fetch returns the status S, with P the
    remembered status: when S equals P no notification is sent, and S is
    saved again with the timestamp of the pass.  When P is [None] exactly
    one notification, the start message with S, is handed to the notifier,
    and when P is present and differs from S exactly one, the change message
    with P and S.  When that call returns, delivered or not, S is saved with
    the timestamp of the pass, S is the remembered status afterwards and the
    state file is what the write of the record (S, timestamp, COUNTRY)
    leaves.  When that call raises, the pass ends there: S is neither saved
    nor remembered, the state file is as it was, and the loop goes on
    unless the exception is an interrupt.  The call does one or the
    other. *)
Theorem fetched_status_is_compared_and_saved
  (cfg : config) (t : tick) (m : machine) (S : string) :
  fetch_returns cfg t (Some S) ->
  let P := previous_status m in
  let m' := snd (iteration cfg t m) in
  let record := dumps (state_record S (now t) (COUNTRY cfg)) in
  (P = JString S ->
   fst (iteration cfg t m) = Ret Continue
   /\ calls m' = calls m ++ [Save S (now t)]
   /\ previous_status m' = JString S
   /\ state_file m' = stored (disk t) record (state_file m))
  /\ (P = JNull ->
      news cfg P S (now t) = start_message cfg S
      /\ Py.contains S (start_message cfg S) = true)
  /\ (P <> JNull ->
      news cfg P S (now t) = change_message cfg P S (now t)
      /\ Py.contains (str py_str P) (change_message cfg P S (now t)) = true
      /\ Py.contains S (change_message cfg P S (now t)) = true)
  /\ (P <> JString S -> send_completes cfg t ->
      fst (iteration cfg t m) = Ret Continue
      /\ calls m' = calls m ++ [Send (news cfg P S (now t)); Save S (now t)]
      /\ previous_status m' = JString S
      /\ state_file m' = stored (disk t) record (state_file m))
  /\ (forall e, P <> JString S -> send_raises cfg t e ->
                fst (iteration cfg t m) = Ret (if is_Exception e then Continue else Break)
                /\ calls m' = calls m ++ [Send (news cfg P S (now t))]
                /\ previous_status m' = P
                /\ state_file m' = state_file m)
  /\ (send_completes cfg t \/ exists e, send_raises cfg t e).
Proof.
  intros Hf. cbv zeta.
  split; [|split; [|split; [|split; [|split]]]].
  - intros HP. destruct (pass_unchanged cfg t m S Hf HP) as [Hc Hcore].
    apply core_fields in Hcore. now destruct Hcore as (? & _ & ? & ?).
  - intros HN. rewrite HN. split; [reflexivity | apply start_message_has_status].
  - intros HN. split; [|apply change_message_has_both].
    unfold news. now destruct (previous_status m).
  - intros HP [b Hs].
    destruct (pass_changed cfg t m S b Hf (differs_true _ _ HP) Hs) as [Hc Hcore].
    apply core_fields in Hcore. now destruct Hcore as (? & _ & ? & ?).
  - intros e HP Hs.
    destruct (pass_changed_raises cfg t m S e Hf (differs_true _ _ HP) Hs) as [Hc Hcore].
    apply core_fields in Hcore. now destruct Hcore as (? & _ & ? & ?).
  - destruct (send_cases cfg t) as [Hs | Hs]; [now left | now right].
Qed.


Lemma iteration_returns cfg t m : exists c, fst (iteration cfg t m) = Ret c.
Proof.
  open_pass.
  match goal with |- context [match ?x with (_, _) => _ end] => destruct x as [[c|e] m1] end;
    [eauto|].
  destruct e; cbn; eauto.
Qed.


Lemma loop_cons cfg t rest m :
  loop cfg (t :: rest) m
  = match iteration cfg t m with
    | (Ret Continue, m') =>
        if (CHECK_INTERVAL cfg <? 0)%Z
        then (Raise (Exception "sleep length must be non-negative"), add_log (waiting cfg) m')
        else match nap t with
             | Some e => (Raise e, add_log (waiting cfg) m')
             | None => loop cfg rest (add_log (waiting cfg) m')
             end
    | (Ret Break, m') => (Ret tt, m')
    | (Raise e, m') => (Raise e, m')
    end.
Proof.
  open_loop. destruct (iteration cfg t m) as [[[]|e] m']; try reflexivity.
  destruct (CHECK_INTERVAL cfg <? 0)%Z; [reflexivity|]. now destruct (nap t).
Qed.

Lemma loop_continue cfg t rest m :
  fst (iteration cfg t m) = Ret Continue -> sleeps cfg t ->
  loop cfg (t :: rest) m = loop cfg rest (add_log (waiting cfg) (snd (iteration cfg t m))).
Proof.
  intros H [Hpos Hnap]. rewrite loop_cons, Hnap.
  destruct (Z.ltb_spec (CHECK_INTERVAL cfg) 0); [lia|].
  destruct (iteration cfg t m) as [[[]|e] m']; cbn [fst snd] in *; (reflexivity || discriminate).
Qed.

(** The machine when the loop ends a pass: the one the pass leaves, but for
    the log. *)
Lemma loop_last cfg t m : core (snd (loop cfg [t] m)) = core (snd (iteration cfg t m)).
Proof.
  rewrite loop_cons. destruct (iteration cfg t m) as [[[]|e] m']; try reflexivity.
  destruct (CHECK_INTERVAL cfg <? 0)%Z; [reflexivity|]. now destruct (nap t).
Qed.

Lemma errors_nonneg_pass cfg t m :
  (0 <= consecutive_errors m)%Z -> (0 <= consecutive_errors (snd (iteration cfg t m)))%Z.
Proof.
  intros H0.
  destruct (fetch_cases cfg t) as [[S Hf] | [Hf | Hp]].
  - destruct (differs S (previous_status m)) eqn:Hd.
    + destruct (send_cases cfg t) as [[b Hs] | [e Hs]].
      * destruct (pass_changed cfg t m S b Hf Hd Hs) as [_ Hc].
        apply core_fields in Hc. destruct Hc as (_ & -> & _). lia.
      * destruct (pass_changed_raises cfg t m S e Hf Hd Hs) as [_ Hc].
        apply core_fields in Hc. destruct Hc as (_ & -> & _). destruct (is_Exception e); lia.
    + apply differs_false in Hd. destruct (pass_unchanged cfg t m S Hf Hd) as [_ Hc].
      apply core_fields in Hc. destruct Hc as (_ & -> & _). lia.
  - destruct (Z.lt_ge_cases (consecutive_errors m + 1) max_consecutive_errors) as [Hlt | Hge].
    + destruct (pass_failed_quiet cfg t m Hf Hlt) as [_ Hc].
      apply core_fields in Hc. destruct Hc as (_ & -> & _). lia.
    + destruct (send_cases cfg t) as [[b Hs] | [e Hs]].
      * destruct (pass_failed_alert cfg t m b Hf Hge Hs) as [_ Hc].
        apply core_fields in Hc. destruct Hc as (_ & -> & _). lia.
      * destruct (pass_failed_alert_raises cfg t m e Hf Hge Hs) as [_ Hc].
        apply core_fields in Hc. destruct Hc as (_ & -> & _). destruct (is_Exception e); lia.
  - destruct (pass_interrupted cfg t m Hp) as [_ Hc].
    symmetry in Hc. apply core_fields in Hc. destruct Hc as (_ & <- & _). exact H0.
Qed.

Lemma errors_nonneg_loop cfg ticks m :
  (0 <= consecutive_errors m)%Z -> (0 <= consecutive_errors (snd (loop cfg ticks m)))%Z.
Proof.
  revert m. induction ticks as [|t rest IH]; intros m H0; [exact H0|].
  rewrite loop_cons. pose proof (errors_nonneg_pass cfg t m H0) as H1.
  destruct (iteration cfg t m) as [[[]|e] m']; cbn [fst snd] in *; try exact H1.
  destruct (CHECK_INTERVAL cfg <? 0)%Z; [exact H1|].
  destruct (nap t); [exact H1 | now apply IH].
Qed.

Lemma validate_config_returns cfg m :
  exists lines, validate_config cfg m = (Ret tt, add_logs lines m).
Proof.
  unfold validate_config, logger, mbind, M_bind, mret, M_ret, update. cbn [is_debug].
  destruct (String.eqb (BOT_TOKEN cfg) "TU_BOT_TOKEN_AQUI"),
           (String.eqb (CHAT_ID cfg) "TU_CHAT_ID_AQUI"); cbn.
  - now eexists [_; _; _; _; _; _; _; _; _].
  - now eexists [_; _; _; _; _; _; _; _].
  - now eexists [_; _; _; _; _; _; _; _].
  - now eexists [_; _; _; _; _].
Qed.

Lemma load_effect m :
  exists r lines, load_previous_state m = (Ret r, add_logs lines m).
Proof.
  run. destruct (state_file m) as [| |text].
  - now exists (JNull, JNull), [].
  - now eexists _, [_].
  - destruct (loads text) as [[]|]; cbn; try (now eexists _, [_]). now eexists _, [].
Qed.

Lemma startup_effect cfg f :
  exists m1, startup cfg (boot f) = (Ret tt, m1)
             /\ consecutive_errors m1 = 0%Z /\ calls m1 = [] /\ state_file m1 = f.
Proof.
  open_main.
  match goal with |- context [validate_config cfg ?mm] =>
    destruct (validate_config_returns cfg mm) as [lines ->] end.
  match goal with |- context [load_previous_state ?mm] =>
    destruct (load_effect mm) as (r & lines' & ->) end.
  cbn [fst snd]. destruct (truthy py_bool (fst r)).
  - eexists. split; [reflexivity|]. now fields.
  - eexists. split; [reflexivity|]. now fields.
Qed.

Lemma main_is_loop cfg f ticks :
  exists m1, consecutive_errors m1 = 0%Z /\ calls m1 = [] /\ state_file m1 = f
             /\ main cfg ticks (boot f) = loop cfg ticks m1.
Proof.
  destruct (startup_effect cfg f) as (m1 & Hs & He & Hc & Hf).
  exists m1. repeat split; try assumption.
  unfold_main. now rewrite Hs.
Qed.

#[local] Abbreviation next cfg t m := (add_log (waiting cfg) (snd (iteration cfg t m))).

Lemma quiet_step cfg t rest m :
  fetch_returns cfg t None -> (consecutive_errors m + 1 < max_consecutive_errors)%Z ->
  sleeps cfg t ->
  loop cfg (t :: rest) m = loop cfg rest (next cfg t m)
  /\ core (next cfg t m)
     = (previous_status m, (consecutive_errors m + 1)%Z, state_file m, calls m).
Proof.
  intros Hf Hlt Hz. destruct (pass_failed_quiet cfg t m Hf Hlt) as [Hc Hcore].
  split; [now apply loop_continue|]. exact Hcore.
Qed.

Lemma alert_step cfg t rest m b :
  fetch_returns cfg t None -> (max_consecutive_errors <= consecutive_errors m + 1)%Z ->
  send_returns cfg t b -> sleeps cfg t ->
  loop cfg (t :: rest) m = loop cfg rest (next cfg t m)
  /\ core (next cfg t m)
     = (previous_status m, 0%Z, state_file m,
        calls m ++ [Send (error_msg (consecutive_errors m + 1) (previous_status m))]).
Proof.
  intros Hf Hge Hs Hz. destruct (pass_failed_alert cfg t m b Hf Hge Hs) as [Hc Hcore].
  split; [now apply loop_continue|]. exact Hcore.
Qed.

(** A run of failed fetches that stays below the threshold. *)
Lemma failures_below cfg ticks m :
  Forall (fun t => fetch_returns cfg t None) ticks ->
  Forall (sleeps cfg) ticks ->
  (consecutive_errors m + Z.of_nat (length ticks) < max_consecutive_errors)%Z ->
  (forall rest, loop cfg (ticks ++ rest) m = loop cfg rest (snd (loop cfg ticks m)))
  /\ core (snd (loop cfg ticks m))
     = (previous_status m, (consecutive_errors m + Z.of_nat (length ticks))%Z,
        state_file m, calls m).
Proof.
  revert m. induction ticks as [|t ticks IH]; intros m Hall Hzz Hlt.
  - split; [reflexivity|]. unfold core. cbn. f_equal. f_equal. f_equal. lia.
  - inversion Hall as [|? ? Hf Hall']; subst. inversion Hzz as [|? ? Hz Hzz']; subst.
    cbn [length] in Hlt.
    destruct (quiet_step cfg t ticks m Hf) as [Hloop Hcore]; [lia | exact Hz |].
    apply core_fields in Hcore. destruct Hcore as (P1 & E1 & F1 & C1).
    destruct (IH (next cfg t m) Hall' Hzz') as [Happ Hcore']; [rewrite E1; lia|].
    split.
    + intros rest. cbn [app].
      destruct (quiet_step cfg t (ticks ++ rest) m Hf) as [-> _]; [lia | exact Hz |].
      now rewrite Hloop, Happ.
    + rewrite Hloop, Hcore', P1, E1, F1, C1. cbn [length]. f_equal. f_equal. f_equal. lia.
Qed.

(** C3, amended.  The counter of consecutive errors is never negative, in
    any state the program reaches from its start.  A pass whose fetch
    succeeds sets it to 0, and it is 0 when the pass ends unless a
    notification raises an exception, which the loop counts: then it is 1.
    A pass whose failed fetch brings it to the threshold hands one alert to
    the notifier and, when that call returns, leaves it at 0; when the call
    raises, the counter is not reset and the exception is counted on top.
    From a counter at 0, five failed fetches in a row, each followed by its
    sleep, send nothing in the first four passes and hand exactly one
    critical alert to the notifier in the fifth.  When that call returns,
    the counter is 0 after it, and a sixth failed fetch puts the counter at
    1 and sends nothing.  When that call raises an exception, the counter
    is 6 after the fifth pass, and a sixth failed fetch hands a second alert
    to the notifier, for 7 attempts. *)
Theorem error_counter_resets (cfg : config) :
  (forall f ticks, (0 <= consecutive_errors (snd (main cfg ticks (boot f))))%Z)
  /\ (forall t m S,
        fetch_returns cfg t (Some S) ->
        let errors := consecutive_errors (snd (iteration cfg t m)) in
        (previous_status m = JString S -> errors = 0%Z)
        /\ (send_completes cfg t -> errors = 0%Z)
        /\ (forall e, previous_status m <> JString S -> send_raises cfg t e ->
                      errors = (if is_Exception e then 1 else 0)%Z))
  /\ (forall t m,
        fetch_returns cfg t None ->
        (max_consecutive_errors <= consecutive_errors m + 1)%Z ->
        let errors := consecutive_errors (snd (iteration cfg t m)) in
        (send_completes cfg t -> errors = 0%Z)
        /\ (forall e, send_raises cfg t e ->
                      errors = (if is_Exception e then consecutive_errors m + 1 + 1
                                else consecutive_errors m + 1)%Z))
  /\ (forall t1 t2 t3 t4 t5 t6 m,
        consecutive_errors m = 0%Z ->
        Forall (fun t => fetch_returns cfg t None) [t1; t2; t3; t4; t5; t6] ->
        Forall (sleeps cfg) [t1; t2; t3; t4; t5] ->
        let m4 := snd (loop cfg [t1; t2; t3; t4] m) in
        let m5 := snd (loop cfg [t1; t2; t3; t4; t5] m) in
        let m6 := snd (loop cfg [t1; t2; t3; t4; t5; t6] m) in
        (calls m4 = calls m /\ consecutive_errors m4 = 4%Z)
        /\ calls m5 = calls m ++ [Send (error_msg 5 (previous_status m))]
        /\ (send_completes cfg t5 ->
            consecutive_errors m5 = 0%Z
            /\ calls m6 = calls m5 /\ consecutive_errors m6 = 1%Z)
        /\ (forall e, send_raises cfg t5 e -> is_Exception e = true ->
                      consecutive_errors m5 = 6%Z
                      /\ calls m6 = calls m5 ++ [Send (error_msg 7 (previous_status m))]
                      /\ (send_completes cfg t6 -> consecutive_errors m6 = 0%Z)
                      /\ (forall e', send_raises cfg t6 e' -> is_Exception e' = true ->
                                     consecutive_errors m6 = 8%Z))).
Proof.
  split; [|split; [|split]].
  - intros f ticks. destruct (main_is_loop cfg f ticks) as (m1 & He & _ & _ & ->).
    apply errors_nonneg_loop. lia.
  - intros t m S Hf. cbv zeta. split; [|split].
    + intros HP. destruct (pass_unchanged cfg t m S Hf HP) as [_ Hc].
      now apply core_fields in Hc.
    + intros [b Hs]. destruct (differs S (previous_status m)) eqn:Hd.
      * destruct (pass_changed cfg t m S b Hf Hd Hs) as [_ Hc].
        now apply core_fields in Hc.
      * apply differs_false in Hd. destruct (pass_unchanged cfg t m S Hf Hd) as [_ Hc].
        now apply core_fields in Hc.
    + intros e HP Hs.
      destruct (pass_changed_raises cfg t m S e Hf (differs_true _ _ HP) Hs) as [_ Hc].
      now apply core_fields in Hc.
  - intros t m Hf Hge. cbv zeta. split.
    + intros [b Hs].
      destruct (pass_failed_alert cfg t m b Hf Hge Hs) as [_ Hc]. now apply core_fields in Hc.
    + intros e Hs.
      destruct (pass_failed_alert_raises cfg t m e Hf Hge Hs) as [_ Hc].
      now apply core_fields in Hc.
  - intros t1 t2 t3 t4 t5 t6 m Hzero Hall Hzz. cbv zeta.
    inversion Hall as [|? ? Hf1 Hall1]; subst. inversion Hall1 as [|? ? Hf2 Hall2]; subst.
    inversion Hall2 as [|? ? Hf3 Hall3]; subst. inversion Hall3 as [|? ? Hf4 Hall4]; subst.
    inversion Hall4 as [|? ? Hf5 Hall5]; subst. inversion Hall5 as [|? ? Hf6 _]; subst.
    inversion Hzz as [|? ? Hz1 Hzz1]; subst. inversion Hzz1 as [|? ? Hz2 Hzz2]; subst.
    inversion Hzz2 as [|? ? Hz3 Hzz3]; subst. inversion Hzz3 as [|? ? Hz4 Hzz4]; subst.
    inversion Hzz4 as [|? ? Hz5 _]; subst.
    assert (Hfour : Forall (fun t => fetch_returns cfg t None) [t1; t2; t3; t4])
      by (repeat (constructor; [assumption|]); constructor).
    assert (Hzfour : Forall (sleeps cfg) [t1; t2; t3; t4])
      by (repeat (constructor; [assumption|]); constructor).
    destruct (failures_below cfg [t1; t2; t3; t4] m Hfour Hzfour) as [Happ Hcore4].
    { rewrite Hzero. unfold max_consecutive_errors. cbn. lia. }
    apply core_fields in Hcore4. destruct Hcore4 as (P4 & E4 & F4 & C4).
    rewrite Hzero in E4. change (0 + Z.of_nat (length [t1; t2; t3; t4]))%Z with 4%Z in E4.
    set (m4 := snd (loop cfg [t1; t2; t3; t4] m)) in *.
    change [t1; t2; t3; t4; t5] with ([t1; t2; t3; t4] ++ [t5]).
    change [t1; t2; t3; t4; t5; t6] with ([t1; t2; t3; t4] ++ [t5; t6]).
    rewrite !Happ. fold m4.
    assert (Hge : (max_consecutive_errors <= consecutive_errors m4 + 1)%Z)
      by (rewrite E4; unfold max_consecutive_errors; lia).
    assert (Hlast : forall t m0,
              calls (snd (loop cfg [t] m0)) = calls (snd (iteration cfg t m0))
              /\ consecutive_errors (snd (loop cfg [t] m0))
                 = consecutive_errors (snd (iteration cfg t m0))).
    { intros t m0. pose proof (loop_last cfg t m0) as HL. unfold core at 2 in HL.
      apply core_fields in HL. now destruct HL as (_ & ? & _ & ?). }
    split; [now split|]. split; [|split].
    + rewrite (proj1 (Hlast t5 m4)). destruct (send_cases cfg t5) as [[b Hs] | [e Hs]].
      * destruct (pass_failed_alert cfg t5 m4 b Hf5 Hge Hs) as [_ Hcore].
        apply core_fields in Hcore. destruct Hcore as (_ & _ & _ & ->).
        now rewrite E4, P4, C4.
      * destruct (pass_failed_alert_raises cfg t5 m4 e Hf5 Hge Hs) as [_ Hcore].
        apply core_fields in Hcore. destruct Hcore as (_ & _ & _ & ->).
        now rewrite E4, P4, C4.
    + intros [b Hs].
      destruct (alert_step cfg t5 [] m4 b Hf5 Hge Hs Hz5) as [Hloop5' Hcore5].
      destruct (alert_step cfg t5 [t6] m4 b Hf5 Hge Hs Hz5) as [Hloop5 _].
      apply core_fields in Hcore5. destruct Hcore5 as (P5 & E5 & F5 & C5).
      assert (Hlt : (consecutive_errors (next cfg t5 m4) + 1 < max_consecutive_errors)%Z)
        by (rewrite E5; unfold max_consecutive_errors; lia).
      destruct (pass_failed_quiet cfg t6 (next cfg t5 m4) Hf6 Hlt) as [_ Hcore6].
      rewrite <- loop_last in Hcore6.
      apply core_fields in Hcore6. destruct Hcore6 as (P6 & E6 & F6 & C6).
      rewrite Hloop5', Hloop5. cbn [loop mret M_ret snd] in *.
      rewrite E5 in E6. change (0 + 1)%Z with 1%Z in E6.
      cbn [calls add_log] in C6.
      repeat split; assumption.
    + intros e Hs He.
      destruct (pass_failed_alert_raises cfg t5 m4 e Hf5 Hge Hs) as [Hc5 Hcore5].
      rewrite He in Hc5, Hcore5.
      rewrite (loop_continue cfg t5 [] m4 Hc5 Hz5), (loop_continue cfg t5 [t6] m4 Hc5 Hz5).
      apply core_fields in Hcore5. destruct Hcore5 as (P5 & E5 & F5 & C5).
      rewrite E4 in E5. change (4 + 1 + 1)%Z with 6%Z in E5.
      assert (Hge6 : (max_consecutive_errors <= consecutive_errors (next cfg t5 m4) + 1)%Z)
        by (cbn [consecutive_errors add_log]; rewrite E5; unfold max_consecutive_errors; lia).
      assert (Hnil : forall m0, snd (loop cfg [] m0) = m0) by reflexivity.
      rewrite Hnil. cbn [consecutive_errors calls add_log].
      rewrite (proj1 (Hlast t6 (next cfg t5 m4))), (proj2 (Hlast t6 (next cfg t5 m4))).
      split; [exact E5|]. split; [|split].
      * destruct (send_cases cfg t6) as [[b' Hs'] | [e' Hs']].
        -- destruct (pass_failed_alert cfg t6 (next cfg t5 m4) b' Hf6 Hge6 Hs') as [_ Hcore].
           apply core_fields in Hcore. destruct Hcore as (_ & _ & _ & ->).
           cbn [consecutive_errors previous_status calls add_log]. now rewrite E5, P5, P4.
        -- destruct (pass_failed_alert_raises cfg t6 (next cfg t5 m4) e' Hf6 Hge6 Hs')
             as [_ Hcore].
           apply core_fields in Hcore. destruct Hcore as (_ & _ & _ & ->).
           cbn [consecutive_errors previous_status calls add_log]. now rewrite E5, P5, P4.
      * intros [b' Hs'].
        destruct (pass_failed_alert cfg t6 (next cfg t5 m4) b' Hf6 Hge6 Hs') as [_ Hcore].
        now apply core_fields in Hcore.
      * intros e' Hs' He'.
        destruct (pass_failed_alert_raises cfg t6 (next cfg t5 m4) e' Hf6 Hge6 Hs')
          as [_ Hcore].
        apply core_fields in Hcore. destruct Hcore as (_ & -> & _).
        rewrite He'. cbn [consecutive_errors add_log]. rewrite E5. reflexivity.
Qed.



Lemma quiet_pass cfg t m S :
  previous_status m = JString S ->
  fetch_returns cfg t (Some S) \/ fetch_returns cfg t None ->
  previous_status (snd (iteration cfg t m)) = JString S
  /\ exists new, calls (snd (iteration cfg t m)) = calls m ++ new /\ Forall (quiet S) new.
Proof.
  intros HP [Hf | Hf].
  - destruct (pass_unchanged cfg t m S Hf HP) as [_ Hcore].
    apply core_fields in Hcore. destruct Hcore as (P1 & _ & _ & C1).
    split; [exact P1|]. exists [Save S (now t)]. split; [exact C1|].
    now repeat constructor.
  - assert (Halert : Forall (quiet S) [Send (error_msg (consecutive_errors m + 1) (previous_status m))]).
    { repeat constructor. cbn. rewrite HP. eauto. }
    destruct (Z.lt_ge_cases (consecutive_errors m + 1) max_consecutive_errors) as [Hlt | Hge].
    + destruct (pass_failed_quiet cfg t m Hf Hlt) as [_ Hcore].
      apply core_fields in Hcore. destruct Hcore as (P1 & _ & _ & C1).
      split; [congruence|]. exists []. rewrite app_nil_r. now split.
    + destruct (send_cases cfg t) as [[b Hs] | [e Hs]].
      * destruct (pass_failed_alert cfg t m b Hf Hge Hs) as [_ Hcore].
        apply core_fields in Hcore. destruct Hcore as (P1 & _ & _ & C1).
        split; [congruence|]. eauto.
      * destruct (pass_failed_alert_raises cfg t m e Hf Hge Hs) as [_ Hcore].
        apply core_fields in Hcore. destruct Hcore as (P1 & _ & _ & C1).
        split; [congruence|]. eauto.
Qed.

Lemma quiet_loop cfg ticks m S :
  previous_status m = JString S ->
  Forall (fun t => fetch_returns cfg t (Some S) \/ fetch_returns cfg t None) ticks ->
  exists later, calls (snd (loop cfg ticks m)) = calls m ++ later /\ Forall (quiet S) later.
Proof.
  revert m. induction ticks as [|t ticks IH]; intros m HP Hall.
  - exists []. rewrite app_nil_r. now split.
  - inversion Hall as [|? ? Hf Hall']; subst.
    destruct (quiet_pass cfg t m S HP Hf) as (P1 & new & C1 & Hnew).
    rewrite loop_cons. destruct (iteration cfg t m) as [[[]|e] m1]; cbn [fst snd] in *;
      try (now exists new).
    destruct (CHECK_INTERVAL cfg <? 0)%Z; [now exists new|].
    destruct (nap t); [now exists new|].
    destruct (IH (add_log (waiting cfg) m1) P1 Hall') as (later & C2 & Hlater).
    exists (new ++ later). cbn [calls add_log] in C2.
    rewrite C2, C1, app_assoc. split; [reflexivity|]. now apply Forall_app.
Qed.

(** C9.  When the notification of a first or changed status is not
    delivered (the notifier returns false), the new status is remembered and
    saved all the same.  In the passes that follow, as long as the fetch
    fails or returns that status, no start or change message is sent: the
    only calls are saves of that status and critical alerts. *)
Theorem undelivered_news_is_not_retried
  (cfg : config) (t : tick) (ticks : list tick) (m : machine) (S : string) :
  fetch_returns cfg t (Some S) ->
  previous_status m <> JString S ->
  send_returns cfg t false ->
  Forall (fun t' => fetch_returns cfg t' (Some S) \/ fetch_returns cfg t' None) ticks ->
  let m' := snd (iteration cfg t m) in
  fst (iteration cfg t m) = Ret Continue
  /\ previous_status m' = JString S
  /\ calls m' = calls m ++ [Send (news cfg (previous_status m) S (now t)); Save S (now t)]
  /\ state_file m'
     = stored (disk t) (dumps (state_record S (now t) (COUNTRY cfg))) (state_file m)
  /\ exists later,
       calls (snd (loop cfg (t :: ticks) m)) = calls m' ++ later /\ Forall (quiet S) later.
Proof.
  intros Hf HP Hs Hall. cbv zeta.
  destruct (pass_changed cfg t m S false Hf (differs_true _ _ HP) Hs) as [Hc Hcore].
  apply core_fields in Hcore. destruct Hcore as (P1 & _ & F1 & C1).
  split; [exact Hc|]. split; [exact P1|]. split; [exact C1|]. split; [exact F1|].
  rewrite loop_cons. destruct (iteration cfg t m) as [[[]|e] m1]; cbn [fst snd] in *;
    try discriminate.
  assert (Hnone : exists later, calls m1 = calls m1 ++ later /\ Forall (quiet S) later)
    by (exists []; rewrite app_nil_r; now split).
  destruct (CHECK_INTERVAL cfg <? 0)%Z; [exact Hnone|].
  destruct (nap t); [exact Hnone|].
  exact (quiet_loop cfg ticks (add_log (waiting cfg) m1) S P1 Hall).
Qed.

Lemma pass_state_file cfg t m :
  state_file (snd (iteration cfg t m)) = state_file m
  \/ exists S, state_file (snd (iteration cfg t m))
               = stored (disk t) (dumps (state_record S (now t) (COUNTRY cfg))) (state_file m).
Proof.
  destruct (fetch_cases cfg t) as [[S Hf] | [Hf | Hp]].
  - destruct (differs S (previous_status m)) eqn:Hd.
    + destruct (send_cases cfg t) as [[b Hs] | [e Hs]].
      * destruct (pass_changed cfg t m S b Hf Hd Hs) as [_ Hc].
        apply core_fields in Hc. right. exists S. apply Hc.
      * destruct (pass_changed_raises cfg t m S e Hf Hd Hs) as [_ Hc].
        apply core_fields in Hc. left. apply Hc.
    + apply differs_false in Hd. destruct (pass_unchanged cfg t m S Hf Hd) as [_ Hc].
      apply core_fields in Hc. right. exists S. apply Hc.
  - left. destruct (Z.lt_ge_cases (consecutive_errors m + 1) max_consecutive_errors) as [Hlt | Hge].
    + destruct (pass_failed_quiet cfg t m Hf Hlt) as [_ Hc]. apply core_fields in Hc. apply Hc.
    + destruct (send_cases cfg t) as [[b Hs] | [e Hs]].
      * destruct (pass_failed_alert cfg t m b Hf Hge Hs) as [_ Hc].
        apply core_fields in Hc. apply Hc.
      * destruct (pass_failed_alert_raises cfg t m e Hf Hge Hs) as [_ Hc].
        apply core_fields in Hc. apply Hc.
  - left. destruct (pass_interrupted cfg t m Hp) as [_ Hc].
    unfold core in Hc. congruence.
Qed.

Lemma pass_consistent cfg t m :
  consistent (state_file m) -> consistent (state_file (snd (iteration cfg t m))).
Proof.
  intros H. destruct (pass_state_file cfg t m) as [-> | [S ->]]; [exact H|].
  now apply stored_consistent.
Qed.

Lemma loop_consistent cfg ticks m :
  consistent (state_file m) -> consistent (state_file (snd (loop cfg ticks m))).
Proof.
  revert m. induction ticks as [|t rest IH]; intros m H0; [exact H0|].
  rewrite loop_cons. pose proof (pass_consistent cfg t m H0) as H1.
  destruct (iteration cfg t m) as [[[]|e] m']; cbn [fst snd] in *; try exact H1.
  destruct (CHECK_INTERVAL cfg <? 0)%Z; [exact H1|].
  destruct (nap t); [exact H1 | now apply IH].
Qed.

(** C10.  The record [save_state] writes has the three keys [status],
    [last_check] and [country], in this order, with the two arguments and
    the configured COUNTRY as values.  [save_state] returns whatever becomes
    of the write.  The state file it leaves is read back as the pair it was
    given, or as [(None, None)] when the write was cut short, or it is the
    file as it was when it could not be opened.  So along every run of the
    program a status in the state file comes with its [last_check], if this
    held of the file the program found. *)
Theorem saved_record_has_all_keys (cfg : config) :
  (forall status timestamp m,
     exists text data,
       state_file (snd (save_state cfg Written status timestamp m)) = Content text
       /\ loads text = Some (JObject data)
       /\ map fst data = ["status"; "last_check"; "country"]
       /\ Json.get "status" data = JString status
       /\ Json.get "last_check" data = JString timestamp
       /\ Json.get "country" data = JString (COUNTRY cfg))
  /\ (forall w status timestamp m,
        let m' := snd (save_state cfg w status timestamp m) in
        fst (save_state cfg w status timestamp m) = Ret tt
        /\ (fst (load_previous_state m') = Ret (JString status, JString timestamp)
            \/ fst (load_previous_state m') = Ret (JNull, JNull)
            \/ state_file m' = state_file m))
  /\ (forall m, fst (load_previous_state m) = Ret (loaded (state_file m)))
  /\ (forall f ticks,
        consistent f -> consistent (state_file (snd (main cfg ticks (boot f))))).
Proof.
  split; [|split; [|split]].
  - intros status timestamp m. rewrite save_written. cbn [snd state_file set_state_file].
    eexists. eexists. split; [reflexivity|]. split; [apply loads_dumps_state_record|].
    now repeat split.
  - intros w status timestamp m. cbv zeta. split; [apply save_returns|].
    destruct (save_effect cfg w status timestamp m) as [lines ->]. cbn [snd].
    rewrite !load_value, state_file_add_logs. cbn [state_file set_state_file add_call].
    destruct (stored_loaded w status timestamp (COUNTRY cfg) (state_file m)) as [H | [H | H]].
    + left. now rewrite H.
    + right; left. now rewrite H.
    + right; right. exact H.
  - apply load_value.
  - intros f ticks Hf. destruct (main_is_loop cfg f ticks) as (m1 & _ & _ & Hfile & ->).
    apply loop_consistent. now rewrite Hfile.
Qed.

End Loop.

(** ** Sample runs *)

(** No state file and the page says Open: the start message is sent and the
    record is written.  Then the page says Open again: nothing is sent, the
    record is written again.  Then it says Closed: the change message is
    sent with both values. *)
Example open_open_closed :
  let m := snd (main no_str no_bool spain
                     [open_now; open_now; at_noon (inr closed_page) None] (boot Absent)) in
  calls m
  = [Send (start_message spain "Open"); Save "Open" "2024-05-01 12:00:00";
     Save "Open" "2024-05-01 12:00:00";
     Send (change_message no_str spain (JString "Open") "Closed" "2024-05-01 12:00:00");
     Save "Closed" "2024-05-01 12:00:00"]
  /\ loaded (state_file m) = (JString "Closed", JString "2024-05-01 12:00:00")
  /\ previous_status m = JString "Closed".
Proof. vm_compute. repeat split. Qed.

(** A state file written by hand, with a number for the status: the first
    pass reports a change from it. *)
Example status_in_file_is_no_string :
  let f := Content ("{" +:+ Py.dquote +:+ "status" +:+ Py.dquote +:+ ": 7}") in
  loaded f = (JNumber "7", JNull)
  /\ calls (snd (main no_str no_bool spain [open_now] (boot f)))
     = [Send (change_message no_str spain (JNumber "7") "Open" "2024-05-01 12:00:00");
        Save "Open" "2024-05-01 12:00:00"].
Proof. vm_compute. repeat split. Qed.

Lemma fetched_status_is_compared_and_saved_witness :
  calls (snd (iteration no_str no_bool spain open_now (boot Absent)))
  = [Send (start_message spain "Open"); Save "Open" "2024-05-01 12:00:00"]
  /\ state_file (snd (iteration no_str no_bool spain open_now (boot Absent)))
     = Content (dumps (state_record "Open" "2024-05-01 12:00:00" "Spain")).
Proof.
  destruct (fetched_status_is_compared_and_saved no_str no_bool spain open_now (boot Absent) "Open")
    as (_ & _ & _ & Hsent & _).
  - intros m. reflexivity.
  - destruct Hsent as (_ & Hcalls & _ & Hfile).
    + discriminate.
    + exists true. intros message m. reflexivity.
    + split; [exact Hcalls | exact Hfile].
Defined.

(** C1, as stated, fails: the state file holds a status that cannot be put
    into a request; the page says Open, so the change message is handed to
    the notifier, and the request raises an exception that is no
    [RequestException].  The pass ends there: Open is neither saved nor
    remembered, and the next pass hands the same change message to the
    notifier again.  In the same way a first status is not saved when the
    request of the start message is interrupted. *)
Lemma notification_that_raises_loses_the_status :
  let m0 := snd (main no_str no_bool spain [] (boot surrogate_file)) in
  let m1 := snd (iteration no_str no_bool spain notification_crashes m0) in
  let m2 := snd (iteration no_str no_bool spain notification_crashes m1) in
  let m3 := snd (iteration no_str no_bool spain notification_interrupted (boot Absent)) in
  let change := change_message no_str spain (JString surrogate_status) "Open"
                               "2024-05-01 12:00:00" in
  previous_status m0 = JString surrogate_status
  /\ fst (get_visa_status spain (page notification_crashes) m0) = Ret (Some "Open")
  /\ fst (iteration no_str no_bool spain notification_crashes m0) = Ret Continue
  /\ calls m1 = [Send change]
  /\ previous_status m1 = JString surrogate_status
  /\ state_file m1 = surrogate_file
  /\ calls m2 = [Send change; Send change]
  /\ fst (iteration no_str no_bool spain notification_interrupted (boot Absent)) = Ret Break
  /\ calls m3 = [Send (start_message spain "Open")]
  /\ previous_status m3 = JNull
  /\ state_file m3 = Absent.
Proof. vm_compute. repeat split. Qed.

Lemma error_counter_resets_witness :
  consecutive_errors
    (snd (loop no_str no_bool spain
            [timed_out; timed_out; timed_out; timed_out; timed_out; timed_out] (boot Absent)))
  = 1%Z
  /\ calls
       (snd (loop no_str no_bool spain
               [timed_out; timed_out; timed_out; timed_out; timed_out; timed_out] (boot Absent)))
     = calls
         (snd (loop no_str no_bool spain
                 [timed_out; timed_out; timed_out; timed_out; timed_out] (boot Absent))).
Proof.
  destruct (error_counter_resets no_str no_bool spain) as (_ & _ & _ & H).
  destruct (H timed_out timed_out timed_out timed_out timed_out timed_out (boot Absent))
    as (_ & _ & Hreturns & _).
  - reflexivity.
  - repeat (constructor; [intros m; reflexivity|]). constructor.
  - repeat (constructor; [split; [discriminate | reflexivity]|]). constructor.
  - destruct Hreturns as (_ & Hcalls & Herrors).
    + exists true. intros message m. reflexivity.
    + split; [exact Herrors | exact Hcalls].
Defined.

(** C3, as stated, fails: the state file holds a status that cannot be put
    into a request, and every fetch fails.  The fifth failure brings the
    counter to 5 and the alert is handed to the notifier, but the request
    raises an exception that is no [RequestException]: the counter is not
    reset, it is 6 when the pass ends, and the sixth failure hands a second
    alert to the notifier and leaves the counter at 8, not at 1.  Nor is
    the counter at 0 after a pass whose fetch succeeds when the
    notification raises: it is 1. *)
Lemma raising_alert_is_attempted_again :
  let five := [timed_out_alert_crashes; timed_out_alert_crashes; timed_out_alert_crashes;
               timed_out_alert_crashes; timed_out_alert_crashes] in
  let m5 := snd (main no_str no_bool spain five (boot surrogate_file)) in
  let m6 := snd (main no_str no_bool spain (five ++ [timed_out_alert_crashes])
                      (boot surrogate_file)) in
  let m1 := snd (main no_str no_bool spain [notification_crashes] (boot surrogate_file)) in
  consecutive_errors m5 = 6%Z
  /\ calls m5 = [Send (error_msg no_str no_bool 5 (JString surrogate_status))]
  /\ consecutive_errors m6 = 8%Z
  /\ calls m6 = [Send (error_msg no_str no_bool 5 (JString surrogate_status));
                 Send (error_msg no_str no_bool 7 (JString surrogate_status))]
  /\ fst (get_visa_status spain (page notification_crashes) (boot surrogate_file))
     = Ret (Some "Open")
  /\ consecutive_errors m1 = 1%Z.
Proof. vm_compute. repeat split. Qed.



Lemma undelivered_news_is_not_retried_witness :
  previous_status (snd (iteration no_str no_bool spain_unset open_now (boot Absent)))
  = JString "Open"
  /\ exists later,
       calls (snd (loop no_str no_bool spain_unset [open_now; open_now; timed_out] (boot Absent)))
       = calls (snd (iteration no_str no_bool spain_unset open_now (boot Absent))) ++ later
       /\ Forall (quiet no_str no_bool "Open") later.
Proof.
  destruct (undelivered_news_is_not_retried no_str no_bool spain_unset open_now
              [open_now; timed_out] (boot Absent) "Open")
    as (_ & Hprev & _ & _ & Hlater).
  - intros m. reflexivity.
  - discriminate.
  - intros message m. reflexivity.
  - constructor; [left; intros m; reflexivity|].
    constructor; [right; intros m; reflexivity|]. constructor.
  - split; [exact Hprev | exact Hlater].
Defined.

(** The label of the row says N/A: it is passed over, and the text of the
    last cell is the status. *)
Lemma unusable_text_is_skipped_witness :
  In (get_text na_label) unusable_texts
  /\ select_one {| sel_name := Some "span"; sel_classes := ["label"]; sel_last_child := false |}
                na_row = Some na_label
  /\ row_status na_row = Some "Open"
  /\ fst (get_visa_status spain (inr page_with_na) (boot Absent)) = Ret (Some "Open").
Proof.
  split; [vm_compute; tauto|]. split; [reflexivity|].
  destruct unusable_text_is_skipped as (_ & _ & _ & _ & _ & _ & H).
  apply (H spain page_with_na (boot Absent) na_row (td "Open")).
  - reflexivity.
  - reflexivity.
  - discriminate.
  - intros sel el Hin Hsel Hnot.
    repeat (destruct Hin as [<- | Hin];
            [vm_compute in Hsel;
             first [discriminate Hsel
                   | injection Hsel as <-;
                     first [reflexivity | exfalso; apply Hnot; vm_compute; tauto]] |]).
    destruct Hin.
Defined.

(** A run that finds no state file, saves once with the write cut short
    and once completely. *)
Lemma saved_record_has_all_keys_witness :
  consistent
    (state_file
       (snd (main no_str no_bool spain
               [ {| now := "2024-05-01 12:00:00"; page := inr open_page; post := None;
                    disk := Cut 20; nap := None |};
                 open_now ]
               (boot Absent)))).
Proof.
  apply (saved_record_has_all_keys no_str no_bool spain). unfold consistent. now cbn.
Defined.

(** ** The text layer of the state file *)

Lemma encodable_ascii_tail (c : ascii) (r : string) :
  (Py.code c =? 237)%nat = false ->
  encodable (String c r) = encodable r.
Proof. intros H. cbn [encodable]. now rewrite H. Qed.

Ltac run_escape :=
  match goal with
  | |- context [escape ?c] =>
      let e := eval vm_compute in (escape c) in change (escape c) with e
  end.

Lemma continues_escape_all r x :
  continues_surrogate x = false ->
  continues_surrogate (escape_all r +:+ x) = continues_surrogate r.
Proof.
  intros Hx. destruct r as [|b r]; [exact Hx|].
  cbn [escape_all]. destruct b as [[] [] [] [] [] [] [] []]; run_escape; reflexivity.
Qed.

Lemma encodable_escape_all s x :
  continues_surrogate x = false ->
  encodable (escape_all s +:+ x) = encodable s && encodable x.
Proof.
  intros Hx. induction s as [|c s IH]; [reflexivity|].
  cbn [escape_all]. rewrite append_assoc.
  pose proof (continues_escape_all s x Hx) as Hc.
  destruct c as [[] [] [] [] [] [] [] []]; run_escape;
    cbn [String.append encodable]; rewrite ?Hc, ?IH;
    first [reflexivity
          | destruct (continues_surrogate s), (encodable s), (encodable x); reflexivity].
Qed.

Lemma encodable_encode_string s : encodable (encode_string s) = encodable s.
Proof.
  unfold encode_string. change (Py.dquote +:+ escape_all s +:+ Py.dquote)
    with (String (ascii_of_nat 34) (escape_all s +:+ Py.dquote)).
  rewrite encodable_ascii_tail by reflexivity.
  rewrite encodable_escape_all by reflexivity. apply andb_true_r.
Qed.

(** What [write_chunks] keeps is the text up to the first chunk that is
    refused. *)
Lemma write_chunks_prefix chunks :
  exists rest,
    fold_right String.append EmptyString chunks = fst (write_chunks chunks) +:+ rest
    /\ snd (write_chunks chunks) = forallb encodable chunks
    /\ (rest = EmptyString <-> forallb encodable chunks = true).
Proof.
  induction chunks as [|chunk chunks (rest & Htext & Hall & Hrest)].
  - exists EmptyString. now repeat split.
  - cbn [write_chunks forallb fold_right]. destruct (encodable chunk) eqn:He.
    + destruct (write_chunks chunks) as [text complete]. cbn [fst snd andb] in *.
      exists rest. rewrite Htext, append_assoc.
      split; [reflexivity|]. split; [exact Hall | exact Hrest].
    + cbn [fst snd andb]. eexists. split; [reflexivity|]. split; [reflexivity|].
      split; [|discriminate]. intros H.
      destruct chunk; [cbn in He; discriminate He | cbn [String.append] in H; discriminate H].
Qed.

Lemma dump_chunks_text s t c :
  fold_right String.append EmptyString (dump_chunks (state_record s t c))
  = dumps (state_record s t c).
Proof.
  rewrite dumps_state_record. unfold dump_chunks, state_record, item_chunks, encode_item.
  cbn [app flat_map fold_right fst snd]. rewrite !append_assoc. reflexivity.
Qed.

Lemma record_encodable s t c :
  forallb encodable (dump_chunks (state_record s t c))
  = encodable s && encodable t && encodable c.
Proof.
  unfold dump_chunks, state_record, item_chunks.
  cbn [app flat_map forallb fst snd]. rewrite !encodable_encode_string.
  change (encodable "{") with true. change (encodable (Py.newline +:+ "  ")) with true.
  change (encodable "status") with true. change (encodable ": ") with true.
  change (encodable ("," +:+ Py.newline +:+ "  ")) with true.
  change (encodable "last_check") with true. change (encodable "country") with true.
  change (encodable Py.newline) with true. change (encodable "}") with true.
  cbn [andb]. now rewrite andb_true_r, andb_assoc.
Qed.

(** The outcome of the writes of the record on a disk that does not fail:
    complete when the three strings can be encoded, cut short otherwise. *)
Lemma record_outcome s t c :
  (encodable s && encodable t && encodable c = true ->
   utf8_outcome (dump_chunks (state_record s t c)) = Written)
  /\ (encodable s && encodable t && encodable c = false ->
      exists kept,
        utf8_outcome (dump_chunks (state_record s t c)) = Cut kept
        /\ kept < String.length (dumps (state_record s t c))).
Proof.
  destruct (write_chunks_prefix (dump_chunks (state_record s t c)))
    as (rest & Htext & Hall & Hrest).
  rewrite dump_chunks_text in Htext. rewrite record_encodable in Hall, Hrest.
  unfold utf8_outcome. destruct (write_chunks _) as [text complete]. cbn [fst snd] in *.
  split; intros He; rewrite He in Hall; subst complete; [reflexivity|].
  exists (String.length text). split; [reflexivity|].
  rewrite Htext, length_append. destruct rest; [|cbn; lia].
  rewrite He in Hrest. discriminate (proj1 Hrest eq_refl).
Qed.

(** C6, as stated, fails: the status holds a lone surrogate.  The write of
    its chunk raises [UnicodeEncodeError] in [json.dump]; [save_state]
    logs the error and returns; the file is left with the fourteen
    characters written before, and [load_previous_state] returns
    [(None, None)], not the pair that was saved. *)
Lemma surrogate_status_is_not_read_back :
  let data := state_record surrogate_status "2024-05-01 12:00:00" "Spain" in
  let w := utf8_outcome (dump_chunks data) in
  let m' := snd (save_state spain w surrogate_status "2024-05-01 12:00:00" (boot Absent)) in
  loaded surrogate_file = (JString surrogate_status, JNull)
  /\ encodable surrogate_status = false
  /\ w = Cut 14
  /\ fst (save_state spain w surrogate_status "2024-05-01 12:00:00" (boot Absent)) = Ret tt
  /\ state_file m'
     = Content ("{" +:+ Py.newline +:+ "  " +:+ Py.dquote +:+ "status" +:+ Py.dquote +:+ ": ")
  /\ fst (load_previous_state m') = Ret (JNull, JNull).
Proof. vm_compute. repeat split. Qed.

(** C6, amended.  The text of the record is what the chunks of [json.dump]
    make together.  On a disk that does not fail, when the status, the
    timestamp and COUNTRY hold no surrogate, the write is complete,
    [load_previous_state()] then returns exactly the pair that was saved and
    leaves the machine as it is, and saving that pair again writes the same
    file.  When one of the three holds a surrogate the write is cut short
    before the end of the record, [save_state] returns all the same, and
    [load_previous_state()] then returns [(None, None)]. *)
Theorem save_load_round_trip (cfg : config) (status timestamp : string) (m : machine) :
  let data := state_record status timestamp (COUNTRY cfg) in
  let w := utf8_outcome (dump_chunks data) in
  let m' := snd (save_state cfg w status timestamp m) in
  fold_right String.append EmptyString (dump_chunks data) = dumps data
  /\ fst (save_state cfg w status timestamp m) = Ret tt
  /\ (encodable status && encodable timestamp && encodable (COUNTRY cfg) = true ->
      w = Written
      /\ load_previous_state m' = (Ret (JString status, JString timestamp), m')
      /\ state_file (snd (save_state cfg w status timestamp m')) = state_file m')
  /\ (encodable status && encodable timestamp && encodable (COUNTRY cfg) = false ->
      (exists kept, w = Cut kept /\ kept < String.length (dumps data))
      /\ fst (load_previous_state m') = Ret (JNull, JNull)).
Proof.
  cbv zeta. destruct (record_outcome status timestamp (COUNTRY cfg)) as [Hgood Hbad].
  split; [apply dump_chunks_text|]. split; [apply save_returns|]. split.
  - intros He. rewrite (Hgood He). split; [reflexivity|].
    rewrite !save_written. cbn [fst snd]. split; [|reflexivity].
    rewrite (load_content (dumps (state_record status timestamp (COUNTRY cfg))))
      by reflexivity.
    now rewrite loads_dumps_state_record.
  - intros He. destruct (Hbad He) as (kept & Hw & Hk). rewrite Hw.
    split; [now exists kept|].
    rewrite load_value.
    destruct (save_effect cfg (Cut kept) status timestamp m) as [lines ->].
    cbn [snd]. rewrite state_file_add_logs. cbn [state_file set_state_file stored].
    cbn [loaded]. now rewrite truncated_record_is_not_decoded.
Qed.

Lemma save_load_round_trip_witness :
  let w := utf8_outcome (dump_chunks (state_record "Open" "2024-05-01 12:00:00" "Spain")) in
  let m' := snd (save_state spain w "Open" "2024-05-01 12:00:00" (boot Absent)) in
  w = Written
  /\ load_previous_state m' = (Ret (JString "Open", JString "2024-05-01 12:00:00"), m').
Proof.
  destruct (save_load_round_trip spain "Open" "2024-05-01 12:00:00" (boot Absent))
    as (_ & _ & Hgood & _).
  destruct Hgood as (Hw & Hload & _); [reflexivity|].
  split; [exact Hw | exact Hload].
Defined.
(** ** Further properties *)

(** *** The fetcher *)

(** X1.  [get_visa_status] lets no exception out but an interrupt: a failed
    request and any other error of the fetch or the parse are logged as one
    ERROR record and give [None].  [None] is never returned without a
    record at WARNING or ERROR; a status is returned without any record.
    The function changes nothing but the log. *)
Theorem fetch_contains_every_error (cfg : config) (page : exn + node) (m : machine) :
  let r := get_visa_status cfg page m in
  (page <> inl KeyboardInterrupt -> exists v, fst r = Ret v)
  /\ (forall text, page = inl (RequestException text) ->
        r = (Ret None, add_log (ERROR, "Error de conexión: " +:+ text) m))
  /\ (forall text, page = inl (Exception text) ->
        r = (Ret None, add_log (ERROR, "Error procesando página web: " +:+ text) m))
  /\ (page = inl KeyboardInterrupt -> r = (Raise KeyboardInterrupt, m))
  /\ (forall s, fst r = Ret (Some s) -> snd r = m)
  /\ (fst r = Ret None ->
      exists line, snd r = add_log line m /\ (fst line = WARNING \/ fst line = ERROR))
  /\ core (snd r) = core m.
Proof.
  cbv zeta. split; [|split; [|split; [|split; [|split; [|split]]]]].
  - intros Hp. run. destruct page as [[]|soup]; cbn; eauto; [congruence|].
    destruct (scan_rows (COUNTRY cfg) (find_all "tr" soup)); cbn; eauto.
  - now intros text ->.
  - now intros text ->.
  - now intros ->.
  - intros s. run. destruct page as [[]|soup]; cbn; try discriminate.
    destruct (scan_rows (COUNTRY cfg) (find_all "tr" soup)); cbn; [reflexivity | discriminate].
  - run. destruct page as [[]|soup]; cbn; try discriminate; eauto.
    destruct (scan_rows (COUNTRY cfg) (find_all "tr" soup)); cbn; [discriminate|]. eauto.
  - run. destruct page as [[]|soup]; cbn; try reflexivity.
    destruct (scan_rows (COUNTRY cfg) (find_all "tr" soup)); reflexivity.
Qed.

(** *** The notifier *)

(** X2.  [send_telegram_message] returns [True] exactly when both
    credentials are set and the request succeeds, and [False] exactly when
    a credential is a placeholder or the request fails with a
    [RequestException].  Any other exception of the request leaves the
    function.  With a placeholder the outcome does not depend on the
    request.  The function changes nothing but the log. *)
Theorem send_reports_delivery
  (cfg : config) (post : option exn) (message : string) (m : machine) :
  let r := send_telegram_message cfg post message m in
  (fst r = Ret true <-> unconfigured cfg = false /\ post = None)
  /\ (fst r = Ret false <->
      unconfigured cfg = true \/ exists text, post = Some (RequestException text))
  /\ (forall e, fst r = Raise e <->
                unconfigured cfg = false /\ post = Some e
                /\ forall text, e <> RequestException text)
  /\ (unconfigured cfg = true ->
      forall post', send_telegram_message cfg post' message m = r)
  /\ previous_status (snd r) = previous_status m
  /\ consecutive_errors (snd r) = consecutive_errors m
  /\ state_file (snd r) = state_file m
  /\ calls (snd r) = calls m ++ [Send message].
Proof.
  cbv zeta. unfold unconfigured. run.
  destruct (String.eqb (BOT_TOKEN cfg) "TU_BOT_TOKEN_AQUI"
            || String.eqb (CHAT_ID cfg) "TU_CHAT_ID_AQUI"); cbn.
  - split; [|split; [|split; [|split]]].
    + split; [discriminate | now intros [? _]].
    + split; [now left | reflexivity].
    + intros e. split; [discriminate | now intros [? _]].
    + reflexivity.
    + now repeat split.
  - split; [|split; [|split; [|split]]].
    + destruct post as [[]|]; cbn; split; try discriminate; try reflexivity;
        try (now intros [_ ?]). now split.
    + destruct post as [[text|text|]|]; cbn; split; try discriminate; try reflexivity.
      * intros _. right. now exists text.
      * intros [? | [? ?]]; discriminate.
      * intros [? | [? ?]]; discriminate.
      * intros [? | [? ?]]; discriminate.
    + intros e. destruct post as [[text|text|]|]; cbn; split; try discriminate.
      * intros (_ & [= <-] & H). now destruct (H text).
      * intros [= <-]. split; [reflexivity|]. split; [reflexivity|]. discriminate.
      * now intros (_ & [= <-] & _).
      * intros [= <-]. split; [reflexivity|]. split; [reflexivity|]. discriminate.
      * now intros (_ & [= <-] & _).
      * now intros (_ & ? & _).
    + discriminate.
    + destruct post as [[]|]; cbn; now repeat split.
Qed.

(** *** Start-up checks *)

Lemma warn_each_logs issues m :
  warn_each issues m = (Ret tt, add_logs (map (fun i => (WARNING, i)) issues) m).
Proof.
  revert m. induction issues as [|i issues IH]; intros m; [reflexivity|].
  cbn [warn_each]. unfold logger, update, mbind, M_bind. cbn [is_debug]. now rewrite IH.
Qed.

(** X3.  [validate_config] only logs, and returns.  It logs no WARNING when
    both credentials are set; otherwise it logs a heading, one WARNING for
    each credential left at its placeholder and a closing WARNING.  It
    warns exactly when the notifier would refuse to send: no WARNING is
    logged if and only if a notification whose request succeeds is reported
    as delivered. *)
Theorem validate_config_only_warns (cfg : config) (m : machine) :
  exists lines,
    validate_config cfg m = (Ret tt, add_logs lines m)
    /\ (warnings lines = 0 <-> unconfigured cfg = false)
    /\ (unconfigured cfg = true ->
        warnings lines
        = 2 + (if String.eqb (BOT_TOKEN cfg) "TU_BOT_TOKEN_AQUI" then 1 else 0)
            + (if String.eqb (CHAT_ID cfg) "TU_CHAT_ID_AQUI" then 1 else 0))
    /\ (In (WARNING, "- BOT_TOKEN no configurado") lines
        <-> BOT_TOKEN cfg = "TU_BOT_TOKEN_AQUI")
    /\ (In (WARNING, "- CHAT_ID no configurado") lines
        <-> CHAT_ID cfg = "TU_CHAT_ID_AQUI")
    /\ (warnings lines = 0 <->
        forall message m', fst (send_telegram_message cfg None message m') = Ret true).
Proof.
  assert (Hsend : forall b : bool,
            unconfigured cfg = b ->
            (forall message m', fst (send_telegram_message cfg None message m') = Ret true)
            <-> b = false).
  { intros b Hb. unfold unconfigured in Hb. run. rewrite Hb. destruct b; cbn.
    - split; [|discriminate]. intros H. specialize (H EmptyString m). discriminate.
    - split; reflexivity. }
  unfold validate_config, unconfigured in *.
  destruct (String.eqb_spec (BOT_TOKEN cfg) "TU_BOT_TOKEN_AQUI") as [Hb | Hb],
           (String.eqb_spec (CHAT_ID cfg) "TU_CHAT_ID_AQUI") as [Hc | Hc];
    cbn [app orb] in *; unfold logger, update, mbind, M_bind, mret, M_ret;
    cbn [is_debug warn_each].
  - eexists [_; _; _; _; _; _; _; _; _]. split; [reflexivity|].
    cbn. rewrite (Hsend true eq_refl).
    repeat split; try discriminate; try tauto; intuition (discriminate || eauto).
  - eexists [_; _; _; _; _; _; _; _]. split; [reflexivity|].
    cbn. rewrite (Hsend true eq_refl).
    repeat split; try discriminate; try tauto; intuition (discriminate || eauto).
  - eexists [_; _; _; _; _; _; _; _]. split; [reflexivity|].
    cbn. rewrite (Hsend true eq_refl).
    repeat split; try discriminate; try tauto; intuition (discriminate || eauto).
  - eexists [_; _; _; _; _]. split; [reflexivity|].
    cbn. rewrite (Hsend false eq_refl).
    repeat split; try discriminate; try tauto; intuition (discriminate || eauto).
Qed.

(** *** Configuration *)

(** X20.  Whether notifications can be sent is decided by two variables of
    the environment alone: the notifier makes a request exactly when
    TELEGRAM_BOT_TOKEN and TELEGRAM_CHAT_ID are both set to something other
    than their placeholders; a variable set to the empty string counts as
    set.  No variable other than these two, CHECK_INTERVAL and COUNTRY has
    any effect on the configuration. *)
Theorem credentials_decide_notifications
  (environ : gmap string string) (dir : string) (cfg : config) :
  configuration environ dir = Some cfg ->
  (unconfigured cfg = false <->
   (exists a, environ !! "TELEGRAM_BOT_TOKEN" = Some a /\ a <> "TU_BOT_TOKEN_AQUI")
   /\ (exists b, environ !! "TELEGRAM_CHAT_ID" = Some b /\ b <> "TU_CHAT_ID_AQUI"))
  /\ (forall key value,
        ~ In key ["TELEGRAM_BOT_TOKEN"; "TELEGRAM_CHAT_ID"; "CHECK_INTERVAL"; "COUNTRY"] ->
        configuration (<[key := value]> environ) dir = Some cfg).
Proof.
  unfold configuration, environ_get.
  destruct (Py.int (default "300" (environ !! "CHECK_INTERVAL"))) as [interval|] eqn:Hi;
    [|discriminate].
  intros [= <-]. split.
  - unfold unconfigured. cbn [BOT_TOKEN CHAT_ID]. rewrite orb_false_iff.
    destruct (environ !! "TELEGRAM_BOT_TOKEN") as [a|], (environ !! "TELEGRAM_CHAT_ID") as [b|];
      cbn [default]; rewrite ?String.eqb_refl.
    + split.
      * intros [Ha Hb]. apply String.eqb_neq in Ha, Hb. split; eauto.
      * intros [(a' & [= <-] & Ha) (b' & [= <-] & Hb)]. now rewrite !String.eqb_neq.
    + split; [now intros [_ ?] | now intros [_ (? & ? & _)]].
    + split; [now intros [? _] | now intros [(? & ? & _) _]].
    + split; [now intros [? _] | now intros [(? & ? & _) _]].
  - intros key value Hk. cbn [In] in Hk.
    rewrite !lookup_insert_ne by (intros ->; apply Hk; intuition congruence). now rewrite Hi.
Qed.

(** *** The scan of a row *)

Lemma selected_status_skips sels1 sels2 row :
  (forall sel el, In sel sels1 -> select_one sel row = Some el ->
                  usable (get_text el) = false) ->
  selected_status (sels1 ++ sels2) row = selected_status sels2 row.
Proof.
  induction sels1 as [|sel sels1 IH]; intros H; [reflexivity|].
  cbn [app selected_status].
  destruct (select_one sel row) as [el|] eqn:Hsel.
  - rewrite (H sel el (or_introl eq_refl) Hsel). apply IH.
    intros sel' el' Hin. apply H. now right.
  - apply IH. intros sel' el' Hin. apply H. now right.
Qed.

(** X4.  The selectors are tried in the order of the list and the first one
    that selects an element with a usable text decides: when every earlier
    selector selects nothing or an element whose text is unusable, the text
    of the element of this selector is the status of the row, whatever the
    later selectors and the last cell hold; and it is what
    [get_visa_status] returns when the row is the first one that names the
    country. *)
Theorem first_usable_selector_decides
  (sels1 sels2 : list selector) (sel : selector) (row el : node) :
  status_selectors = sels1 ++ sel :: sels2 ->
  (forall sel' el', In sel' sels1 -> select_one sel' row = Some el' ->
                    usable (get_text el') = false) ->
  select_one sel row = Some el ->
  usable (get_text el) = true ->
  row_status row = Some (get_text el)
  /\ forall cfg soup m,
       country_row (COUNTRY cfg) soup = Some row ->
       fst (get_visa_status cfg (inr soup) m) = Ret (Some (get_text el)).
Proof.
  intros Hsels Hskip Hsel Huse.
  assert (Hrow : row_status row = Some (get_text el)).
  { unfold row_status. rewrite Hsels, (selected_status_skips _ _ _ Hskip).
    cbn [selected_status]. now rewrite Hsel, Huse. }
  split; [exact Hrow|]. intros cfg soup m Hc.
  rewrite get_visa_status_page. f_equal. now apply (scan_rows_first _ _ row).
Qed.

Lemma contains_empty s : Py.contains EmptyString s = true.
Proof. now destruct s. Qed.

Lemma find_same {A} (f g : A -> bool) l : (forall a, f a = g a) -> find f l = find g l.
Proof.
  intros H. induction l as [|a l IH]; [reflexivity|]. cbn. now rewrite H, IH.
Qed.

Lemma scan_rows_some country rows row :
  In row rows -> Py.contains country (get_text row) = true -> has_status row = true ->
  exists s, scan_rows country rows = Some s.
Proof.
  intros Hin Hc Hs. rewrite scan_rows_find.
  destruct (find _ rows) as [r|] eqn:Hfind.
  - apply find_some in Hfind. destruct Hfind as [_ Hr].
    apply andb_true_iff in Hr. destruct Hr as [_ Hr]. unfold has_status in Hr.
    destruct (row_status r) as [s|]; [now exists s | discriminate].
  - apply (find_none _ _ Hfind) in Hin. now rewrite Hc, Hs in Hin.
Qed.

(** X5.  The country is looked for as a substring of the text of a row, with
    nothing asked of what stands around it: a row whose text holds the
    configured country anywhere and that has a status keeps
    [get_visa_status] from returning [None], and when it is the first row
    of the page its status is returned.  With an empty COUNTRY every row
    matches, and the status is that of the first row of the page that has
    one. *)
Theorem country_is_matched_as_substring (cfg : config) (soup : node) (m : machine) :
  (forall row a b,
     In row (find_all "tr" soup) ->
     get_text row = a +:+ COUNTRY cfg +:+ b ->
     has_status row = true ->
     exists s, fst (get_visa_status cfg (inr soup) m) = Ret (Some s))
  /\ (forall row rows a b s,
        find_all "tr" soup = row :: rows ->
        get_text row = a +:+ COUNTRY cfg +:+ b ->
        row_status row = Some s ->
        fst (get_visa_status cfg (inr soup) m) = Ret (Some s))
  /\ (COUNTRY cfg = EmptyString ->
      fst (get_visa_status cfg (inr soup) m)
      = Ret (match find has_status (find_all "tr" soup) with
             | Some row => row_status row
             | None => None
             end)).
Proof.
  split; [|split].
  - intros row a b Hin Ht Hs. rewrite get_visa_status_page.
    destruct (scan_rows_some (COUNTRY cfg) _ row Hin) as [s ->]; [|exact Hs | now exists s].
    rewrite Ht. apply contains_skip, contains_here.
  - intros row rows a b s Hrows Ht Hs. rewrite get_visa_status_page, Hrows.
    cbn [scan_rows]. rewrite Ht, (contains_skip _ a _ (contains_here _ b)). now rewrite Hs.
  - intros Hc. rewrite get_visa_status_page, scan_rows_find, Hc. f_equal.
    erewrite find_same; [reflexivity|]. intros row. now rewrite contains_empty.
Qed.

(** *** The state store *)

(** X6.  [save_state] never raises.  A complete write logs nothing; a write
    that fails is logged as one ERROR record.  When the file cannot be
    opened it stays as it was.  When the write is cut short before the end
    of the record, what is left in the file is not read back as a state:
    [load_previous_state] logs an error and returns [(None, None)].  The
    function changes nothing else but the file and the log. *)
Theorem save_failure_is_logged_not_raised
  (cfg : config) (w : write_outcome) (S ts : string) (m : machine) :
  let text := dumps (state_record S ts (COUNTRY cfg)) in
  let r := save_state cfg w S ts m in
  fst r = Ret tt
  /\ (w = Written -> log (snd r) = log m)
  /\ (w <> Written -> exists line, log (snd r) = log m ++ [(ERROR, line)])
  /\ (w = OpenFailed -> state_file (snd r) = state_file m)
  /\ (forall kept, w = Cut kept -> kept < String.length text ->
        exists line, load_previous_state (snd r)
                     = (Ret (JNull, JNull), add_log (ERROR, line) (snd r)))
  /\ (forall kept, w = Cut kept -> String.length text <= kept ->
        load_previous_state (snd r) = (Ret (JString S, JString ts), snd r))
  /\ previous_status (snd r) = previous_status m
  /\ consecutive_errors (snd r) = consecutive_errors m
  /\ calls (snd r) = calls m ++ [Save S ts].
Proof.
  cbv zeta. split; [apply save_returns|].
  split; [|split; [|split; [|split; [|split]]]].
  - now intros ->.
  - destruct w; [now intros [] | |]; intros _; eexists; reflexivity.
  - now intros ->.
  - intros kept -> Hk.
    match goal with |- context [load_previous_state ?mm] =>
      rewrite (load_content (String.substring 0 kept (dumps (state_record S ts (COUNTRY cfg)))) mm)
        by reflexivity end.
    rewrite truncated_record_is_not_decoded by exact Hk. eauto.
  - intros kept -> Hk.
    match goal with |- context [load_previous_state ?mm] =>
      rewrite (load_content (dumps (state_record S ts (COUNTRY cfg))) mm) end.
    + now rewrite loads_dumps_state_record.
    + run. cbn [snd state_file set_state_file add_log add_call].
      now rewrite substring_all by exact Hk.
  - destruct w; now repeat split.
Qed.

(** *** The passes of the loop, case by case *)

Lemma differs_known S P : differs S P = true -> P <> JString S.
Proof. intros H ->. cbn in H. now rewrite String.eqb_refl in H. Qed.

Lemma send_raises_post cfg t e : send_raises cfg t e -> post t = Some e.
Proof.
  intros H. specialize (H EmptyString (boot Absent)). revert H. run.
  destruct (_ || _); [discriminate|].
  destruct (post t) as [[]|]; cbn; try discriminate; now intros [= <-].
Qed.

Lemma send_returns_or_raises cfg t b e : send_returns cfg t b -> send_raises cfg t e -> False.
Proof.
  intros Hb He. specialize (Hb EmptyString (boot Absent)).
  specialize (He EmptyString (boot Absent)). congruence.
Qed.

Lemma send_raise_inv cfg post message m e :
  fst (send_telegram_message cfg post message m) = Raise e ->
  unconfigured cfg = false /\ post = Some e /\ forall text, e <> RequestException text.
Proof.
  unfold unconfigured. run. destruct (_ || _); [discriminate|].
  destruct post as [[]|]; cbn; try discriminate; intros [= <-]; now repeat split.
Qed.

Section Run.

Variable py_str : json -> string.
Variable py_bool : json -> bool.

Ltac open_start :=
  unfold startup, logger, update, mbind, M_bind, mret, M_ret; cbn [is_debug].

Ltac open_run := unfold main, mbind, M_bind.

Ltac open_pass :=
  unfold iteration, attempt, get_visa_status, try_except, logger, update, read, raise,
    mbind, M_bind, mret, M_ret;
  cbn [is_debug].

Ltac open_attempt :=
  unfold attempt, logger, update, read, mbind, M_bind, mret, M_ret; cbn [is_debug].

Ltac open_request :=
  unfold iteration, attempt, send_telegram_message, try_except, logger, update, read,
    mbind, M_bind, mret, M_ret;
  cbn [is_debug].

Ltac open_messages := unfold start_message, change_message, error_msg.

#[local] Abbreviation attempt := (attempt py_str py_bool).
#[local] Abbreviation iteration := (iteration py_str py_bool).
#[local] Abbreviation loop := (loop py_str py_bool).
#[local] Abbreviation error_msg := (error_msg py_str py_bool).
#[local] Abbreviation change_message := (change_message py_str).
#[local] Abbreviation news := (news py_str).
#[local] Abbreviation startup := (startup py_str py_bool).
#[local] Abbreviation main := (main py_str py_bool).

(** What a pass returns and leaves, by what it meets. *)
Lemma pass_cases cfg t m :
  let r := iteration cfg t m in
  let P := previous_status m in
  let n := (consecutive_errors m + 1)%Z in
  let record S := dumps (state_record S (now t) (COUNTRY cfg)) in
  (exists S, fetch_returns cfg t (Some S) /\ P = JString S
             /\ fst r = Ret Continue
             /\ core (snd r)
                = (JString S, 0%Z, stored (disk t) (record S) (state_file m),
                   calls m ++ [Save S (now t)]))
  \/ (exists S b, fetch_returns cfg t (Some S) /\ P <> JString S /\ send_returns cfg t b
                  /\ fst r = Ret Continue
                  /\ core (snd r)
                     = (JString S, 0%Z, stored (disk t) (record S) (state_file m),
                        calls m ++ [Send (news cfg P S (now t)); Save S (now t)]))
  \/ (exists S e, fetch_returns cfg t (Some S) /\ P <> JString S /\ send_raises cfg t e
                  /\ fst r = Ret (if is_Exception e then Continue else Break)
                  /\ core (snd r)
                     = (P, (if is_Exception e then 1 else 0)%Z, state_file m,
                        calls m ++ [Send (news cfg P S (now t))]))
  \/ (fetch_returns cfg t None /\ (n < max_consecutive_errors)%Z
      /\ fst r = Ret Continue
      /\ core (snd r) = (P, n, state_file m, calls m))
  \/ (exists b, fetch_returns cfg t None /\ (max_consecutive_errors <= n)%Z
                /\ send_returns cfg t b
                /\ fst r = Ret Continue
                /\ core (snd r) = (P, 0%Z, state_file m, calls m ++ [Send (error_msg n P)]))
  \/ (exists e, fetch_returns cfg t None /\ (max_consecutive_errors <= n)%Z
                /\ send_raises cfg t e
                /\ fst r = Ret (if is_Exception e then Continue else Break)
                /\ core (snd r)
                   = (P, (if is_Exception e then n + 1 else n)%Z, state_file m,
                      calls m ++ [Send (error_msg n P)]))
  \/ (page t = inl KeyboardInterrupt /\ fst r = Ret Break /\ core (snd r) = core m).
Proof.
  cbv zeta.
  destruct (fetch_cases cfg t) as [[S Hf] | [Hf | Hp]].
  - destruct (differs S (previous_status m)) eqn:Hd.
    + pose proof (differs_known _ _ Hd) as HP.
      destruct (send_cases cfg t) as [[b Hs] | [e Hs]].
      * right; left. exists S, b.
        destruct (pass_changed py_str py_bool cfg t m S b Hf Hd Hs) as [Hc Hcore]. tauto.
      * right; right; left. exists S, e.
        destruct (pass_changed_raises py_str py_bool cfg t m S e Hf Hd Hs) as [Hc Hcore].
        tauto.
    + apply differs_false in Hd. left. exists S.
      destruct (pass_unchanged py_str py_bool cfg t m S Hf Hd) as [Hc Hcore]. tauto.
  - destruct (Z.lt_ge_cases (consecutive_errors m + 1) max_consecutive_errors) as [Hlt | Hge].
    + do 3 right; left.
      destruct (pass_failed_quiet py_str py_bool cfg t m Hf Hlt) as [Hc Hcore]. tauto.
    + destruct (send_cases cfg t) as [[b Hs] | [e Hs]].
      * do 4 right; left. exists b.
        destruct (pass_failed_alert py_str py_bool cfg t m b Hf Hge Hs) as [Hc Hcore]. tauto.
      * do 5 right; left. exists e.
        destruct (pass_failed_alert_raises py_str py_bool cfg t m e Hf Hge Hs) as [Hc Hcore].
        tauto.
  - do 6 right. destruct (pass_interrupted py_str py_bool cfg t m Hp) as [Hc Hcore]. tauto.
Qed.

(** A property of the machine that the log does not touch and every pass
    keeps holds when the loop ends. *)
Lemma loop_keeps (Q : tick -> Prop) (I : machine -> Prop) cfg :
  (forall l m, I m -> I (add_log l m)) ->
  (forall t m, Q t -> I m -> I (snd (iteration cfg t m))) ->
  forall ticks m, Forall Q ticks -> I m -> I (snd (loop cfg ticks m)).
Proof.
  intros Hlog Hpass ticks. induction ticks as [|t rest IH]; intros m Hall Hm; [exact Hm|].
  inversion Hall as [|? ? Ht Hrest]; subst.
  rewrite loop_cons. pose proof (Hpass t m Ht Hm) as H1.
  destruct (iteration cfg t m) as [[[]|e] m']; cbn [fst snd] in *; try exact H1.
  destruct (CHECK_INTERVAL cfg <? 0)%Z; [now apply Hlog|].
  destruct (nap t); [now apply Hlog|]. apply IH; [exact Hrest|]. now apply Hlog.
Qed.

Lemma startup_state cfg f :
  exists m1, startup cfg (boot f) = (Ret tt, m1)
             /\ core m1 = (fst (loaded f), 0%Z, f, []).
Proof.
  open_start.
  match goal with |- context [validate_config cfg ?mm] =>
    destruct (validate_config_returns cfg mm) as [lines ->] end.
  match goal with |- context [load_previous_state ?mm] =>
    pose proof (load_value mm) as Hv; destruct (load_effect mm) as (r & lines' & Hl) end.
  rewrite Hl in Hv |- *. cbn [fst snd] in *. injection Hv as ->.
  rewrite state_file_add_logs. cbn [state_file add_log boot].
  destruct (truthy py_bool (fst (loaded f))).
  - eexists. split; [reflexivity|]. unfold core. cbn.
    now rewrite state_file_add_logs, calls_add_logs, state_file_add_logs, calls_add_logs.
  - eexists. split; [reflexivity|]. unfold core. cbn.
    now rewrite state_file_add_logs, calls_add_logs, state_file_add_logs, calls_add_logs.
Qed.

Lemma main_from cfg f ticks :
  exists m1, core m1 = (fst (loaded f), 0%Z, f, [])
             /\ main cfg ticks (boot f) = loop cfg ticks m1.
Proof.
  destruct (startup_state cfg f) as (m1 & Hs & Hcore).
  exists m1. split; [exact Hcore|]. open_run. now rewrite Hs.
Qed.


Lemma fetch_one cfg t a b : fetch_returns cfg t a -> fetch_returns cfg t b -> a = b.
Proof.
  intros Ha Hb. specialize (Ha (boot Absent)). specialize (Hb (boot Absent)). congruence.
Qed.

Lemma fetch_uninterrupted cfg t r : fetch_returns cfg t r -> page t <> inl KeyboardInterrupt.
Proof. intros H Hp. specialize (H (boot Absent)). now rewrite Hp in H. Qed.

Lemma get_missing key data : (forall v, ~ In (key, v) data) -> Json.get key data = JNull.
Proof.
  induction data as [|[k v] data IH]; intros H; [reflexivity|].
  cbn [Json.get]. destruct (String.eqb_spec k key) as [-> | Hk].
  - destruct (H v). now left.
  - cbn [andb]. apply IH. intros v' Hin. apply (H v'). now right.
Qed.

Lemma first_pass cfg f t :
  exists m1, core m1 = (fst (loaded f), 0%Z, f, [])
             /\ core (snd (main cfg [t] (boot f))) = core (snd (iteration cfg t m1)).
Proof.
  destruct (main_from cfg f [t]) as (m1 & Hcore & ->).
  exists m1. split; [exact Hcore | apply loop_last].
Qed.

Lemma first_pass_calls cfg f t S :
  fetch_returns cfg t (Some S) ->
  send_completes cfg t ->
  let P := fst (loaded f) in
  let m := snd (main cfg [t] (boot f)) in
  previous_status m = JString S
  /\ (P = JString S -> calls m = [Save S (now t)])
  /\ (P <> JString S -> calls m = [Send (news cfg P S (now t)); Save S (now t)]).
Proof.
  intros Hf [b Hs]. cbv zeta.
  destruct (first_pass cfg f t) as (m1 & Hone & Hcore).
  apply core_fields in Hone. destruct Hone as (P1 & _ & _ & C1).
  destruct (differs S (previous_status m1)) eqn:Hd.
  - destruct (pass_changed py_str py_bool cfg t m1 S b Hf Hd Hs) as [_ Hc].
    rewrite Hc in Hcore. apply core_fields in Hcore. destruct Hcore as (HP & _ & _ & HC).
    rewrite P1, C1 in HC. apply differs_known in Hd. rewrite P1 in Hd.
    split; [exact HP|]. split; [intros H; now destruct Hd | intros _; exact HC].
  - apply differs_false in Hd.
    destruct (pass_unchanged py_str py_bool cfg t m1 S Hf Hd) as [_ Hc].
    rewrite Hc in Hcore. apply core_fields in Hcore. destruct Hcore as (HP & _ & _ & HC).
    rewrite C1 in HC. rewrite P1 in Hd.
    split; [exact HP|]. split; [intros _; exact HC | intros H; now destruct H].
Qed.

(** X7.  [main] takes up the status of the state file: it is what
    [load_previous_state] returns for the file the process finds.  In the
    first pass, when the fetch returns S and the notifier call, if one is
    made, returns: with S in the file nothing is sent and S is saved again;
    with no status in the file the start message is sent; with another
    value there the change message from that value to S is sent.  No status
    is in the file when the file is missing, cannot be read, holds no JSON
    object, or holds an object without the key [status]. *)
Theorem main_resumes_from_state_file (cfg : config) (f : file) (t : tick) (S : string) :
  fetch_returns cfg t (Some S) ->
  send_completes cfg t ->
  let P := fst (loaded f) in
  let m := snd (main cfg [t] (boot f)) in
  fst (load_previous_state (boot f)) = Ret (loaded f)
  /\ previous_status m = JString S
  /\ (P = JString S -> calls m = [Save S (now t)])
  /\ (P = JNull -> calls m = [Send (start_message cfg S); Save S (now t)])
  /\ (P <> JNull -> P <> JString S ->
      calls m = [Send (change_message cfg P S (now t)); Save S (now t)])
  /\ (f = Absent \/ f = Unreadable
      \/ (exists text, f = Content text /\ forall data, loads text <> Some (JObject data))
      \/ (exists text data, f = Content text /\ loads text = Some (JObject data)
                            /\ forall v, ~ In ("status", v) data) ->
      P = JNull).
Proof.
  intros Hf Hs. cbv zeta.
  destruct (first_pass_calls cfg f t S Hf Hs) as (HP & Hsame & Hnews).
  split; [apply (load_value (boot f))|]. split; [exact HP|]. split; [exact Hsame|].
  split; [|split].
  - intros HN. rewrite Hnews; [|rewrite HN; discriminate]. unfold news. now rewrite HN.
  - intros HN HS. rewrite (Hnews HS). unfold news. now destruct (fst (loaded f)).
  - intros [-> | [-> | [(text & -> & Hno) | (text & data & -> & Hl & Hno)]]];
      try reflexivity; cbn [loaded].
    + destruct (loads text) as [[| | | | |data]|]; try reflexivity. now destruct (Hno data).
    + rewrite Hl. cbn [fst]. now apply get_missing.
Qed.

Lemma save_leaves cfg w S ts m :
  state_file (snd (save_state cfg w S ts m))
  = stored w (dumps (state_record S ts (COUNTRY cfg))) (state_file m).
Proof.
  destruct (save_effect cfg w S ts m) as [lines ->]. cbn [snd].
  now rewrite state_file_add_logs.
Qed.

Lemma loaded_record S ts c : loaded (Content (dumps (state_record S ts c))) = (JString S, JString ts).
Proof. cbn [loaded]. now rewrite loads_dumps_state_record. Qed.

Lemma loaded_cut S ts c kept :
  kept < String.length (dumps (state_record S ts c)) ->
  loaded (Content (String.substring 0 kept (dumps (state_record S ts c)))) = (JNull, JNull).
Proof. intros H. cbn [loaded]. now rewrite truncated_record_is_not_decoded. Qed.

(** X8.  What [save_state] leaves is what the next run of the program starts
    from.  After a complete write of the status S, a run whose first fetch
    returns S sends nothing, and one whose first fetch returns another
    status sends the change message from S to it.  After a write that was
    cut short the status is lost: the next run sends the start message.
    When the file could not be opened the next run behaves as if
    [save_state] had not been called. *)
Theorem restart_after_save
  (cfg : config) (w : write_outcome) (S ts : string) (m0 : machine) (t : tick) (S' : string) :
  fetch_returns cfg t (Some S') ->
  send_completes cfg t ->
  let f := state_file (snd (save_state cfg w S ts m0)) in
  let text := dumps (state_record S ts (COUNTRY cfg)) in
  let m := snd (main cfg [t] (boot f)) in
  (w = Written \/ (exists kept, w = Cut kept /\ String.length text <= kept) ->
   (S' = S -> calls m = [Save S (now t)])
   /\ (S' <> S ->
       calls m = [Send (change_message cfg (JString S) S' (now t)); Save S' (now t)]))
  /\ (forall kept, w = Cut kept -> kept < String.length text ->
                   calls m = [Send (start_message cfg S'); Save S' (now t)])
  /\ (w = OpenFailed -> main cfg [t] (boot f) = main cfg [t] (boot (state_file m0))).
Proof.
  intros Hf Hs. cbv zeta. rewrite save_leaves.
  split; [|split].
  - intros Hw.
    assert (Hl : loaded (stored w (dumps (state_record S ts (COUNTRY cfg))) (state_file m0))
                 = (JString S, JString ts)).
    { destruct Hw as [-> | (kept & -> & Hk)]; cbn [stored].
      - apply loaded_record.
      - rewrite substring_all by exact Hk. apply loaded_record. }
    destruct (first_pass_calls cfg
                (stored w (dumps (state_record S ts (COUNTRY cfg))) (state_file m0))
                t S' Hf Hs) as (_ & Hsame & Hnews).
    rewrite Hl in Hsame, Hnews. cbn [fst] in Hsame, Hnews.
    split.
    + intros ->. now apply Hsame.
    + intros Hne. apply Hnews. congruence.
  - intros kept -> Hk. cbn [stored].
    destruct (first_pass_calls cfg (Content (String.substring 0 kept
                (dumps (state_record S ts (COUNTRY cfg))))) t S' Hf Hs) as (_ & _ & Hnews).
    rewrite loaded_cut in Hnews by exact Hk. cbn [fst] in Hnews. now apply Hnews.
  - now intros ->.
Qed.

(** X9.  An interrupt ends the loop: [main] returns, without the sleep and
    without a further pass.  Raised while the page is fetched, it leaves
    the machine as it was, but for two records in the log.  Raised while a
    first or changed status is being notified, it ends the loop before the
    status is remembered or saved, so that the next run reports it
    again. *)
Theorem interrupt_ends_the_loop (cfg : config) (t : tick) (rest : list tick) (m : machine) :
  (page t = inl KeyboardInterrupt ->
   loop cfg (t :: rest) m
   = (Ret tt,
      add_log (INFO, "Deteniendo el monitor por solicitud del usuario...")
        (add_log (INFO, "Verificando estado... (" +:+ now t +:+ ")") m)))
  /\ (forall S, fetch_returns cfg t (Some S) ->
                previous_status m <> JString S ->
                send_raises cfg t KeyboardInterrupt ->
                fst (loop cfg (t :: rest) m) = Ret tt
                /\ previous_status (snd (loop cfg (t :: rest) m)) = previous_status m
                /\ state_file (snd (loop cfg (t :: rest) m)) = state_file m
                /\ calls (snd (loop cfg (t :: rest) m))
                   = calls m ++ [Send (news cfg (previous_status m) S (now t))])
  /\ (fst (iteration cfg t m) = Ret Break ->
      loop cfg (t :: rest) m = (Ret tt, snd (iteration cfg t m))).
Proof.
  split; [|split].
  - intros Hp. rewrite loop_cons. open_pass. now rewrite Hp.
  - intros S Hf HP Hs.
    destruct (pass_changed_raises py_str py_bool cfg t m S KeyboardInterrupt Hf
                (differs_true _ _ HP) Hs) as [Hc Hcore].
    cbn [is_Exception] in Hc, Hcore. rewrite loop_cons.
    destruct (iteration cfg t m) as [[[]|e] m']; cbn [fst snd] in *; try discriminate.
    apply core_fields in Hcore. now destruct Hcore as (? & _ & ? & ?).
  - intros Hb. rewrite loop_cons.
    destruct (iteration cfg t m) as [[[]|e] m']; cbn [fst snd] in *; (discriminate || reflexivity).
Qed.

Lemma pass_continues cfg t m :
  page t <> inl KeyboardInterrupt -> post t <> Some KeyboardInterrupt ->
  fst (iteration cfg t m) = Ret Continue.
Proof.
  intros Hp Hq.
  assert (Hexc : forall e, send_raises cfg t e -> is_Exception e = true).
  { intros e He. apply send_raises_post in He. destruct e; try reflexivity. now destruct Hq. }
  destruct (pass_cases cfg t m)
    as [(S & _ & _ & Hc & _) | [(S & b & _ & _ & _ & Hc & _) | [(S & e & _ & _ & He & Hc & _)
       | [(_ & _ & Hc & _) | [(b & _ & _ & _ & Hc & _) | [(e & _ & _ & He & Hc & _)
       | (Hi & _)]]]]]]; try exact Hc.
  - now rewrite (Hexc e He) in Hc.
  - now rewrite (Hexc e He) in Hc.
  - now destruct Hp.
Qed.

(** X10.  [time.sleep] stands outside the [try]: when it raises, because
    CHECK_INTERVAL is negative or because the sleep is cut short by an
    interrupt or another exception, that exception leaves [main].  No later
    pass is made, and unless the pass itself was interrupted [main] ends
    with the exception of the sleep: the [ValueError] of [time.sleep] for a
    negative length, else the one that cut the sleep short. *)
Theorem sleep_failure_ends_main (cfg : config) (f : file) (t : tick) (rest : list tick) :
  ~ sleeps cfg t ->
  main cfg (t :: rest) (boot f) = main cfg [t] (boot f)
  /\ (page t <> inl KeyboardInterrupt -> post t <> Some KeyboardInterrupt ->
      exists e,
        fst (main cfg (t :: rest) (boot f)) = Raise e
        /\ ((CHECK_INTERVAL cfg < 0)%Z -> e = Exception "sleep length must be non-negative")
        /\ ((0 <= CHECK_INTERVAL cfg)%Z -> nap t = Some e)).
Proof.
  intros Hz. destruct (startup_state cfg f) as (m1 & Hs & _).
  open_run. rewrite Hs, !loop_cons. split.
  - destruct (iteration cfg t m1) as [[[]|e] m']; try reflexivity.
    destruct (Z.ltb_spec (CHECK_INTERVAL cfg) 0); [reflexivity|].
    destruct (nap t) eqn:Hn; [reflexivity|]. destruct Hz. now split.
  - intros Hp Hq. pose proof (pass_continues cfg t m1 Hp Hq) as Hc.
    destruct (iteration cfg t m1) as [[[]|e] m']; cbn [fst] in Hc; try discriminate.
    destruct (Z.ltb_spec (CHECK_INTERVAL cfg) 0).
    + eexists. split; [reflexivity|]. split; [reflexivity | lia].
    + destruct (nap t) as [e|] eqn:Hn; [|destruct Hz; now split].
      exists e. split; [reflexivity|]. split; [lia | reflexivity].
Qed.

Lemma loop_returns cfg ticks m : Forall (sleeps cfg) ticks -> fst (loop cfg ticks m) = Ret tt.
Proof.
  revert m. induction ticks as [|t rest IH]; intros m Hall; [reflexivity|].
  inversion Hall as [|? ? [Hpos Hnap] Hrest]; subst. rewrite loop_cons, Hnap.
  destruct (iteration_returns py_str py_bool cfg t m) as [c Hc].
  destruct (iteration cfg t m) as [[[]|e] m']; cbn [fst] in *; try discriminate;
    [|reflexivity].
  destruct (Z.ltb_spec (CHECK_INTERVAL cfg) 0); [lia|]. now apply IH.
Qed.

Lemma loop_raises cfg ticks m e :
  fst (loop cfg ticks m) = Raise e ->
  exists t, In t ticks /\ ((CHECK_INTERVAL cfg < 0)%Z \/ nap t = Some e).
Proof.
  revert m. induction ticks as [|t rest IH]; intros m; [discriminate|].
  rewrite loop_cons.
  destruct (iteration_returns py_str py_bool cfg t m) as [c Hc].
  destruct (iteration cfg t m) as [[[]|e'] m']; cbn [fst] in *; try discriminate.
  destruct (Z.ltb_spec (CHECK_INTERVAL cfg) 0).
  - intros _. exists t. split; [now left | now left].
  - destruct (nap t) as [e'|] eqn:Hn.
    + intros [= ->]. exists t. split; [now left | now right].
    + intros Hr. destruct (IH _ Hr) as (t' & Hin & Ht'). exists t'. split; [now right | exact Ht'].
Qed.

(** X11.  Nothing that happens inside a pass ends [main] with an exception:
    whatever the fetch, the Telegram request and the write of the state
    file do, [main] returns when every sleep ends by itself.  If [main]
    ends with an exception, it is one raised by [time.sleep]. *)
Theorem main_ends_only_in_sleep (cfg : config) (f : file) (ticks : list tick) :
  (Forall (sleeps cfg) ticks -> fst (main cfg ticks (boot f)) = Ret tt)
  /\ (forall e, fst (main cfg ticks (boot f)) = Raise e ->
                exists t, In t ticks /\ ~ sleeps cfg t
                          /\ ((CHECK_INTERVAL cfg < 0)%Z \/ nap t = Some e)).
Proof.
  destruct (main_from cfg f ticks) as (m1 & _ & ->). split.
  - apply loop_returns.
  - intros e He. destruct (loop_raises cfg ticks m1 e He) as (t & Hin & Ht).
    exists t. split; [exact Hin|]. split; [|exact Ht].
    intros [Hpos Hnap]. destruct Ht as [Hneg | Hn]; [lia | congruence].
Qed.

(** X12.  A pass calls the notifier at most once and [save_state] at most
    once, the notifier first.  What is saved is the status fetched in this
    pass with the timestamp of this pass, and it is then the remembered
    status.  A pass that does not save leaves the state file and the
    remembered status as they were. *)
Theorem pass_sends_and_saves_at_most_once (cfg : config) (t : tick) (m : machine) :
  let m' := snd (iteration cfg t m) in
  exists sent saved,
    calls m' = calls m ++ sent ++ saved
    /\ (sent = [] \/ exists message, sent = [Send message])
    /\ (saved = []
        \/ exists S, saved = [Save S (now t)] /\ fetch_returns cfg t (Some S)
                     /\ previous_status m' = JString S)
    /\ (saved = [] ->
        state_file m' = state_file m /\ previous_status m' = previous_status m).
Proof.
  cbv zeta.
  destruct (pass_cases cfg t m)
    as [(S & Hf & HP & _ & Hc) | [(S & b & Hf & _ & _ & _ & Hc) | [(S & e & _ & _ & _ & _ & Hc)
       | [(_ & _ & _ & Hc) | [(b & _ & _ & _ & _ & Hc) | [(e & _ & _ & _ & _ & Hc)
       | (_ & _ & Hc)]]]]]];
    try (symmetry in Hc; unfold core at 2 in Hc; symmetry in Hc);
    apply core_fields in Hc; destruct Hc as (P1 & _ & F1 & C1).
  - exists [], [Save S (now t)]. split; [exact C1|]. split; [now left|].
    split; [right; now exists S | discriminate].
  - eexists [_], [Save S (now t)]. split; [exact C1|]. split; [right; eauto|].
    split; [right; now exists S | discriminate].
  - eexists [_], []. split; [exact C1|]. split; [right; eauto|]. split; [now left | now split].
  - exists [], []. rewrite app_nil_r. split; [exact C1|]. split; [now left|].
    split; [now left | now split].
  - eexists [_], []. split; [exact C1|]. split; [right; eauto|]. split; [now left | now split].
  - eexists [_], []. split; [exact C1|]. split; [right; eauto|]. split; [now left | now split].
  - exists [], []. rewrite app_nil_r. split; [exact C1|]. split; [now left|].
    split; [now left | now split].
Qed.

(** X13.  A run of failed fetches neither touches the state file nor the
    remembered status, and the only calls it makes are critical alerts that
    name that status: nothing is saved and no start or change message is
    sent, however long the run and whatever becomes of the alerts. *)
Theorem failed_fetches_leave_the_state (cfg : config) (ticks : list tick) (m : machine) :
  Forall (fun t => fetch_returns cfg t None) ticks ->
  let m' := snd (loop cfg ticks m) in
  state_file m' = state_file m
  /\ previous_status m' = previous_status m
  /\ exists alerts,
       calls m' = calls m ++ alerts
       /\ Forall (fun c => exists n, c = Send (error_msg n (previous_status m))) alerts.
Proof.
  intros Hall. cbv zeta.
  apply (loop_keeps (fun t => fetch_returns cfg t None)
           (fun m' => state_file m' = state_file m
                      /\ previous_status m' = previous_status m
                      /\ exists alerts,
                           calls m' = calls m ++ alerts
                           /\ Forall (fun c => exists n, c = Send (error_msg n (previous_status m)))
                                     alerts) cfg); [| |exact Hall|].
  - now intros l m1.
  - intros t m1 Hf (F0 & P0 & alerts & C0 & Ha).
    assert (Hno : forall S, fetch_returns cfg t (Some S) -> False)
      by (intros S HS; pose proof (fetch_one _ _ _ _ Hf HS); discriminate).
    destruct (pass_cases cfg t m1)
      as [(S & HS & _) | [(S & b & HS & _) | [(S & e & HS & _)
         | [(_ & _ & _ & Hc) | [(b & _ & _ & _ & _ & Hc) | [(e & _ & _ & _ & _ & Hc)
         | (Hp & _)]]]]]];
      try (now destruct (Hno S)); try (now destruct (fetch_uninterrupted _ _ _ Hf));
      apply core_fields in Hc; destruct Hc as (P1 & _ & F1 & C1);
      (split; [congruence|]); (split; [congruence|]).
    + exists alerts. split; [congruence | exact Ha].
    + eexists (alerts ++ [_]). rewrite C1, C0, app_assoc. split; [reflexivity|].
      apply Forall_app. split; [exact Ha|]. repeat constructor. rewrite P0. eauto.
    + eexists (alerts ++ [_]). rewrite C1, C0, app_assoc. split; [reflexivity|].
      apply Forall_app. split; [exact Ha|]. repeat constructor. rewrite P0. eauto.
  - split; [reflexivity|]. split; [reflexivity|]. exists []. now rewrite app_nil_r.
Qed.

(** X14.  As long as every call of the notifier returns, the counter of
    consecutive errors is at most 4 whenever a pass has ended: it is reset
    in the pass in which it reaches 5. *)
Theorem error_counter_stays_below_threshold (cfg : config) (f : file) (ticks : list tick) :
  Forall (send_completes cfg) ticks ->
  (0 <= consecutive_errors (snd (main cfg ticks (boot f))) < max_consecutive_errors)%Z.
Proof.
  intros Hall. destruct (main_from cfg f ticks) as (m1 & Hcore & ->).
  apply core_fields in Hcore. destruct Hcore as (_ & E1 & _).
  apply (loop_keeps (send_completes cfg)
           (fun m => (0 <= consecutive_errors m < max_consecutive_errors)%Z) cfg);
    [| |exact Hall|].
  - now intros l m.
  - intros t m [b Hb] Hm.
    destruct (pass_cases cfg t m)
      as [(S & _ & _ & _ & Hc) | [(S & b' & _ & _ & _ & _ & Hc) | [(S & e & _ & _ & He & _)
         | [(_ & Hlt & _ & Hc) | [(b' & _ & _ & _ & _ & Hc) | [(e & _ & _ & He & _)
         | (_ & _ & Hc)]]]]]];
      try (now destruct (send_returns_or_raises _ _ _ _ Hb He));
      try (symmetry in Hc; unfold core at 2 in Hc; symmetry in Hc);
      apply core_fields in Hc; destruct Hc as (_ & -> & _);
      unfold max_consecutive_errors in *; lia.
  - rewrite E1. unfold max_consecutive_errors. lia.
Qed.

Lemma start_message_head cfg S :
  exists r, start_message cfg S = String "240" (String "159" (String "164" r)).
Proof. open_messages. cbn. eauto. Qed.

Lemma change_message_head cfg P S ts :
  exists r, change_message cfg P S ts = String "240" (String "159" (String "148" r)).
Proof. open_messages. cbn. eauto. Qed.

Lemma error_msg_head n P :
  exists r, error_msg n P = String "240" (String "159" (String "154" r)).
Proof. open_messages. cbn. eauto. Qed.

(** The change message and the critical alert are no start message. *)
Lemma not_a_start_message cfg message :
  (exists P S ts, P <> JNull /\ message = news cfg P S ts)
  \/ (exists n P, message = error_msg n P) ->
  forall S, message <> start_message cfg S.
Proof.
  intros H S' He. destruct (start_message_head cfg S') as [r Hr]. rewrite Hr in He.
  destruct H as [(P & S & ts & HP & ->) | (n & P & ->)].
  - unfold news in He. destruct P; try (now destruct HP);
      cbn [is_None] in He; destruct (change_message_head cfg _ S ts) as [r' Hr'];
      rewrite Hr' in He; discriminate.
  - destruct (error_msg_head n P) as [r' Hr']. rewrite Hr' in He. discriminate.
Qed.

Lemma every_tick (ticks : list tick) : Forall (fun _ => True) ticks.
Proof. induction ticks; now constructor. Qed.

(** X15.  Once a status is remembered it is never forgotten, and no start
    message is sent any more: whatever the later passes meet, the
    remembered status is never [None] again and none of the notifier calls
    carries the start message. *)
Theorem known_status_is_never_forgotten (cfg : config) (ticks : list tick) (m : machine) :
  previous_status m <> JNull ->
  let m' := snd (loop cfg ticks m) in
  previous_status m' <> JNull
  /\ exists later,
       calls m' = calls m ++ later
       /\ forall S, ~ In (Send (start_message cfg S)) later.
Proof.
  intros HP. cbv zeta.
  apply (loop_keeps (fun _ => True)
           (fun m' => previous_status m' <> JNull
                      /\ exists later,
                           calls m' = calls m ++ later
                           /\ forall S, ~ In (Send (start_message cfg S)) later) cfg);
    [| |apply every_tick|].
  - now intros l m1.
  - intros t m1 _ (P0 & later & C0 & Hno).
    assert (Hadd : forall message,
              (exists P S ts, P <> JNull /\ message = news cfg P S ts)
              \/ (exists n P, message = error_msg n P) ->
              forall saved S, (forall c, In c saved -> exists s ts, c = Save s ts) ->
                              ~ In (Send (start_message cfg S))
                                  (later ++ Send message :: saved)).
    { intros message Hm saved S Hsaved Hin. apply in_app_or in Hin.
      destruct Hin as [Hin | [Hin | Hin]].
      - now apply (Hno S).
      - injection Hin as Hin. now apply (not_a_start_message cfg message Hm S).
      - destruct (Hsaved _ Hin) as (s & ts & Hc). discriminate. }
    assert (Hnone : forall c : call, In c [] -> exists s ts, c = Save s ts) by (intros c []).
    assert (Hone : forall s ts (c : call), In c [Save s ts] -> exists s ts, c = Save s ts)
      by (intros s ts c [<- | []]; eauto).
    destruct (pass_cases cfg t m1)
      as [(S & _ & _ & _ & Hc) | [(S & b & _ & _ & _ & _ & Hc) | [(S & e & _ & _ & _ & _ & Hc)
         | [(_ & _ & _ & Hc) | [(b & _ & _ & _ & _ & Hc) | [(e & _ & _ & _ & _ & Hc)
         | (_ & _ & Hc)]]]]]];
      try (symmetry in Hc; unfold core at 2 in Hc; symmetry in Hc);
      apply core_fields in Hc; destruct Hc as (P1 & _ & _ & C1); rewrite P1, C1, C0.
    + split; [discriminate|]. exists (later ++ [Save S (now t)]).
      split; [now rewrite app_assoc|]. intros S' Hin. apply in_app_or in Hin.
      destruct Hin as [Hin | [Hin | []]]; [now apply (Hno S') | discriminate].
    + split; [discriminate|]. eexists (later ++ [_; _]).
      split; [now rewrite app_assoc|]. intros S'. apply Hadd; [|apply Hone].
      left. exists (previous_status m1), S, (now t). now split.
    + split; [exact P0|]. eexists (later ++ [_]).
      split; [now rewrite app_assoc|]. intros S'. apply Hadd; [|exact Hnone].
      left. exists (previous_status m1), S, (now t). now split.
    + split; [exact P0|]. now exists later.
    + split; [exact P0|]. eexists (later ++ [_]).
      split; [now rewrite app_assoc|]. intros S'. apply Hadd; [|exact Hnone].
      right. eauto.
    + split; [exact P0|]. eexists (later ++ [_]).
      split; [now rewrite app_assoc|]. intros S'. apply Hadd; [|exact Hnone].
      right. eauto.
    + split; [exact P0|]. now exists later.
  - split; [exact HP|]. exists []. split; [now rewrite app_nil_r | now intros S []].
Qed.

(** X16.  When every write of the state file is complete, the status in the
    state file is the remembered status whenever a pass has ended: the two
    are set together from the start of [main] on, also in the passes in
    which the fetch fails or the notifier raises. *)
Theorem memory_and_disk_agree (cfg : config) (f : file) (ticks : list tick) :
  Forall (fun t => disk t = Written) ticks ->
  let m := snd (main cfg ticks (boot f)) in
  fst (loaded (state_file m)) = previous_status m.
Proof.
  intros Hall. cbv zeta. destruct (main_from cfg f ticks) as (m1 & Hcore & ->).
  apply core_fields in Hcore. destruct Hcore as (P1 & _ & F1 & _).
  apply (loop_keeps (fun t => disk t = Written)
           (fun m => fst (loaded (state_file m)) = previous_status m) cfg);
    [| |exact Hall|].
  - now intros l m.
  - intros t m Hw Hm.
    destruct (pass_cases cfg t m)
      as [(S & _ & _ & _ & Hc) | [(S & b & _ & _ & _ & _ & Hc) | [(S & e & _ & _ & _ & _ & Hc)
         | [(_ & _ & _ & Hc) | [(b & _ & _ & _ & _ & Hc) | [(e & _ & _ & _ & _ & Hc)
         | (_ & _ & Hc)]]]]]];
      try (symmetry in Hc; unfold core at 2 in Hc; symmetry in Hc);
      apply core_fields in Hc; destruct Hc as (-> & _ & -> & _);
      try exact Hm; rewrite Hw; cbn [stored]; now rewrite loaded_record.
  - now rewrite F1, P1.
Qed.

Lemma ends_with_more (a s x : string) :
  (exists head, s = head +:+ x) -> exists head, a +:+ s = head +:+ x.
Proof. intros [head ->]. exists (a +:+ head). now rewrite append_assoc. Qed.

(** X17.  The critical alert names the number of failed attempts and the
    last known status; when no status is remembered, or an empty one, it
    says Desconocido in its place. *)
Theorem alert_names_last_known_status (cfg : config) (t : tick) (m : machine) :
  fetch_returns cfg t None ->
  (max_consecutive_errors <= consecutive_errors m + 1)%Z ->
  exists message,
    calls (snd (iteration cfg t m)) = calls m ++ [Send message]
    /\ Py.contains (Py.str_of_int (consecutive_errors m + 1)) message = true
    /\ (previous_status m = JNull \/ previous_status m = JString EmptyString ->
        exists head, message = head +:+ "Último estado conocido: Desconocido")
    /\ (forall S, previous_status m = JString S -> S <> EmptyString ->
                  exists head, message = head +:+ "Último estado conocido: " +:+ S).
Proof.
  intros Hf Hge.
  exists (error_msg (consecutive_errors m + 1) (previous_status m)).
  split; [|split; [|split]].
  - destruct (send_cases cfg t) as [[b Hs] | [e Hs]].
    + destruct (pass_failed_alert py_str py_bool cfg t m b Hf Hge Hs) as [_ Hc].
      now apply core_fields in Hc.
    + destruct (pass_failed_alert_raises py_str py_bool cfg t m e Hf Hge Hs) as [_ Hc].
      now apply core_fields in Hc.
  - open_messages. repeat first [apply contains_here | apply contains_skip].
  - intros HP. open_messages.
    assert (Ht : truthy py_bool (previous_status m) = false)
      by (destruct HP as [-> | ->]; reflexivity).
    rewrite Ht. repeat first [now exists EmptyString | apply ends_with_more].
  - intros S HP HS. open_messages. rewrite HP. cbn [truthy str].
    destruct S as [|c S]; [now destruct HS|]. cbn [Py.nonempty].
    repeat first [now exists EmptyString | apply ends_with_more].
Qed.

(** X18.  The body of a pass raises only where the program does not guard a
    call: an interrupt while the page is fetched, or an exception of the
    Telegram request that is no [RequestException].  The fetch and the write
    of the state file never bring the loop to its [except Exception]
    clause.  When the body raises, nothing has been saved and the
    remembered status is as before. *)
Theorem unexpected_errors_come_from_the_notifier
  (cfg : config) (t : tick) (m : machine) (e : exn) :
  fst (attempt cfg t m) = Raise e ->
  ((e = KeyboardInterrupt /\ page t = inl KeyboardInterrupt)
   \/ (unconfigured cfg = false /\ post t = Some e
       /\ forall text, e <> RequestException text))
  /\ state_file (snd (attempt cfg t m)) = state_file m
  /\ previous_status (snd (attempt cfg t m)) = previous_status m.
Proof.
  assert (Hsend : forall e', send_raises cfg t e' ->
            unconfigured cfg = false /\ post t = Some e'
            /\ forall text, e' <> RequestException text).
  { intros e' He'. exact (send_raise_inv _ _ _ _ _ (He' EmptyString (boot Absent))). }
  open_attempt.
  destruct (fetch_cases cfg t) as [[S Hf] | [Hf | Hp]].
  - rewrite (fetch_some _ _ _ _ Hf).
    cbn [previous_status set_consecutive_errors add_log].
    destruct (differs S (previous_status m)).
    + destruct (send_cases cfg t) as [[b Hs] | [e' Hs]].
      * destruct (is_None (previous_status m));
          match goal with |- context [send_telegram_message cfg (post t) ?msg ?mm] =>
            destruct (send_ret cfg t b msg mm Hs) as [lines ->] end;
          match goal with |- context [save_state cfg (disk t) S (now t) ?mm] =>
            destruct (save_effect cfg (disk t) S (now t) mm) as [lines' ->] end;
          discriminate.
      * destruct (is_None (previous_status m)); rewrite (send_exn _ _ _ _ _ Hs);
          cbn [fst snd]; intros [= <-]; (split; [right; now apply Hsend | now split]).
    + match goal with |- context [save_state cfg (disk t) S (now t) ?mm] =>
        destruct (save_effect cfg (disk t) S (now t) mm) as [lines' ->] end.
      discriminate.
  - match goal with |- context [get_visa_status cfg (page t) ?mm] =>
      destruct (fetch_none cfg t mm Hf) as [line ->] end.
    cbn [consecutive_errors previous_status set_consecutive_errors add_log].
    destruct (max_consecutive_errors <=? consecutive_errors m + 1)%Z; [|discriminate].
    destruct (send_cases cfg t) as [[b Hs] | [e' Hs]].
    + match goal with |- context [send_telegram_message cfg (post t) ?msg ?mm] =>
        destruct (send_ret cfg t b msg mm Hs) as [lines ->] end.
      discriminate.
    + rewrite (send_exn _ _ _ _ _ Hs). cbn [fst snd]. intros [= <-].
      split; [right; now apply Hsend | now split].
  - unfold get_visa_status, try_except, raise. rewrite Hp. cbn [fst snd].
    intros [= <-]. split; [now left | now split].
Qed.

(** X19.  While every fetch fails, every alert is handed to the notifier
    without an exception and every sleep ends by itself, the alerts come
    with every fifth failure: from a counter c below 5, after n failed
    passes the counter is (c + n) mod 5 and exactly (c + n) / 5 calls of the
    notifier have been made, each with the critical message for 5 attempts
    and the status remembered at the start. *)
Theorem alerts_every_fifth_failure (cfg : config) (ticks : list tick) (m : machine) :
  Forall (fun t => fetch_returns cfg t None /\ send_completes cfg t /\ sleeps cfg t) ticks ->
  (0 <= consecutive_errors m < max_consecutive_errors)%Z ->
  let total := (consecutive_errors m + Z.of_nat (length ticks))%Z in
  let m' := snd (loop cfg ticks m) in
  consecutive_errors m' = (total mod max_consecutive_errors)%Z
  /\ previous_status m' = previous_status m
  /\ exists alerts,
       calls m' = calls m ++ alerts
       /\ Z.of_nat (length alerts) = (total / max_consecutive_errors)%Z
       /\ Forall (fun c => c = Send (error_msg max_consecutive_errors (previous_status m)))
                 alerts.
Proof.
  cbv zeta. unfold max_consecutive_errors.
  revert m. induction ticks as [|t rest IH]; intros m Hall Hc.
  - cbn [length loop mret M_ret snd]. rewrite Z.add_0_r.
    split; [now rewrite Z.mod_small|]. split; [reflexivity|].
    exists []. rewrite app_nil_r, Z.div_small by lia. now repeat split.
  - inversion Hall as [|? ? (Hf & [b Hs] & Hz) Hrest]; subst.
    cbn [length]. rewrite Nat2Z.inj_succ.
    destruct (Z.lt_ge_cases (consecutive_errors m + 1) 5) as [Hlt | Hge].
    + destruct (quiet_step py_str py_bool cfg t rest m Hf Hlt Hz) as [-> Hcore].
      apply core_fields in Hcore. destruct Hcore as (P1 & E1 & _ & C1).
      match goal with |- context [loop cfg rest ?mm] =>
        destruct (IH mm Hrest) as (E2 & P2 & alerts & C2 & L2 & A2); [rewrite E1; lia|] end.
      rewrite E2, P2, E1, P1. split; [f_equal; lia|]. split; [reflexivity|].
      exists alerts. rewrite C2, C1, L2, E1. split; [reflexivity|].
      split; [f_equal; lia|]. now rewrite P1 in A2.
    + assert (Hfive : (consecutive_errors m + 1 = 5)%Z) by lia.
      destruct (alert_step py_str py_bool cfg t rest m b Hf Hge Hs Hz) as [-> Hcore].
      apply core_fields in Hcore. destruct Hcore as (P1 & E1 & _ & C1).
      match goal with |- context [loop cfg rest ?mm] =>
        destruct (IH mm Hrest) as (E2 & P2 & alerts & C2 & L2 & A2); [rewrite E1; lia|] end.
      rewrite E2, P2, E1, P1.
      replace (consecutive_errors m + Z.succ (Z.of_nat (length rest)))%Z
        with (Z.of_nat (length rest) + 1 * 5)%Z by lia.
      rewrite Z.mod_add, Z.div_add by lia. split; [reflexivity|]. split; [reflexivity|].
      eexists (_ :: alerts). rewrite C2, C1, <- app_assoc. split; [reflexivity|].
      cbn [length]. rewrite Nat2Z.inj_succ, L2, E1, Z.add_0_l. split; [lia|].
      rewrite Hfive. constructor; [reflexivity|]. now rewrite P1 in A2.
Qed.

(** X21.  In a run of passes whose fetches succeed, every change of the
    status is handed to the notifier exactly once, in the pass that first
    sees it, and every pass saves what it fetched: the calls are a
    notification wherever the status is not that of the pass before (for
    the first pass, the remembered one), each followed by the save, and a
    save alone in the other passes. *)
Theorem each_change_is_reported_once
  (cfg : config) (ticks : list tick) (run : list (string * string)) (m : machine) :
  Forall2 (fun t r => fetch_returns cfg t (Some (fst r)) /\ now t = snd r
                      /\ send_completes cfg t /\ sleeps cfg t) ticks run ->
  calls (snd (loop cfg ticks m)) = calls m ++ reports py_str cfg (previous_status m) run.
Proof.
  intros Hall. revert m.
  induction Hall as [|t [S ts] ticks run (Hf & Hnow & [b Hs] & Hz) _ IH]; intros m.
  - cbn [reports]. now rewrite app_nil_r.
  - cbn [fst snd] in Hf, Hnow. cbn [reports].
    destruct (differs S (previous_status m)) eqn:Hd.
    + destruct (pass_changed py_str py_bool cfg t m S b Hf Hd Hs) as [Hc Hcore].
      rewrite (loop_continue py_str py_bool cfg t ticks m Hc Hz), IH.
      cbn [calls previous_status add_log].
      apply core_fields in Hcore. destruct Hcore as (-> & _ & _ & ->).
      rewrite Hnow, <- app_assoc. reflexivity.
    + pose proof (differs_false _ _ Hd) as HP.
      destruct (pass_unchanged py_str py_bool cfg t m S Hf HP) as [Hc Hcore].
      rewrite (loop_continue py_str py_bool cfg t ticks m Hc Hz), IH.
      cbn [calls previous_status add_log].
      apply core_fields in Hcore. destruct Hcore as (-> & _ & _ & ->).
      rewrite Hnow, <- app_assoc. reflexivity.
Qed.

Lemma pass_without_credentials cfg q t m :
  unconfigured cfg = true -> iteration cfg (with_post q t) m = iteration cfg t m.
Proof.
  unfold unconfigured. intros Hun. open_request. rewrite Hun. reflexivity.
Qed.

Lemma loop_without_credentials cfg ticks ticks' m :
  unconfigured cfg = true ->
  Forall2 (fun t t' => exists q, t' = with_post q t) ticks ticks' ->
  loop cfg ticks' m = loop cfg ticks m.
Proof.
  intros Hun Hall. revert m.
  induction Hall as [|t t' ticks ticks' [q ->] _ IH]; intros m; [reflexivity|].
  rewrite !loop_cons, (pass_without_credentials cfg q t m Hun). cbn [nap with_post].
  destruct (iteration cfg t m) as [[[]|e] m']; try reflexivity.
  destruct (CHECK_INTERVAL cfg <? 0)%Z; [reflexivity|]. destruct (nap t); [reflexivity|].
  apply IH.
Qed.

(** X22.  With a credential left at its placeholder the program never makes
    a Telegram request: the whole run, with everything it returns, saves
    and logs, is the same whatever the requests would have done. *)
Theorem no_request_without_credentials
  (cfg : config) (f : file) (ticks ticks' : list tick) :
  unconfigured cfg = true ->
  Forall2 (fun t t' => exists q, t' = with_post q t) ticks ticks' ->
  main cfg ticks' (boot f) = main cfg ticks (boot f).
Proof.
  intros Hun Hall. open_run.
  destruct (startup cfg (boot f)) as [[[]|e] m1]; [|reflexivity].
  now apply loop_without_credentials.
Qed.

End Run.

(** ** Further sample runs *)

(** The row holds no primary label; its success label says Open and its
    last cell holds remarks. *)
Lemma first_usable_selector_decides_witness :
  row_status labelled_row = Some "Open"
  /\ fst (get_visa_status spain (inr labelled_page) (boot Absent)) = Ret (Some "Open").
Proof.
  destruct (first_usable_selector_decides (firstn 1 status_selectors) (skipn 2 status_selectors)
              label_success labelled_row open_label) as [Hrow Hfetch].
  - reflexivity.
  - intros sel' el' [<- | []] Hsel. vm_compute in Hsel. discriminate.
  - reflexivity.
  - reflexivity.
  - split; [exact Hrow|]. now apply (Hfetch spain labelled_page (boot Absent)).
Defined.

(** COUNTRY=Zealand finds the row of New Zealand. *)
Lemma country_is_matched_as_substring_witness :
  fst (get_visa_status zealand (inr zealand_page) (boot Absent)) = Ret (Some "Open").
Proof.
  destruct (country_is_matched_as_substring zealand zealand_page (boot Absent)) as (_ & H & _).
  now apply (H (tr [td "New Zealand"; td "Open"]) [] "New " "Open" "Open").
Defined.

Lemma main_resumes_from_state_file_witness :
  calls (snd (main no_str no_bool spain [open_now] (boot Absent)))
  = [Send (start_message spain "Open"); Save "Open" "2024-05-01 12:00:00"].
Proof.
  destruct (main_resumes_from_state_file no_str no_bool spain Absent open_now "Open")
    as (_ & _ & _ & Hstart & _).
  - intros m. reflexivity.
  - exists true. intros message m. reflexivity.
  - now apply Hstart.
Defined.

Lemma restart_after_save_witness :
  let f := state_file (snd (save_state spain Written "Open" "2024-04-30 23:55:00" (boot Absent))) in
  calls (snd (main no_str no_bool spain [open_now] (boot f)))
  = [Save "Open" "2024-05-01 12:00:00"].
Proof.
  destruct (restart_after_save no_str no_bool spain Written "Open" "2024-04-30 23:55:00"
              (boot Absent) open_now "Open") as (Hwritten & _).
  - intros m. reflexivity.
  - exists true. intros message m. reflexivity.
  - destruct Hwritten as [Hsame _]; [now left|]. now apply Hsame.
Defined.

Lemma interrupt_ends_the_loop_witness :
  loop no_str no_bool spain [interrupted; open_now] (boot Absent)
  = (Ret tt,
     add_log (INFO, "Deteniendo el monitor por solicitud del usuario...")
       (add_log (INFO, "Verificando estado... (2024-05-01 12:00:00)") (boot Absent))).
Proof.
  destruct (interrupt_ends_the_loop no_str no_bool spain interrupted [open_now] (boot Absent))
    as (H & _).
  now apply H.
Defined.

(** With CHECK_INTERVAL=-5 the first pass is the last one. *)
Lemma sleep_failure_ends_main_witness :
  main no_str no_bool hurried [open_now; open_now] (boot Absent)
  = main no_str no_bool hurried [open_now] (boot Absent)
  /\ exists e, fst (main no_str no_bool hurried [open_now; open_now] (boot Absent)) = Raise e
               /\ e = Exception "sleep length must be non-negative".
Proof.
  destruct (sleep_failure_ends_main no_str no_bool hurried Absent open_now [open_now])
    as (Hsame & Hends).
  - intros [Hpos _]. cbn in Hpos. lia.
  - split; [exact Hsame|]. destruct Hends as (e & He & Hneg & _); [discriminate | discriminate |].
    exists e. split; [exact He|]. apply Hneg. cbn. lia.
Defined.

Lemma failed_fetches_leave_the_state_witness :
  let m := set_previous_status (JString "Open") (boot Absent) in
  let m' := snd (loop no_str no_bool spain
                   [timed_out; timed_out; timed_out; timed_out; timed_out; timed_out] m) in
  state_file m' = Absent /\ previous_status m' = JString "Open".
Proof.
  destruct (failed_fetches_leave_the_state no_str no_bool spain
              [timed_out; timed_out; timed_out; timed_out; timed_out; timed_out]
              (set_previous_status (JString "Open") (boot Absent))) as (Hfile & Hprev & _).
  - repeat (constructor; [intros m; reflexivity|]). constructor.
  - split; [exact Hfile | exact Hprev].
Defined.

Lemma error_counter_stays_below_threshold_witness :
  (0 <= consecutive_errors
          (snd (main no_str no_bool spain
                  [timed_out; timed_out; timed_out; timed_out; timed_out; timed_out]
                  (boot Absent)))
   < max_consecutive_errors)%Z.
Proof.
  apply (error_counter_stays_below_threshold no_str no_bool spain Absent).
  repeat (constructor; [exists true; intros message m; reflexivity|]). constructor.
Defined.

Lemma known_status_is_never_forgotten_witness :
  previous_status
    (snd (loop no_str no_bool spain [timed_out; at_noon (inr closed_page) None]
            (set_previous_status (JString "Open") (boot Absent))))
  <> JNull.
Proof.
  destruct (known_status_is_never_forgotten no_str no_bool spain
              [timed_out; at_noon (inr closed_page) None]
              (set_previous_status (JString "Open") (boot Absent))) as (H & _).
  - discriminate.
  - exact H.
Defined.

Lemma memory_and_disk_agree_witness :
  let m := snd (main no_str no_bool spain
                  [open_now; timed_out; at_noon (inr closed_page) None] (boot Absent)) in
  fst (loaded (state_file m)) = previous_status m.
Proof.
  apply (memory_and_disk_agree no_str no_bool spain Absent).
  repeat (constructor; [reflexivity|]). constructor.
Defined.

Lemma alert_names_last_known_status_witness :
  exists message,
    calls (snd (iteration no_str no_bool spain timed_out (set_consecutive_errors 4 (boot Absent))))
    = [Send message]
    /\ exists head, message = head +:+ "Último estado conocido: Desconocido".
Proof.
  destruct (alert_names_last_known_status no_str no_bool spain timed_out
              (set_consecutive_errors 4 (boot Absent))) as (message & Hcalls & _ & Hnone & _).
  - intros m. reflexivity.
  - unfold max_consecutive_errors. cbn. lia.
  - exists message. split; [exact Hcalls|]. apply Hnone. now left.
Defined.

(** The request of the alert raises an exception that is no
    [RequestException]. *)
Lemma unexpected_errors_come_from_the_notifier_witness :
  post timed_out_alert_crashes = Some (Exception "UnicodeEncodeError")
  /\ state_file (snd (attempt no_str no_bool spain timed_out_alert_crashes
                        (set_consecutive_errors 4 (boot Absent))))
     = Absent.
Proof.
  destruct (unexpected_errors_come_from_the_notifier no_str no_bool spain
              timed_out_alert_crashes (set_consecutive_errors 4 (boot Absent))
              (Exception "UnicodeEncodeError")) as ([[Hint _] | (_ & Hpost & _)] & Hfile & _).
  - reflexivity.
  - discriminate.
  - split; [exact Hpost | exact Hfile].
Defined.

(** Eleven failed fetches from the start: two alerts, and the counter is at 1. *)
Lemma alerts_every_fifth_failure_witness :
  let ticks := [timed_out; timed_out; timed_out; timed_out; timed_out; timed_out;
                timed_out; timed_out; timed_out; timed_out; timed_out] in
  let m' := snd (loop no_str no_bool spain ticks (boot Absent)) in
  consecutive_errors m' = 1%Z
  /\ exists alerts, calls m' = alerts /\ Z.of_nat (length alerts) = 2%Z.
Proof.
  cbv zeta.
  destruct (alerts_every_fifth_failure no_str no_bool spain
              [timed_out; timed_out; timed_out; timed_out; timed_out; timed_out;
               timed_out; timed_out; timed_out; timed_out; timed_out] (boot Absent))
    as (Herrors & _ & alerts & Hcalls & Hlen & _).
  - repeat (constructor;
            [split; [intros m; reflexivity |
                     split; [exists true; intros message m; reflexivity |
                             split; [discriminate | reflexivity]]]|]).
    constructor.
  - unfold max_consecutive_errors. cbn. lia.
  - split; [exact Herrors|]. exists alerts. split; [exact Hcalls | exact Hlen].
Defined.

(** TELEGRAM_BOT_TOKEN is set, to the empty string: the notifier makes the
    request. *)
Lemma credentials_decide_notifications_witness :
  exists cfg, configuration blank_token_environ "/srv/visa" = Some cfg
              /\ unconfigured cfg = false.
Proof.
  eexists. split; [reflexivity|].
  apply (credentials_decide_notifications blank_token_environ "/srv/visa"); [reflexivity|].
  split; [exists EmptyString | exists "4242"]; (split; [reflexivity | discriminate]).
Defined.

(** Open, Open again, then Closed: the start message, and later one change
    message. *)
Lemma each_change_is_reported_once_witness :
  calls (snd (loop no_str no_bool spain
                [open_now; open_now; at_noon (inr closed_page) None] (boot Absent)))
  = [Send (start_message spain "Open"); Save "Open" "2024-05-01 12:00:00";
     Save "Open" "2024-05-01 12:00:00";
     Send (change_message no_str spain (JString "Open") "Closed" "2024-05-01 12:00:00");
     Save "Closed" "2024-05-01 12:00:00"].
Proof.
  apply (each_change_is_reported_once no_str no_bool spain
           [open_now; open_now; at_noon (inr closed_page) None]
           [("Open", "2024-05-01 12:00:00"); ("Open", "2024-05-01 12:00:00");
            ("Closed", "2024-05-01 12:00:00")] (boot Absent)).
  repeat (constructor;
          [split; [intros m; reflexivity |
                   split; [reflexivity |
                           split; [exists true; intros message m; reflexivity |
                                   split; [discriminate | reflexivity]]]]|]).
  constructor.
Defined.

(** The credentials are not set: a request that would have failed changes
    nothing. *)
Lemma no_request_without_credentials_witness :
  main no_str no_bool spain_unset
    [with_post (Some (Exception "UnicodeEncodeError")) open_now] (boot Absent)
  = main no_str no_bool spain_unset [open_now] (boot Absent).
Proof.
  apply (no_request_without_credentials no_str no_bool spain_unset Absent [open_now]).
  - reflexivity.
  - constructor; [now eexists | constructor].
Defined.
